(** * Jack_Dashboard: the data-cleaning, filtering and aggregation pipeline

    A shallow embedding of the pandas code of [src/app.py] (the NYC Language
    Access Services dashboard) and [src/sosi_app.py] (the SOSI dashboard),
    and the properties of its loader, normalizer, rating score, filter and
    aggregator.

    Modelling conventions.
    - A [DataFrame] is a list of labelled columns, as pandas stores it; a
      column ([Series]) is the list of its cells, top row first.  pandas reads
      the label [c] of a frame with repeated labels as a sub-frame; the model
      reads the first column labelled [c], which is the same thing on frames
      whose labels are distinct ([Pd.unique_labels]).
    - Cells are text, numbers, dates, or the missing markers NaN and NaT.
      Numbers are rationals kept in lowest terms: the rating score only takes
      multiples of 0.5, which binary64 represents exactly, and the sums of
      the aggregator are taken without rounding.
    - A pandas call that raises is a [Raise] result; the store is not
      observed after an exception.
    - Text is a Python [str] in UTF-8, one [ascii] per byte.  White space
      and case folding are those of Python on Unicode text: [str.strip]
      removes every character that [str.isspace] accepts, and
      [re.IGNORECASE] lets an ASCII letter of a pattern match the letters
      of other scripts that fold to it. *)

From Stdlib Require Import QArith Qreduction Qminmax Lqa.
From Stdlib Require Import Ascii String.
From stdpp Require Import base tactics option list sorting strings.

Local Open Scope string_scope.
Local Open Scope list_scope.

(** ** Text *)

Module Text.

Definition byte (a : ascii) : nat := nat_of_ascii a.

(** ASCII lower-casing. *)
Definition lower_ascii (a : ascii) : ascii :=
  let n := nat_of_ascii a in
  if (65 <=? n)%nat && (n <=? 90)%nat then ascii_of_nat (n + 32) else a.

(** The characters outside ASCII that [re.IGNORECASE] matches with an ASCII
    letter: U+017F (long s) with s, U+0130 and U+0131 (dotted capital and
    dotless small i) with i, U+212A (Kelvin sign) with k. *)
Definition folds2 (a b : ascii) : option ascii :=
  if (byte a =? 197)%nat && (byte b =? 191)%nat then Some "s"%char
  else if (byte a =? 196)%nat && ((byte b =? 176)%nat || (byte b =? 177)%nat)
       then Some "i"%char
  else None.

Definition folds3 (a b c : ascii) : option ascii :=
  if (byte a =? 226)%nat && (byte b =? 132)%nat && (byte c =? 170)%nat
  then Some "k"%char else None.

(** The case folding of [re.IGNORECASE], as far as a pattern of ASCII
    characters can tell. *)
Fixpoint lower (s : string) : string :=
  match s with
  | EmptyString => EmptyString
  | String a s1 =>
      let other := String (lower_ascii a) (lower s1) in
      match s1 with
      | String b s2 =>
          match folds2 a b with
          | Some x => String x (lower s2)
          | None =>
              match s2 with
              | String c s3 =>
                  match folds3 a b c with
                  | Some x => String x (lower s3)
                  | None => other
                  end
              | EmptyString => other
              end
          end
      | EmptyString => other
      end
  end.

(** The characters [str.isspace] accepts: in ASCII, U+0009 to U+000D and
    U+001C to U+0020; *)
Definition is_space (a : ascii) : bool :=
  let n := nat_of_ascii a in
  ((9 <=? n)%nat && (n <=? 13)%nat) || ((28 <=? n)%nat && (n <=? 32)%nat).

(** in two bytes, U+0085 and U+00A0; *)
Definition is_space2 (a b : ascii) : bool :=
  (byte a =? 194)%nat && ((byte b =? 133)%nat || (byte b =? 160)%nat).

(** in three bytes, U+1680, U+2000 to U+200A, U+2028, U+2029, U+202F,
    U+205F and U+3000. *)
Definition is_space3 (a b c : ascii) : bool :=
  (byte a =? 225)%nat && (byte b =? 154)%nat && (byte c =? 128)%nat
  || (byte a =? 226)%nat && (byte b =? 128)%nat
     && ((128 <=? byte c)%nat && (byte c <=? 138)%nat
         || (byte c =? 168)%nat || (byte c =? 169)%nat || (byte c =? 175)%nat)
  || (byte a =? 226)%nat && (byte b =? 129)%nat && (byte c =? 159)%nat
  || (byte a =? 227)%nat && (byte b =? 128)%nat && (byte c =? 128)%nat.

Definition is_empty (s : string) : bool :=
  match s with EmptyString => true | String _ _ => false end.

(** What follows the white-space character a string starts with. *)
Definition after_space (s : string) : option string :=
  match s with
  | String a s1 =>
      if is_space a then Some s1 else
      match s1 with
      | String b s2 =>
          if is_space2 a b then Some s2 else
          match s2 with
          | String c s3 => if is_space3 a b c then Some s3 else None
          | EmptyString => None
          end
      | EmptyString => None
      end
  | EmptyString => None
  end.

(** [str.lstrip()] *)
Fixpoint lstrip (s : string) : string :=
  match s with
  | EmptyString => EmptyString
  | String a s1 =>
      if is_space a then lstrip s1 else
      match s1 with
      | String b s2 =>
          if is_space2 a b then lstrip s2 else
          match s2 with
          | String c s3 => if is_space3 a b c then lstrip s3 else s
          | EmptyString => s
          end
      | EmptyString => s
      end
  end.

(** A string of white space only. *)
Definition blank (s : string) : bool := is_empty (lstrip s).

(** [str.rstrip()]: the string up to its last character that is not white
    space. *)
Fixpoint rstrip (s : string) : string :=
  match s with
  | EmptyString => EmptyString
  | String a s1 => if blank s then EmptyString else String a (rstrip s1)
  end.

(** [str.strip()] *)
Definition strip (s : string) : string := rstrip (lstrip s).

(** [pat in s] *)
Fixpoint contains (pat s : string) : bool :=
  String.prefix pat s ||
  match s with
  | EmptyString => false
  | String _ s' => contains pat s'
  end.

(** [re.search(a1|a2|..., s)] for literal alternatives, with or without
    [re.IGNORECASE]. *)
Definition search (alts : list string) (case : bool) (s : string) : bool :=
  if case then existsb (fun a => contains a s) alts
  else existsb (fun a => contains (lower a) (lower s)) alts.

(** A string given by its bytes. *)
Definition of_bytes (l : list nat) : string :=
  string_of_list_ascii (map ascii_of_nat l).

End Text.

(** ** Cells, columns and frames *)

Inductive cell : Type :=
| CStr (s : string)
| CNum (q : Q)
| CDate (d : Z)
| CNaN
| CNaT.

Global Instance Q_eq_dec : EqDecision Q.
Proof. solve_decision. Defined.

Global Instance cell_eq_dec : EqDecision cell.
Proof. solve_decision. Defined.

Abbreviation Series := (list cell).
Abbreviation DataFrame := (list (string * Series)).

Inductive exn : Type := AttributeError | KeyError | TypeError | ReferenceError.

Inductive result (A : Type) : Type :=
| Ok (a : A)
| Raise (e : exn).
Arguments Ok {A} a.
Arguments Raise {A} e.

(** [result] is an error monad; [x ← r; k] is stdpp's bind notation. *)
Global Instance result_ret : MRet result := fun A a => Ok a.
Global Instance result_bind : MBind result := fun A B k r =>
  match r with
  | Ok a => k a
  | Raise e => Raise e
  end.
Global Instance result_fmap : FMap result := fun A B f r =>
  match r with
  | Ok a => Ok (f a)
  | Raise e => Raise e
  end.

(** Float arithmetic on the rationals the model stores. *)
Definition fadd (a b : Q) : Q := Qred (a + b).
Definition fdiv (a b : Q) : Q := Qred (a / b).
Definition fclip (lo hi a : Q) : Q := Qmin (Qmax a lo) hi.

(** A stable sort: elements that the order does not tell apart keep the
    order they come in, as with Python's [sorted] and with the sort of
    pandas on the short series of a chart (on a long series the order
    among equal values is that of numpy's quicksort). *)
Fixpoint insert_by {A} (R : relation A) `{∀ x y, Decision (R x y)}
    (x : A) (l : list A) : list A :=
  match l with
  | [] => [x]
  | y :: l' => if decide (R x y) then x :: l else y :: insert_by R x l'
  end.

Definition sort_by {A} (R : relation A) `{∀ x y, Decision (R x y)}
    (l : list A) : list A :=
  foldr (insert_by R) [] l.

Module Pd.

(** Frames whose labels are distinct. *)
Definition unique_labels (df : DataFrame) : Prop := NoDup (map fst df).

(** [df.columns] *)
Definition columns (df : DataFrame) : list string := map fst df.

(** [col in df.columns] *)
Definition has_column (col : string) (df : DataFrame) : bool :=
  bool_decide (col ∈ columns df).

(** [len(df)]: every column of a frame has the length of its index. *)
Definition nrows (df : DataFrame) : nat :=
  match df with
  | [] => 0
  | (_, s) :: _ => length s
  end.

(** [df[col]] *)
Fixpoint getitem (col : string) (df : DataFrame) : result Series :=
  match df with
  | [] => Raise KeyError
  | (c, s) :: df' => if decide (c = col) then Ok s else getitem col df'
  end.

(** [df[col] = s]: writes every column labelled [col], or appends one. *)
Definition overwrite (col : string) (s : Series) (df : DataFrame) : DataFrame :=
  map (fun cs => if decide (cs.1 = col) then (cs.1, s) else cs) df.

Definition setitem (col : string) (s : Series) (df : DataFrame) : DataFrame :=
  if has_column col df then overwrite col s df else df ++ [(col, s)].

(** [df[col] = v] for a scalar [v], broadcast over the index. *)
Definition setitem_scalar (col : string) (v : cell) (df : DataFrame) : DataFrame :=
  setitem col (repeat v (nrows df)) df.

(** [df.columns = f(df.columns)] *)
Definition rename (f : string -> string) (df : DataFrame) : DataFrame :=
  map (fun cs => (f cs.1, cs.2)) df.

(** [pd.isna] *)
Definition isna (c : cell) : bool :=
  match c with
  | CNaN | CNaT => true
  | _ => false
  end.

(** [df.fillna(v)] *)
Definition fillna_cell (v c : cell) : cell := if isna c then v else c.
Definition fillna (v : cell) (df : DataFrame) : DataFrame :=
  map (fun cs => (cs.1, map (fillna_cell v) cs.2)) df.

(** Column dtypes are not stored: a non-empty column holding only numbers
    and NaN is a float or integer column, one holding only dates and NaT a
    datetime column, anything else (text, mixed, or empty as read from a
    file) an object column. *)
Definition is_numeric (c : cell) : bool :=
  match c with CNum _ | CNaN => true | _ => false end.
Definition is_datelike (c : cell) : bool :=
  match c with CDate _ | CNaT => true | _ => false end.
Definition object_dtype (s : Series) : bool :=
  match s with
  | [] => true
  | _ => negb (forallb is_numeric s) && negb (forallb is_datelike s)
  end.

(** [s.str.contains(a1|a2|..., case=case, na=na)]: the [.str] accessor
    exists on object columns only; a cell that is not text gives [na]. *)
Definition str_contains (alts : list string) (case na : bool) (s : Series)
  : result (list bool) :=
  if object_dtype s
  then Ok (map (fun c => match c with
                         | CStr t => Text.search alts case t
                         | _ => na
                         end) s)
  else Raise AttributeError.

(** One column of [df.loc[mask, col] += delta]: the numbers at the rows of
    the mask move by [delta] (an integer column becomes a float column);
    rows beyond the end of the mask are not selected. *)
Fixpoint add_where (mask : list bool) (delta : Q) (s : Series) : Series :=
  match s with
  | [] => []
  | c :: s' =>
      let b := match mask with [] => false | b :: _ => b end in
      let c' := match c with
                | CNum q => if b then CNum (fadd q delta) else c
                | _ => c
                end in
      c' :: add_where (tl mask) delta s'
  end.

(** [df.loc[mask, col] += delta] *)
Definition loc_add (mask : list bool) (col : string) (delta : Q) (df : DataFrame)
  : DataFrame :=
  map (fun cs => if decide (cs.1 = col) then (cs.1, add_where mask delta cs.2) else cs) df.

Definition is_number (c : cell) : Prop := ∃ q, c = CNum q.

(** No cell of the frame is missing. *)
Definition no_na (df : DataFrame) : Prop :=
  Forall (fun cs => Forall (fun c => isna c = false) cs.2) df.

(** [s.clip(lo, hi)] *)
Definition clip (lo hi : Q) (s : Series) : Series :=
  map (fun c => match c with CNum q => CNum (fclip lo hi q) | _ => c end) s.

(** [s.dropna()] *)
Definition dropna (s : Series) : Series :=
  List.filter (fun c => negb (isna c)) s.

(** [s.unique()]: the distinct values of a column, a missing one among
    them, in the order in which they first appear. *)
Definition unique (s : Series) : list cell :=
  reverse (remove_dups (reverse s)).

End Pd.

(** ** Python's order on values *)

Module Py.

(** Python orders text with text, numbers with numbers and dates with
    dates; NaN is a number and NaT a date. *)
Inductive kind : Type := Text | Number | Date.

Definition kind_of (c : cell) : kind :=
  match c with
  | CStr _ => Text
  | CNum _ | CNaN => Number
  | CDate _ | CNaT => Date
  end.

Global Instance kind_eq_dec : EqDecision kind.
Proof. solve_decision. Defined.

(** Values that [<] compares without raising: all of one kind. *)
Definition comparable (l : list cell) : bool :=
  match l with
  | [] => true
  | c :: l' => forallb (fun x => bool_decide (kind_of x = kind_of c)) l'
  end.

(** The order within a kind; across kinds, the order in which pandas lists
    group keys: numbers, dates, text, missing values last. *)
Definition leb (a b : cell) : bool :=
  match a, b with
  | CNum x, CNum y => Qle_bool x y
  | CNum _, _ => true
  | CDate _, CNum _ => false
  | CDate x, CDate y => (x <=? y)%Z
  | CDate _, _ => true
  | CStr _, (CNum _ | CDate _) => false
  | CStr x, CStr y => String.leb x y
  | CStr _, _ => true
  | (CNaN | CNaT), (CNaN | CNaT) => true
  | (CNaN | CNaT), _ => false
  end.
Definition le (a b : cell) : Prop := leb a b = true.
Global Instance le_dec a b : Decision (le a b) :=
  decide (leb a b = true).

(** [sorted(values)]: sorting a list of at least two values compares each
    with another one, and comparing values of two kinds raises
    [TypeError].  Both calls of the dashboards sort a column whose missing
    values have been filled or dropped; the place that Python gives NaN
    among numbers is not modelled. *)
Definition sorted (values : list cell) : result (list cell) :=
  if comparable values then Ok (sort_by le values) else Raise TypeError.

End Py.

(** ** app.py: cleaning the LASS table *)

Definition nl : string := String (ascii_of_nat 10) EmptyString.

Definition service_columns : list string :=
  [ "Interaction with Security Guards";
    "Interaction with Reception Staff";
    "Interaction with Frontline Staff";
    "Does Facility have signs posted notifying clients " +:+ nl +:+
      "to the right of interpretation services?";
    "Did the Secret Shopper receive the informat" +:+ nl +:+
      "ion or service asked for?" ].

(** The body of the scoring loop for one column. *)
Definition score_column (col : string) (df : DataFrame) : result DataFrame :=
  if Pd.has_column col df then
    s ← Pd.getitem col df;
    pos ← Pd.str_contains ["Yes"; "Good"; "Excellent"] false false s;
    let df := Pd.loc_add pos "rating_score" (1 # 2) df in
    s ← Pd.getitem col df;
    neg ← Pd.str_contains ["No"; "Poor"; "Bad"] false false s;
    Ok (Pd.loc_add neg "rating_score" (- (1 # 2)) df)
  else Ok df.

Fixpoint score_columns (cols : list string) (df : DataFrame) : result DataFrame :=
  match cols with
  | [] => Ok df
  | col :: rest => df1 ← score_column col df; score_columns rest df1
  end.

(** One iteration read apart from what it writes: the two masks of a
    column, [None] when the table has no such column. *)
Definition signal_masks (col : string) (df : DataFrame)
  : result (option (list bool * list bool)) :=
  if Pd.has_column col df then
    s ← Pd.getitem col df;
    pos ← Pd.str_contains ["Yes"; "Good"; "Excellent"] false false s;
    neg ← Pd.str_contains ["No"; "Poor"; "Bad"] false false s;
    Ok (Some (pos, neg))
  else Ok None.

Definition apply_masks (m : option (list bool * list bool)) (df : DataFrame) : DataFrame :=
  match m with
  | Some (pos, neg) =>
      Pd.loc_add neg "rating_score" (- (1 # 2)) (Pd.loc_add pos "rating_score" (1 # 2) df)
  | None => df
  end.

(** The frame the scoring loop starts from. *)
Definition scoring_base (df : DataFrame) : DataFrame :=
  Pd.setitem_scalar "rating_score" (CNum 3)
    (Pd.fillna (CStr "Unknown") (Pd.rename Text.strip df)).

(** A score of the 1-to-5 scale. *)
Definition in_range (c : cell) : Prop := ∃ q, c = CNum q ∧ (1 <= q)%Q ∧ (q <= 5)%Q.

(** [clean_lass_data] on a table, for a given list of signal columns. *)
Definition clean_lass_with (signals : list string) (df : DataFrame) : result DataFrame :=
  let df := Pd.rename Text.strip df in
  let df := Pd.fillna (CStr "Unknown") df in
  let df := Pd.setitem_scalar "rating_score" (CNum 3) df in
  df ← score_columns signals df;
  s ← Pd.getitem "rating_score" df;
  Ok (Pd.setitem "rating_score" (Pd.clip 1 5 s) df).

Definition clean_lass_data (df : option DataFrame) : result (option DataFrame) :=
  match df with
  | None => Ok None
  | Some d => Some <$> clean_lass_with service_columns d
  end.

(** ** app.py: cleaning the LEP table *)

Section Coercion.

(** The readers of pandas: text to number, text to date, and the
    conversions between numbers and dates. *)
Variable parse_number : string -> option Q.
Variable parse_date : string -> option Z.
Variable number_of_date : Z -> option Q.
Variable date_of_number : Q -> option Z.

(** [pd.to_numeric(s, errors='coerce')] *)
Definition to_numeric_cell (c : cell) : cell :=
  match c with
  | CNum q => CNum q
  | CStr t => match parse_number t with Some q => CNum q | None => CNaN end
  | CDate d => match number_of_date d with Some q => CNum q | None => CNaN end
  | CNaN | CNaT => CNaN
  end.
Definition to_numeric (s : Series) : Series := map to_numeric_cell s.

(** [pd.to_datetime(s, errors='coerce')] *)
Definition to_datetime_cell (c : cell) : cell :=
  match c with
  | CDate d => CDate d
  | CStr t => match parse_date t with Some d => CDate d | None => CNaT end
  | CNum q => match date_of_number q with Some d => CDate d | None => CNaT end
  | CNaN | CNaT => CNaT
  end.
Definition to_datetime (s : Series) : Series := map to_datetime_cell s.

Definition clean_lep_frame (df : DataFrame) : result DataFrame :=
  let df := Pd.rename Text.strip df in
  let df := Pd.fillna (CStr "Unknown") df in
  if Pd.has_column "LEP Population (Estimate)" df then
    s ← Pd.getitem "LEP Population (Estimate)" df;
    Ok (Pd.setitem "LEP Population (Estimate)" (to_numeric s) df)
  else Ok df.

Definition clean_lep_data (df : option DataFrame) : result (option DataFrame) :=
  match df with
  | None => Ok None
  | Some d => Some <$> clean_lep_frame d
  end.

End Coercion.

(** ** app.py: the sidebar filters *)

Module Filter.

(** [s.isin(values)] *)
Definition isin (values : list cell) (s : Series) : list bool :=
  map (fun c => bool_decide (c ∈ values)) s.

(** Boolean indexing of one column: the cells whose mask entry is set. *)
Fixpoint select {A} (mask : list bool) (s : list A) : list A :=
  match mask, s with
  | b :: mask', x :: s' => if b then x :: select mask' s' else select mask' s'
  | _, _ => []
  end.

(** [df[mask]] *)
Definition bool_index (mask : list bool) (df : DataFrame) : DataFrame :=
  map (fun cs => (cs.1, select mask cs.2)) df.

(** Truth value of a Python list. *)
Definition truthy {A} (l : list A) : bool :=
  match l with [] => false | _ => true end.

(** [if selected: df = df[df[col].isin(selected)]] *)
Definition filter_step (col : string) (selected : list cell) (df : DataFrame)
  : result DataFrame :=
  if truthy selected then
    s ← Pd.getitem col df;
    Ok (bool_index (isin selected s) df)
  else Ok df.

(** [sorted(lass_df[col].unique())]: the options of a sidebar widget. *)
Definition options (col : string) (lass_df : DataFrame) : result (list cell) :=
  s ← Pd.getitem col lass_df;
  Py.sorted (Pd.unique s).

(** The selection a sidebar widget hands to the filter: when the table has
    the column, the options are computed, the widget is drawn with them, and
    the selection is what the user picked; otherwise it is the empty
    list. *)
Definition sidebar_selection (lass_df : option DataFrame) (col : string)
    (picked : list cell) : result (list cell) :=
  match lass_df with
  | Some d =>
      if Pd.has_column col d then
        _ ← options col d;
        Ok picked
      else Ok []
  | None => Ok []
  end.

(** The table has a column whose options can be sorted, or lacks it. *)
Definition sortable (col : string) (lass_df : DataFrame) : bool :=
  match Pd.getitem col lass_df with
  | Ok s => Py.comparable (Pd.unique s)
  | Raise _ => true
  end.

Definition filter_columns : list string :=
  ["Agency"; "Borough"; "Secret Shopper Language"].

(** The options of every sidebar widget can be sorted. *)
Definition sortable_columns (lass_df : DataFrame) : bool :=
  forallb (fun col => sortable col lass_df) filter_columns.

Definition filtered_lass (lass_df : option DataFrame)
    (selected_agencies selected_boroughs selected_languages : list cell)
  : result DataFrame :=
  match lass_df with
  | Some d =>
      f ← filter_step "Agency" selected_agencies d;
      f ← filter_step "Borough" selected_boroughs f;
      filter_step "Secret Shopper Language" selected_languages f
  | None => Ok []
  end.

(** Sidebar and filter together, from what the user picked. *)
Definition dashboard_filter (lass_df : option DataFrame)
    (agencies boroughs languages : list cell) : result DataFrame :=
  selected_agencies ← sidebar_selection lass_df "Agency" agencies;
  selected_boroughs ← sidebar_selection lass_df "Borough" boroughs;
  selected_languages ← sidebar_selection lass_df "Secret Shopper Language" languages;
  filtered_lass lass_df selected_agencies selected_boroughs selected_languages.

(** *** Records: the rows of a frame *)

Abbreviation record := (list (string * cell)).

Fixpoint rows (df : DataFrame) : list record :=
  match df with
  | [] => []
  | (c, s) :: rest =>
      match rest with
      | [] => map (fun x => [(c, x)]) s
      | _ => zip_with (fun x r => (c, x) :: r) s (rows rest)
      end
  end.

(** The value of a record in a column, if the record has the column. *)
Fixpoint field (col : string) (r : record) : option cell :=
  match r with
  | [] => None
  | (c, x) :: r' => if decide (c = col) then Some x else field col r'
  end.

(** A filter spec: accepted values per column. *)
Definition spec : Type := list (string * list cell).

(** A record passes a spec when, for each column of the spec that the
    record has, its value is among the accepted ones. *)
Definition passes (sp : spec) (r : record) : bool :=
  forallb (fun ca => match field ca.1 r with
                     | Some v => bool_decide (v ∈ ca.2)
                     | None => true
                     end) sp.

(** The filter as the specification words it. *)
Definition filter_by_spec (sp : spec) (df : DataFrame) : list record :=
  List.filter (passes sp) (rows df).

(** The entries of a spec that the dashboard applies: those with a
    non-empty accepted list. *)
Definition restricting (sp : spec) : spec :=
  List.filter (fun ca => truthy ca.2) sp.

(** Frames as read from a file: all columns have the same length. *)
Definition rectangular (df : DataFrame) : Prop :=
  Forall (fun cs => length cs.2 = Pd.nrows df) df.

End Filter.

(** ** Grouped sums and means *)

Module Aggregate.

(** The group keys of [df.groupby(key)]: the distinct values of the key
    column, missing ones dropped, in sorted order. *)
Definition group_keys (ks : Series) : list cell :=
  sort_by Py.le (Pd.unique (Pd.dropna ks)).

(** The metric cells of the rows of group [k]. *)
Definition group_values (k : cell) (ks vs : Series) : Series :=
  Filter.select (map (fun c => bool_decide (c = k)) ks) vs.

(** The numbers of a column: what sum and mean run over ([skipna]). *)
Definition numbers (vs : Series) : list Q :=
  omap (fun c => match c with CNum q => Some q | _ => None end) vs.

Definition fsum (xs : list Q) : Q := foldl fadd 0%Q xs.

(** [s.sum()]: the sum of the numbers, 0 when there is none. *)
Definition nansum (vs : Series) : cell := CNum (fsum (numbers vs)).

(** [s.mean()]: the mean of the numbers, NaN when there is none. *)
Definition nanmean (vs : Series) : cell :=
  match numbers vs with
  | [] => CNaN
  | xs => CNum (fdiv (fsum xs) (inject_Z (Z.of_nat (length xs))))
  end.

(** [df.groupby(key)[metric].agg()] as the list of its (key, value) rows. *)
Definition groupby (agg : Series -> cell) (key metric : string) (df : DataFrame)
  : result (list (cell * cell)) :=
  ks ← Pd.getitem key df;
  vs ← Pd.getitem metric df;
  Ok (map (fun k => (k, agg (group_values k ks vs))) (group_keys ks)).

(** [s.sort_values(ascending=False)]: larger values first, NaN last. *)
Definition value_geb (a b : cell * cell) : bool :=
  match a.2, b.2 with
  | CNum x, CNum y => Qle_bool y x
  | CNum _, _ => true
  | _, CNum _ => false
  | _, _ => true
  end.
Definition value_ge (a b : cell * cell) : Prop := value_geb a b = true.
Global Instance value_ge_dec a b : Decision (value_ge a b) :=
  decide (value_geb a b = true).

Definition sort_values_desc (r : list (cell * cell)) : list (cell * cell) :=
  sort_by value_ge r.

(** An entry of an aggregation whose value is a number. *)
Definition has_value (e : cell * cell) : bool :=
  match e.2 with CNum _ => true | _ => false end.

(** [s.head(n)] *)
Definition head {A} (n : nat) (l : list A) : list A := take n l.

(** [df.empty] *)
Definition empty (df : DataFrame) : bool :=
  match df with [] => true | _ => Nat.eqb (Pd.nrows df) 0 end.

(** app.py, "LEP Population by Borough", inside the guard of [lep_charts]:
    [None] when the chart is skipped. *)
Definition lep_borough (lep_df : DataFrame) : result (option (list (cell * cell))) :=
  if Pd.has_column "Borough" lep_df && Pd.has_column "LEP Population (Estimate)" lep_df
  then Some <$> groupby nansum "Borough" "LEP Population (Estimate)" lep_df
  else Ok None.

(** app.py, "Top Languages by LEP Population", inside the same guard. *)
Definition lep_language (lep_df : DataFrame) : result (option (list (cell * cell))) :=
  if Pd.has_column "Language" lep_df && Pd.has_column "LEP Population (Estimate)" lep_df
  then r ← groupby nansum "Language" "LEP Population (Estimate)" lep_df;
       Ok (Some (head 10 (sort_values_desc r)))
  else Ok None.

(** app.py, the LEP section: [if lep_df is not None and not lep_df.empty],
    then the two charts; [None] when the section is not drawn. *)
Definition lep_charts (lep_df : option DataFrame)
  : result (option (option (list (cell * cell)) * option (list (cell * cell)))) :=
  match lep_df with
  | Some d =>
      if negb (empty d) then
        lep_borough ← lep_borough d;
        lep_language ← lep_language d;
        Ok (Some (lep_borough, lep_language))
      else Ok None
  | None => Ok None
  end.

Section Staging.

Variable parse_number : string -> option Q.
Variable number_of_date : Z -> option Q.

(** sosi_app.py, "Average Service Duration by Language". *)
Definition avg_time_by_lang (staging_df : DataFrame)
  : result (option (list (cell * cell))) :=
  if Pd.has_column "Billable time" staging_df then
    s ← Pd.getitem "Billable time" staging_df;
    let df := Pd.setitem "Billable time (numeric)"
                (to_numeric parse_number number_of_date s) staging_df in
    s ← Pd.getitem "Billable time (numeric)" df;
    if negb (forallb Pd.isna s) then
      if Pd.has_column "Language" df then
        r ← groupby nanmean "Language" "Billable time (numeric)" df;
        Ok (Some (head 10 (sort_values_desc r)))
      else Ok None
    else Ok None
  else Ok None.

End Staging.

End Aggregate.

(** ** Loaders *)

Module Loader.

(** What a pandas reader does: it returns a frame, or raises an exception
    [e]; [msg] is [str(e)]. *)
Inductive fetched : Type :=
| Parsed (df : DataFrame)
| Failed (msg : string).

(** app.py: the two remote CSV loaders, on the outcome of [pd.read_csv]. *)
Definition load_lass_data (r : fetched) : option DataFrame * option string :=
  match r with
  | Parsed lass_df => (Some lass_df, None)
  | Failed e => (None, Some ("Error loading LASS data: " +:+ e))
  end.

Definition load_lep_data (r : fetched) : option DataFrame * option string :=
  match r with
  | Parsed lep_df => (Some lep_df, None)
  | Failed e => (None, Some ("Error loading LEP data: " +:+ e))
  end.

(** sosi_app.py: a file of the working directory is absent, cannot be
    opened, or is a workbook whose sheets each read or fail. *)
Inductive file : Type :=
| Absent
| Unreadable (msg : string)
| Workbook (sheets : list (string * fetched)).

Inductive loaded : Type :=
| Sheets (d : list (string * DataFrame))
| Frame (df : DataFrame).

Definition files : list (string * string) :=
  [ ("historical", "AllDataAnalysis_20250908_194306.xlsx");
    ("linguists", "SOSiApprovedLinguists (1).xlsx");
    ("staging", "tblStaging_Raw.xlsx") ].

(** Reading every sheet; the first failure is the exception raised. *)
Fixpoint read_sheets (sheets : list (string * fetched))
  : string + list (string * DataFrame) :=
  match sheets with
  | [] => inr []
  | (name, Failed e) :: _ => inl e
  | (name, Parsed df) :: rest =>
      match read_sheets rest with
      | inl e => inl e
      | inr d => inr ((name, df) :: d)
      end
  end.

(** The body of the [try] for one file: [inl e] is a raised exception. *)
Definition try_load (key : string) (f : file) : string + option loaded :=
  match f with
  | Absent => inr None
  | Unreadable e => inl e
  | Workbook sheets =>
      if decide (key = "historical") then
        match read_sheets sheets with
        | inl e => inl e
        | inr d => inr (Some (Sheets d))
        end
      else
        match sheets with
        | (_, Parsed df) :: _ => inr (Some (Frame df))
        | (_, Failed e) :: _ => inl e
        | [] => inl "Worksheet index 0 is invalid"
        end
  end.

(** [try: ... except Exception as e: data[key] = None] *)
Definition load_entry (key : string) (f : file) : option loaded :=
  match try_load key f with
  | inr v => v
  | inl _ => None
  end.

(** The dictionary [data] is the list of its items in insertion order;
    the three keys are distinct, so each assignment adds an item. *)
Definition load_local_excel_files (fs : string -> file)
  : list (string * option loaded) :=
  foldl (fun data kf => data ++ [(kf.1, load_entry kf.1 (fs kf.2))]) [] files.

(** A file was read: it exists, it opens, and each sheet asked of it
    parses (every sheet of the historical workbook, the first sheet of the
    others). *)
Definition was_read (key : string) (f : file) : Prop :=
  match f with
  | Absent | Unreadable _ => False
  | Workbook sheets =>
      if decide (key = "historical")
      then Forall (fun ns => ∃ df, ns.2 = Parsed df) sheets
      else ∃ name df rest, sheets = (name, Parsed df) :: rest
  end.

(** What carrying the cause of a failure would mean for the spreadsheet
    loader: the cause of each unreadable file can be read off the result. *)
Definition reports_cause : Prop :=
  ∃ cause : list (string * option loaded) → string → option string,
    ∀ (fs : string → file) key name e,
      (key, name) ∈ files → fs name = Unreadable e →
      cause (load_local_excel_files fs) key = Some e.

End Loader.

(** ** Tables as objects: the store

    pandas frames are mutable objects that Python passes by reference.  The
    store holds the frames allocated so far; a reference is an index into it.
    [df.copy()] and [df.fillna(v)] allocate a frame, while [df.columns = ...],
    [df[col] = ...] and [df.loc[mask, col] += ...] write the frame they are
    called on. *)

Module Store.

Abbreviation loc := nat.
Abbreviation heap := (list DataFrame).

Definition M (A : Type) : Type := heap -> result (A * heap).

Global Instance M_ret : MRet M := fun A a h => Ok (a, h).
Global Instance M_bind : MBind M := fun A B k m h =>
  match m h with
  | Ok (a, h') => k a h'
  | Raise e => Raise e
  end.

Definition lift {A} (r : result A) : M A := fun h =>
  match r with
  | Ok a => Ok (a, h)
  | Raise e => Raise e
  end.

Definition read (l : loc) : M DataFrame := fun h =>
  match h !! l with
  | Some d => Ok (d, h)
  | None => Raise ReferenceError
  end.

Definition alloc (d : DataFrame) : M loc := fun h => Ok (length h, h ++ [d]).

Definition write (l : loc) (d : DataFrame) : M unit := fun h => Ok (tt, <[l := d]> h).

Definition update (l : loc) (f : DataFrame -> DataFrame) : M unit :=
  d ← read l; write l (f d).

(** [df.copy()] *)
Definition copy (df : loc) : M loc := d ← read df; alloc d.

(** [df.columns = f(df.columns)] *)
Definition set_columns (df : loc) (f : string -> string) : M unit :=
  update df (Pd.rename f).

(** [df.fillna(v)] *)
Definition fillna (df : loc) (v : cell) : M loc :=
  d ← read df; alloc (Pd.fillna v d).

(** [col in df.columns] *)
Definition has_column (df : loc) (col : string) : M bool :=
  d ← read df; mret (Pd.has_column col d).

(** [df[col]] *)
Definition getitem (df : loc) (col : string) : M Series :=
  d ← read df; lift (Pd.getitem col d).

(** [df[col] = s] *)
Definition setitem (df : loc) (col : string) (s : Series) : M unit :=
  update df (Pd.setitem col s).

(** [df[col] = v] *)
Definition setitem_scalar (df : loc) (col : string) (v : cell) : M unit :=
  update df (Pd.setitem_scalar col v).

(** [df.loc[mask, col] += delta] *)
Definition loc_add (df : loc) (mask : list bool) (col : string) (delta : Q) : M unit :=
  update df (Pd.loc_add mask col delta).

(** [for x in xs: body] *)
Fixpoint for_each {A} (xs : list A) (body : A -> M unit) : M unit :=
  match xs with
  | [] => mret tt
  | x :: rest => body x;; for_each rest body
  end.

Definition score_column (df : loc) (col : string) : M unit :=
  present ← has_column df col;
  if (present : bool) then
    s ← getitem df col;
    pos ← lift (Pd.str_contains ["Yes"; "Good"; "Excellent"] false false s);
    loc_add df pos "rating_score" (1 # 2);;
    s ← getitem df col;
    neg ← lift (Pd.str_contains ["No"; "Poor"; "Bad"] false false s);
    loc_add df neg "rating_score" (- (1 # 2))
  else mret tt.

Definition clean_lass_data (df : option loc) : M (option loc) :=
  match df with
  | None => mret None
  | Some df =>
      df ← copy df;
      set_columns df Text.strip;;
      df ← fillna df (CStr "Unknown");
      setitem_scalar df "rating_score" (CNum 3);;
      for_each service_columns (score_column df);;
      s ← getitem df "rating_score";
      setitem df "rating_score" (Pd.clip 1 5 s);;
      mret (Some df)
  end.

Section Coercion.

Variable parse_number : string -> option Q.
Variable parse_date : string -> option Z.
Variable number_of_date : Z -> option Q.
Variable date_of_number : Q -> option Z.

Definition clean_lep_data (df : option loc) : M (option loc) :=
  match df with
  | None => mret None
  | Some df =>
      df ← copy df;
      set_columns df Text.strip;;
      df ← fillna df (CStr "Unknown");
      present ← has_column df "LEP Population (Estimate)";
      (if (present : bool) then
         s ← getitem df "LEP Population (Estimate)";
         setitem df "LEP Population (Estimate)"
           (to_numeric parse_number number_of_date s)
       else mret tt);;
      mret (Some df)
  end.

(** sosi_app.py: [for col in cols: if col in df.columns:
    df[col] = pd.to_datetime(df[col], errors='coerce')] *)
Definition coerce_date (df : loc) (col : string) : M unit :=
  present ← has_column df col;
  if (present : bool) then
    s ← getitem df col;
    setitem df col (to_datetime parse_date date_of_number s)
  else mret tt.

Definition hist_date_columns : list string :=
  ["Request Date"; "Hearing Date"; "Row Added"].
Definition staging_date_cols : list string :=
  ["Date of request"; "Hearing Date"; "Timestamp"].

(** Trends tab: the date coercion of [hist_data]. *)
Definition coerce_hist_dates (hist_data : loc) : M unit :=
  for_each hist_date_columns (coerce_date hist_data).

(** Data Analysis tab: the date coercion of [staging_df]. *)
Definition coerce_staging_dates (staging_df : loc) : M unit :=
  for_each staging_date_cols (coerce_date staging_df).

End Coercion.

End Store.

(** ** Sample data *)

Module Sample.

(** A reader of unsigned integer literals, and readers that convert
    nothing, to run the model on the tables below. *)
Fixpoint digits_value (acc : Z) (s : string) : option Z :=
  match s with
  | EmptyString => Some acc
  | String a s' =>
      let n := Z.of_nat (nat_of_ascii a) in
      if (48 <=? n)%Z && (n <=? 57)%Z then digits_value (10 * acc + (n - 48)) s'
      else None
  end.

Definition read_integer (s : string) : option Q :=
  match s with
  | EmptyString => None
  | _ => inject_Z <$> digits_value 0 s
  end.

Definition no_date : string -> option Z := fun _ => None.
Definition no_number_of_date : Z -> option Q := fun _ => None.
Definition no_date_of_number : Q -> option Z := fun _ => None.

Definition guards_table : DataFrame :=
  [ ("Interaction with Security Guards", [CStr "Yes"; CStr "No"; CStr "Unknown"]) ].

Definition lass_table : DataFrame :=
  [ (" Agency", [CStr "DOE"; CStr "HRA"; CNaN]);
    ("Interaction with Reception Staff", [CStr "Not good"; CStr "excellent"; CNaN]);
    ("Interaction with Security Guards ", [CStr "yes"; CStr "Poor"; CStr "Yes"]) ].

Definition mixed_table : DataFrame :=
  [ ("Interaction with Reception Staff", [CStr "Not good"]);
    ("rating_score", [CNum 3]) ].

Definition lep_table : DataFrame :=
  [ ("Borough ", [CStr "Queens"; CStr "Bronx"; CNaN]);
    ("LEP Population (Estimate)", [CStr "1200"; CStr "n/a"; CNaN]) ].

Definition agencies_table : DataFrame :=
  [ ("Agency", [CStr "DOE"; CStr "HRA"]) ].

Definition boroughs_table : DataFrame :=
  [ ("Agency", [CStr "DOE"; CStr "HRA"; CStr "DOE"; CStr "NYPD"]);
    ("Borough", [CStr "Queens"; CStr "Kings"; CStr "Bronx"; CStr "Queens"]) ].

Definition staging_table : DataFrame :=
  [ ("Language", [CStr "Spanish"; CStr "Spanish"; CStr "Urdu"; CStr "Spanish"]);
    ("Hearing Date", [CStr "pending"; CStr "pending"; CStr "pending"; CStr "pending"]);
    ("Billable time", [CNum 10; CNaN; CNaN; CNum 20]) ].

Definition billable_table : DataFrame :=
  [ ("Language", [CStr "Spanish"; CStr "Spanish"; CStr "Urdu"; CStr "Spanish"]);
    ("Billable time (numeric)", [CNum 10; CNaN; CNaN; CNum 20]) ].

Definition eleven_table : DataFrame :=
  [ ("Language",
     [CStr "Arabic"; CStr "Bengali"; CStr "Chinese"; CStr "French"; CStr "Hindi";
      CStr "Italian"; CStr "Korean"; CStr "Polish"; CStr "Russian"; CStr "Spanish";
      CStr "Urdu"]);
    ("Billable time",
     [CNum 15; CNum 20; CNum 25; CNum 30; CNum 35;
      CNum 40; CNum 45; CNum 50; CNum 55; CNum 60; CNaN]) ].

(** A working directory in which every file exists but cannot be opened. *)
Definition broken_files (e : string) : string -> Loader.file :=
  fun _ => Loader.Unreadable e.

End Sample.

(** ** The score of one row *)

Module Score.

Definition positive (c : cell) : bool :=
  match c with
  | CStr t => Text.search ["Yes"; "Good"; "Excellent"] false t
  | _ => false
  end.

Definition negative (c : cell) : bool :=
  match c with
  | CStr t => Text.search ["No"; "Poor"; "Bad"] false t
  | _ => false
  end.

(** What one signal cell does to the running score of its row. *)
Definition adjust (c : cell) (q : Q) : Q :=
  let q1 := if positive c then fadd q (1 # 2) else q in
  if negative c then fadd q1 (- (1 # 2)) else q1.

(** The cell of row [i] in column [col], if the frame has both. *)
Definition signal_cell (col : string) (df : DataFrame) (i : nat) : option cell :=
  match Pd.getitem col df with
  | Ok s => s !! i
  | Raise _ => None
  end.

(** The score of row [i]: 3, adjusted by each signal cell in turn, then
    clipped to the scale. *)
Definition row_total (signals : list string) (df : DataFrame) (i : nat) : Q :=
  foldl (fun q col => match signal_cell col df i with
                      | Some c => adjust c q
                      | None => q
                      end) 3%Q signals.

Definition row_score (signals : list string) (df : DataFrame) (i : nat) : Q :=
  fclip 1 5 (row_total signals df i).

End Score.

(** ** app.py: key figures and counts *)

Module Kpi.

Definition present (c : cell) : bool := negb (Pd.isna c).

(** [s.nunique()] *)
Definition nunique (s : Series) : nat :=
  length (Pd.unique (Pd.dropna s)).

(** The number of cells of [s] equal to [k]. *)
Definition count (k : cell) (s : Series) : nat :=
  length (List.filter (fun c => bool_decide (c = k)) s).

Definition count_geb (a b : cell * nat) : bool := (b.2 <=? a.2)%nat.
Definition count_ge (a b : cell * nat) : Prop := count_geb a b = true.
Global Instance count_ge_dec a b : Decision (count_ge a b) :=
  decide (count_geb a b = true).

(** [s.value_counts()]: the distinct values of [s] that are not missing,
    each with its number of occurrences, the most frequent first; values
    with the same count come in the order in which they first appear. *)
Definition value_counts (s : Series) : list (cell * nat) :=
  sort_by count_ge
    (map (fun k => (k, count k s)) (Pd.unique (Pd.dropna s))).

(** "Total Agencies" and "Languages Supported": [None] stands for "N/A". *)
Definition total_distinct (col : string) (filtered_lass : DataFrame)
  : result (option nat) :=
  if negb (Aggregate.empty filtered_lass) then
    s ← Pd.getitem col filtered_lass;
    Ok (Some (nunique s))
  else Ok None.

Definition total_agencies := total_distinct "Agency".
Definition total_languages := total_distinct "Secret Shopper Language".

(** "Average Rating" *)
Definition avg_rating (filtered_lass : DataFrame) : result (option cell) :=
  if negb (Aggregate.empty filtered_lass) && Pd.has_column "rating_score" filtered_lass
  then
    s ← Pd.getitem "rating_score" filtered_lass;
    Ok (Some (Aggregate.nanmean s))
  else Ok None.

(** "Total Services" *)
Definition total_services (filtered_lass : DataFrame) : option nat :=
  if negb (Aggregate.empty filtered_lass) then Some (Pd.nrows filtered_lass)
  else None.

(** The counts behind a bar or pie chart: [None] when the chart gives way
    to a warning. *)
Definition counts_chart (col : string) (top : option nat) (filtered_lass : DataFrame)
  : result (option (list (cell * nat))) :=
  if negb (Aggregate.empty filtered_lass) && Pd.has_column col filtered_lass then
    s ← Pd.getitem col filtered_lass;
    Ok (Some (match top with
              | Some n => Aggregate.head n (value_counts s)
              | None => value_counts s
              end))
  else Ok None.

Definition agency_counts := counts_chart "Agency" (Some 10%nat).
Definition language_counts := counts_chart "Secret Shopper Language" (Some 10%nat).
Definition borough_counts := counts_chart "Borough" None.

End Kpi.

(** ** sosi_app.py: the linguist directory *)

Module Linguists.

(** The script stops with a pandas exception, or with [NameError] when it
    reads a variable that no statement has bound. *)
Inductive outcome (A : Type) : Type :=
| Done (a : A)
| NameError
| PandasError (e : exn).
Arguments Done {A} a.
Arguments NameError {A}.
Arguments PandasError {A} e.

(** [sorted(linguists_df[col].dropna().unique())]: the options of a select
    box, after "All". *)
Definition options (col : string) (linguists_df : DataFrame) : result (list cell) :=
  s ← Pd.getitem col linguists_df;
  Py.sorted (Pd.unique (Pd.dropna s)).

(** A select box is drawn, and its variable bound to what the user picked,
    only when the directory has the column; its options are computed
    first. *)
Definition selectbox (linguists_df : DataFrame) (col : string) (picked : cell)
  : result (option cell) :=
  if Pd.has_column col linguists_df then
    _ ← options col linguists_df;
    Ok (Some picked)
  else Ok None.

(** The directory has a column whose options can be sorted, or lacks it. *)
Definition sortable (col : string) (linguists_df : DataFrame) : bool :=
  match Pd.getitem col linguists_df with
  | Ok s => Py.comparable (Pd.unique (Pd.dropna s))
  | Raise _ => true
  end.

(** A pandas call inside the script. *)
Definition run {A B} (r : result A) (k : A -> outcome B) : outcome B :=
  match r with
  | Ok a => k a
  | Raise e => PandasError e
  end.

(** [s == v] *)
Definition eq_mask (v : cell) (s : Series) : list bool :=
  map (fun c => negb (Pd.isna c) && bool_decide (c = v)) s.

(** [if selected != "All": df = df[df[col] == selected]], then the rest. *)
Definition eq_step (col : string) (selected : option cell)
    (rest : DataFrame -> outcome DataFrame) (df : DataFrame) : outcome DataFrame :=
  match selected with
  | None => NameError
  | Some v =>
      if bool_decide (v ≠ CStr "All") then
        match Pd.getitem col df with
        | Ok s => rest (Filter.bool_index (eq_mask v s) df)
        | Raise e => PandasError e
        end
      else rest df
  end.

Definition filtered_linguists (linguists_df : DataFrame)
    (language state proficiency : cell) : outcome DataFrame :=
  run (selectbox linguists_df "Languages" language) (fun selected_ling_language =>
  run (selectbox linguists_df "State" state) (fun selected_state =>
  run (selectbox linguists_df "Proficiency" proficiency) (fun selected_prof =>
  eq_step "Languages" selected_ling_language
    (eq_step "State" selected_state
       (eq_step "Proficiency" selected_prof Done)) linguists_df))).

(** A record agrees with a selection when its cell equals the selected
    value, or when the selection is "All". *)
Definition agrees (col : string) (v : cell) (r : Filter.record) : bool :=
  if bool_decide (v ≠ CStr "All") then
    match Filter.field col r with
    | Some c => negb (Pd.isna c) && bool_decide (c = v)
    | None => true
    end
  else true.

Definition display_columns : list string :=
  ["Languages"; "first_name"; "last_name"; "State"; "Proficiency"; "Rate"].

(** [[col for col in display_columns if col in df.columns]] *)
Definition shown_columns (df : DataFrame) : list string :=
  List.filter (fun col => Pd.has_column col df) display_columns.

(** [df[cols]] for a list of labels *)
Fixpoint getitems (cols : list string) (df : DataFrame) : result DataFrame :=
  match cols with
  | [] => Ok []
  | col :: rest =>
      s ← Pd.getitem col df;
      t ← getitems rest df;
      Ok ((col, s) :: t)
  end.

(** The table of linguist details. *)
Definition linguist_details (filtered : DataFrame) : result DataFrame :=
  getitems (shown_columns filtered) filtered.

End Linguists.

(** ** sosi_app.py: the date coercion on a frame *)

Module Dates.

Section Readers.

Variable parse_date : string -> option Z.
Variable date_of_number : Q -> option Z.

(** What one iteration of the coercion loop makes of the frame. *)
Definition coerce_date (col : string) (df : DataFrame) : DataFrame :=
  if Pd.has_column col df then
    match Pd.getitem col df with
    | Ok s => Pd.setitem col (to_datetime parse_date date_of_number s) df
    | Raise _ => df
    end
  else df.

Definition coerce_dates (cols : list string) (df : DataFrame) : DataFrame :=
  foldl (fun d col => coerce_date col d) df cols.

End Readers.

End Dates.

(** ** More sample data *)

Module Sample2.

Definition numeric_guards_table : DataFrame :=
  [ ("Interaction with Security Guards", [CNum 1; CNum 0]) ].

Definition plain_table : DataFrame :=
  [ ("Agency", [CStr "DOE"; CStr "HRA"]); ("Borough", [CStr "Queens"; CNaN]) ].

Definition linguists_table : DataFrame :=
  [ ("Languages", [CStr "Spanish"; CStr "Urdu"; CStr "Spanish"]);
    ("State", [CStr "NY"; CStr "NJ"; CStr "NJ"]);
    ("Proficiency", [CStr "Native"; CStr "Fluent"; CNaN]);
    ("Rate", [CNum 40; CNum 35; CNum 45]) ].

Definition stateless_table : DataFrame :=
  [ ("Languages", [CStr "Spanish"]); ("Proficiency", [CStr "Native"]) ].

Definition languages_table : DataFrame :=
  [ ("Language", [CStr "Spanish"; CStr "Urdu"; CStr "Spanish"; CNaN; CStr "Bengali"]);
    ("LEP Population (Estimate)", [CNum 1200; CNum 300; CNaN; CNum 50; CNum 700]) ].

(** A cleaned table whose boroughs are codes, one of them missing in the
    file. *)
Definition coded_table : DataFrame :=
  [ ("Agency", [CStr "DOE"; CStr "HRA"; CStr "DOE"]);
    ("Borough", [CNum 1; CNum 2; CStr "Unknown"]) ].

Definition workbook : list (string * Loader.fetched) :=
  [ ("All Historical Data", Loader.Parsed Sample.staging_table);
    ("Summary", Loader.Parsed Sample.agencies_table) ].

End Sample2.

(** * Properties *)

(** ** The stable sort *)

Module SortFacts.

Section Sort.
Context {A : Type} (R : relation A) `{∀ x y, Decision (R x y)}.

Lemma insert_by_Permutation x l : insert_by R x l ≡ₚ x :: l.
Proof.
  induction l as [|y l IH]; simpl; [done|].
  case_decide; [done|]. rewrite IH. apply Permutation_swap.
Qed.

Lemma sort_by_Permutation l : sort_by R l ≡ₚ l.
Proof.
  induction l as [|x l IH]; simpl; [done|].
  by rewrite insert_by_Permutation, IH.
Qed.

Lemma elem_of_sort_by x l : x ∈ sort_by R l ↔ x ∈ l.
Proof. by rewrite sort_by_Permutation. Qed.

Lemma length_sort_by l : length (sort_by R l) = length l.
Proof. by rewrite sort_by_Permutation. Qed.

Lemma HdRel_insert_by a x l :
  R a x → HdRel R a l → HdRel R a (insert_by R x l).
Proof.
  intros Hax Hal. destruct l as [|y l]; simpl; [by constructor|].
  case_decide; constructor; [done|]. by inversion Hal.
Qed.

Lemma Sorted_insert_by `{!Total R} x l : Sorted R l → Sorted R (insert_by R x l).
Proof.
  induction 1 as [|y l Hl IH Hy]; simpl; [by repeat constructor|].
  case_decide as Hxy.
  - by repeat constructor.
  - constructor; [done|]. apply HdRel_insert_by; [|done].
    by destruct (total R x y).
Qed.

Lemma Sorted_sort_by `{!Total R} l : Sorted R (sort_by R l).
Proof.
  induction l as [|x l IH]; simpl; [constructor|]. by apply Sorted_insert_by.
Qed.

Lemma StronglySorted_sort_by `{!Total R, !Transitive R} l :
  StronglySorted R (sort_by R l).
Proof. apply Sorted_StronglySorted; [done|apply Sorted_sort_by]. Qed.

(** Sorting a sorted list changes nothing. *)
Lemma insert_by_HdRel x l : HdRel R x l → insert_by R x l = x :: l.
Proof. destruct 1; simpl; [done|]. by rewrite decide_True. Qed.

Lemma sort_by_sorted l : Sorted R l → sort_by R l = l.
Proof.
  induction 1 as [|x l _ IH Hx]; simpl; [done|].
  rewrite IH. by apply insert_by_HdRel.
Qed.

End Sort.

End SortFacts.

(** ** Text *)

Module TextFacts.
Import Text.

Lemma after_space_length s r :
  after_space s = Some r → (String.length r < String.length s)%nat.
Proof.
  destruct s as [|a [|b [|c s3]]]; simpl; [done| | |].
  - destruct (is_space a); [intros [= <-]; simpl; lia|done].
  - destruct (is_space a); [intros [= <-]; simpl; lia|].
    destruct (is_space2 a b); [intros [= <-]; simpl; lia|done].
  - destruct (is_space a); [intros [= <-]; simpl; lia|].
    destruct (is_space2 a b); [intros [= <-]; simpl; lia|].
    destruct (is_space3 a b c); [intros [= <-]; simpl; lia|done].
Qed.

Lemma lstrip_unfold s :
  lstrip s = match after_space s with Some r => lstrip r | None => s end.
Proof.
  destruct s as [|a [|b [|c s3]]]; simpl; [done| | |].
  - by destruct (is_space a).
  - destruct (is_space a); [done|]. by destruct (is_space2 a b).
  - destruct (is_space a); [done|]. destruct (is_space2 a b); [done|].
    by destruct (is_space3 a b c).
Qed.

Lemma after_space_lstrip s : after_space (lstrip s) = None.
Proof.
  remember (String.length s) as n eqn:Hn. revert s Hn.
  induction (lt_wf n) as [n _ IH]. intros s ->.
  rewrite lstrip_unfold. destruct (after_space s) as [r|] eqn:E; [|done].
  apply (IH (String.length r)); [by apply after_space_length|done].
Qed.

Lemma lstrip_fixed s : after_space s = None → lstrip s = s.
Proof. intros H. by rewrite lstrip_unfold, H. Qed.

Lemma after_space_app p r t :
  after_space p = Some r → after_space (p +:+ t) = Some (r +:+ t).
Proof.
  destruct p as [|a [|b [|c s3]]]; simpl; [done| | |].
  - destruct (is_space a); [by intros [= <-]|done].
  - destruct (is_space a); [by intros [= <-]|].
    destruct (is_space2 a b); [by intros [= <-]|done].
  - destruct (is_space a); [by intros [= <-]|].
    destruct (is_space2 a b); [by intros [= <-]|].
    destruct (is_space3 a b c); [by intros [= <-]|done].
Qed.

Lemma blank_app p t : blank p = true → blank t = true → blank (p +:+ t) = true.
Proof.
  remember (String.length p) as n eqn:Hn. revert p Hn.
  induction (lt_wf n) as [n _ IH]. intros p -> Hp Ht.
  destruct (after_space p) as [r|] eqn:E.
  - unfold blank in *. rewrite lstrip_unfold in Hp. rewrite E in Hp.
    rewrite lstrip_unfold, (after_space_app _ _ _ E).
    apply (IH (String.length r)); [by apply after_space_length|done|done|done].
  - unfold blank in Hp. rewrite (lstrip_fixed _ E) in Hp.
    by destruct p.
Qed.

Lemma rstrip_split s : ∃ t, s = rstrip s +:+ t ∧ blank t = true.
Proof.
  induction s as [|a s (t & IH & Ht)]; [by exists ""|].
  cbn [rstrip]. destruct (blank (String a s)) eqn:E.
  - by exists (String a s).
  - exists t. split; [|done]. change (String a s = String a (rstrip s +:+ t)). f_equal. exact IH.
Qed.

Lemma rstrip_idem s : rstrip (rstrip s) = rstrip s.
Proof.
  induction s as [|a s IH]; [done|].
  cbn [rstrip]. destruct (blank (String a s)) eqn:E; [done|].
  cbn [rstrip]. rewrite IH.
  destruct (blank (String a (rstrip s))) eqn:E'; [|done].
  destruct (rstrip_split s) as (t & Hs & Ht).
  rewrite Hs in E at 1.
  change (String a (rstrip s +:+ t)) with (String a (rstrip s) +:+ t) in E.
  by rewrite blank_app in E.
Qed.

Lemma after_space_rstrip s : after_space s = None → after_space (rstrip s) = None.
Proof.
  intros H. destruct (after_space (rstrip s)) as [r|] eqn:E; [|done].
  destruct (rstrip_split s) as (t & Hs & _).
  rewrite Hs, (after_space_app _ _ t E) in H. done.
Qed.

Lemma strip_idem s : strip (strip s) = strip s.
Proof.
  unfold strip.
  rewrite (lstrip_fixed (rstrip (lstrip s))), rstrip_idem; [done|].
  apply after_space_rstrip, after_space_lstrip.
Qed.

Example strip_sample : strip (" Borough" +:+ nl) = "Borough".
Proof. vm_compute. reflexivity. Qed.

(** A no-break space (U+00A0) before a label and an ideographic space
    (U+3000), a space and a narrow no-break space (U+202F) after it. *)
Example strip_unicode :
  strip (of_bytes [194; 160] +:+ "Agency"
         +:+ of_bytes [227; 128; 128; 32; 226; 128; 175])
  = "Agency".
Proof. vm_compute. reflexivity. Qed.

(** "ye" followed by a long s (U+017F) matches "Yes". *)
Example search_long_s :
  search ["Yes"] false ("ye" +:+ of_bytes [197; 191]) = true.
Proof. vm_compute. reflexivity. Qed.

Lemma unknown_has_no : search ["No"; "Poor"; "Bad"] false "Unknown" = true.
Proof. reflexivity. Qed.

End TextFacts.

(** ** Frames *)

Module PdFacts.
Import Pd.

Lemma has_column_true col df :
  has_column col df = true ↔ col ∈ columns df.
Proof. unfold has_column. by rewrite bool_decide_eq_true. Qed.

Lemma has_column_getitem col df :
  has_column col df = true → ∃ s, getitem col df = Ok s.
Proof.
  rewrite has_column_true. induction df as [|[c s] df IH]; simpl.
  - by intros ?%elem_of_nil.
  - intros [->|H]%elem_of_cons.
    + exists s. by rewrite decide_True.
    + case_decide; eauto.
Qed.

Lemma columns_overwrite col s df : columns (overwrite col s df) = columns df.
Proof.
  unfold columns, overwrite. rewrite map_map. apply map_ext.
  intros [c x]; simpl. by case_decide.
Qed.

Lemma has_column_overwrite c col s df :
  has_column c (overwrite col s df) = has_column c df.
Proof. unfold has_column. by rewrite columns_overwrite. Qed.

Lemma getitem_overwrite_eq col s df :
  has_column col df = true → getitem col (overwrite col s df) = Ok s.
Proof.
  rewrite has_column_true. induction df as [|[c x] df IH]; simpl.
  - by intros ?%elem_of_nil.
  - intros H. destruct (decide (c = col)) as [->|Hne]; simpl.
    + by rewrite decide_True.
    + rewrite decide_False by done. apply IH.
      apply elem_of_cons in H as [?|?]; [congruence|done].
Qed.

Lemma getitem_overwrite_ne c col s df :
  c ≠ col → getitem c (overwrite col s df) = getitem c df.
Proof.
  intros Hne. induction df as [|[c' x] df IH]; simpl; [done|].
  destruct (decide (c' = col)) as [->|?]; simpl.
  - rewrite decide_False by done. by rewrite decide_False by done.
  - case_decide; [done|]. apply IH.
Qed.

Lemma overwrite_overwrite col s s' df :
  overwrite col s (overwrite col s' df) = overwrite col s df.
Proof.
  unfold overwrite. rewrite map_map. apply map_ext.
  intros [c x]; simpl. destruct (decide (c = col)); simpl.
  - by rewrite decide_True.
  - by rewrite decide_False.
Qed.

Lemma loc_add_overwrite m col delta s df :
  loc_add m col delta (overwrite col s df) = overwrite col (add_where m delta s) df.
Proof.
  unfold loc_add, overwrite. rewrite map_map. apply map_ext.
  intros [c x]; simpl. destruct (decide (c = col)); simpl.
  - by rewrite decide_True.
  - by rewrite decide_False.
Qed.

Lemma setitem_overwrite col s s' df :
  has_column col df = true →
  setitem col s (overwrite col s' df) = overwrite col s df.
Proof.
  intros H. unfold setitem. rewrite has_column_overwrite, H.
  apply overwrite_overwrite.
Qed.

Lemma has_column_setitem col s df : has_column col (setitem col s df) = true.
Proof.
  unfold setitem. destruct (has_column col df) eqn:E.
  - by rewrite has_column_overwrite.
  - apply has_column_true. unfold columns. rewrite map_app. simpl.
    apply elem_of_app. right. by apply list_elem_of_singleton.
Qed.

Lemma overwrite_fresh col s df :
  has_column col df = false → overwrite col s df = df.
Proof.
  intros H. unfold overwrite. rewrite <- (map_id df) at 2. apply map_ext_in.
  intros [c x] Hin; simpl. case_decide; [|done]. subst.
  exfalso. apply eq_true_false_abs with (has_column col df); [|done].
  apply has_column_true. apply list_elem_of_In. apply in_map_iff.
  by exists (col, x).
Qed.

(** Writing a column that now exists writes it in place. *)
Lemma overwrite_setitem col s s' df :
  overwrite col s (setitem col s' df) = setitem col s df.
Proof.
  unfold setitem. destruct (has_column col df) eqn:E.
  - apply overwrite_overwrite.
  - unfold overwrite at 1. rewrite map_app. fold (overwrite col s df).
    rewrite overwrite_fresh by done. simpl. by rewrite decide_True.
Qed.

Lemma length_add_where m delta s : length (add_where m delta s) = length s.
Proof.
  revert m. induction s as [|c s IH]; intros m; simpl; [done|]. by rewrite IH.
Qed.

Lemma add_where_numbers m delta s :
  Forall is_number s → Forall is_number (add_where m delta s).
Proof.
  revert m. induction s as [|c s IH]; intros m Hs; simpl; [done|].
  inversion Hs as [|? ? [q ->] Hs']; subst. constructor; [|by apply IH].
  destruct m as [|[] ?]; by eexists.
Qed.

Lemma repeat_numbers q n : Forall is_number (repeat (CNum q) n).
Proof. induction n; simpl; constructor; [by eexists|done]. Qed.

End PdFacts.

(** ** The rating score *)

Module ScoreFacts.
Import Pd PdFacts.

Lemma fadd_swap q a b : fadd (fadd q a) b = fadd (fadd q b) a.
Proof.
  unfold fadd. apply Qred_complete. rewrite !Qred_correct. ring.
Qed.

Lemma add_where_comm m1 d1 m2 d2 s :
  add_where m1 d1 (add_where m2 d2 s) = add_where m2 d2 (add_where m1 d1 s).
Proof.
  revert m1 m2. induction s as [|c s IH]; intros m1 m2; simpl; [done|].
  rewrite IH. f_equal.
  destruct c; try done.
  destruct m1 as [|[] ?], m2 as [|[] ?]; simpl; try done.
  by rewrite fadd_swap.
Qed.

Lemma forallb_add_where (P : cell → bool) m delta s :
  (∀ q q', P (CNum q) = P (CNum q')) →
  forallb P (add_where m delta s) = forallb P s.
Proof.
  intros HP. revert m. induction s as [|c s IH]; intros m; simpl; [done|].
  rewrite IH. f_equal. destruct c; try done. destruct m as [|[] ?]; [done| |done].
  apply HP.
Qed.

Lemma object_dtype_add_where m delta s :
  object_dtype (add_where m delta s) = object_dtype s.
Proof.
  destruct s as [|c s]; [done|].
  change (object_dtype (c :: s))
    with (negb (forallb is_numeric (c :: s)) && negb (forallb is_datelike (c :: s))).
  rewrite <- (forallb_add_where is_numeric m delta (c :: s)) by done.
  rewrite <- (forallb_add_where is_datelike m delta (c :: s)) by done.
  done.
Qed.

Lemma str_contains_add_where alts case na m delta s :
  str_contains alts case na (add_where m delta s) = str_contains alts case na s.
Proof.
  unfold str_contains. rewrite object_dtype_add_where.
  destruct (object_dtype s); [|done]. f_equal.
  revert m. induction s as [|c s IH]; intros m; simpl; [done|].
  rewrite IH. f_equal. destruct c; try done. by destruct m as [|[] ?].
Qed.

Lemma columns_loc_add m col delta df : columns (loc_add m col delta df) = columns df.
Proof.
  unfold columns, loc_add. rewrite map_map. apply map_ext.
  intros [c x]; simpl. by case_decide.
Qed.

Lemma has_column_loc_add c m col delta df :
  has_column c (loc_add m col delta df) = has_column c df.
Proof. unfold has_column. by rewrite columns_loc_add. Qed.

Lemma getitem_loc_add c m col delta df :
  getitem c (loc_add m col delta df) =
  (if decide (c = col) then add_where m delta else id) <$> getitem c df.
Proof.
  induction df as [|[c' x] df IH]; simpl; [done|].
  destruct (decide (c' = col)) as [->|Hne]; simpl.
  - destruct (decide (col = c)) as [<-|?]; [by rewrite decide_True|done].
  - destruct (decide (c' = c)) as [->|?]; [by rewrite decide_False|done].
Qed.

Lemma loc_add_comm m1 d1 m2 d2 col df :
  loc_add m1 col d1 (loc_add m2 col d2 df) = loc_add m2 col d2 (loc_add m1 col d1 df).
Proof.
  unfold loc_add. rewrite !map_map. apply map_ext.
  intros [c x]; simpl. destruct (decide (c = col)); simpl.
  - rewrite !decide_True by done. by rewrite add_where_comm.
  - by rewrite !decide_False.
Qed.

Lemma str_contains_getitem_loc_add alts case na c m col delta df :
  (s ← getitem c (loc_add m col delta df); str_contains alts case na s) =
  (s ← getitem c df; str_contains alts case na s).
Proof.
  rewrite getitem_loc_add. destruct (getitem c df) as [s|e]; simpl; [|done].
  case_decide; [|done]. apply str_contains_add_where.
Qed.

Lemma score_column_masks col df :
  score_column col df = (m ← signal_masks col df; Ok (apply_masks m df)).
Proof.
  unfold score_column, signal_masks.
  destruct (has_column col df); [|done].
  destruct (getitem col df) as [s|e] eqn:Hs; simpl; [|done].
  destruct (str_contains ["Yes"; "Good"; "Excellent"] false false s) as [pos|e] eqn:Hpos;
    simpl; [|done].
  pose proof (str_contains_getitem_loc_add ["No"; "Poor"; "Bad"] false false
                col pos "rating_score" (1 # 2) df) as H.
  rewrite Hs in H. simpl in H.
  destruct (getitem col (loc_add pos "rating_score" (1 # 2) df)) as [s'|e'];
    simpl in *.
  - rewrite H. by destruct (str_contains ["No"; "Poor"; "Bad"] false false s).
  - rewrite <- H. done.
Qed.

Lemma signal_masks_loc_add col m delta df :
  signal_masks col (loc_add m "rating_score" delta df) = signal_masks col df.
Proof.
  unfold signal_masks. rewrite has_column_loc_add.
  destruct (has_column col df); [|done].
  rewrite getitem_loc_add. destruct (getitem col df) as [s|e]; simpl; [|done].
  case_decide; [|done]. by rewrite !str_contains_add_where.
Qed.

Lemma signal_masks_apply col m df :
  signal_masks col (apply_masks m df) = signal_masks col df.
Proof.
  destruct m as [[pos neg]|]; simpl; [|done].
  by rewrite !signal_masks_loc_add.
Qed.

Lemma apply_masks_comm m1 m2 df :
  apply_masks m1 (apply_masks m2 df) = apply_masks m2 (apply_masks m1 df).
Proof.
  destruct m1 as [[p1 n1]|], m2 as [[p2 n2]|]; simpl; try done.
  rewrite (loc_add_comm p1 _ n2). rewrite (loc_add_comm n1 _ n2).
  rewrite (loc_add_comm p1 _ p2). by rewrite (loc_add_comm n1 _ p2).
Qed.

(** The only exception of an iteration is the missing [.str] accessor. *)
Lemma signal_masks_raise col df e :
  signal_masks col df = Raise e → e = AttributeError.
Proof.
  unfold signal_masks. destruct (has_column col df) eqn:Hc; [|done].
  destruct (has_column_getitem _ _ Hc) as [s ->]. simpl.
  unfold str_contains. destruct (object_dtype s); simpl; [done|congruence].
Qed.

Lemma score_column_swap a b df :
  (d ← score_column a df; score_column b d) =
  (d ← score_column b df; score_column a d).
Proof.
  rewrite !score_column_masks.
  destruct (signal_masks a df) as [ma|ea] eqn:Ha,
           (signal_masks b df) as [mb|eb] eqn:Hb; simpl;
    rewrite ?score_column_masks, ?signal_masks_apply, ?Ha, ?Hb; simpl; try done.
  - by rewrite apply_masks_comm.
  - apply signal_masks_raise in Ha, Hb. congruence.
Qed.

Lemma score_columns_perm l l' :
  l ≡ₚ l' → ∀ df, score_columns l df = score_columns l' df.
Proof.
  induction 1 as [|x l l' _ IH|x y l|l l' l'' _ IH1 _ IH2]; intros df; simpl.
  - done.
  - destruct (score_column x df); simpl; [apply IH|done].
  - pose proof (score_column_swap y x df) as H.
    destruct (score_column y df) as [d1|e1], (score_column x df) as [d2|e2];
      simpl in *.
    + destruct (score_column x d1), (score_column y d2); simpl in *; congruence.
    + destruct (score_column x d1); simpl in *; congruence.
    + destruct (score_column y d2); simpl in *; congruence.
    + done.
  - by rewrite IH1.
Qed.

End ScoreFacts.

(** ** Cleaning *)

Module CleanFacts.
Import Pd PdFacts ScoreFacts.

Lemma apply_masks_overwrite m s df :
  ∃ s', apply_masks m (overwrite "rating_score" s df) = overwrite "rating_score" s' df
        ∧ length s' = length s
        ∧ (Forall is_number s → Forall is_number s').
Proof.
  destruct m as [[pos neg]|]; simpl.
  - rewrite !loc_add_overwrite. eexists. split; [done|].
    split; [by rewrite !length_add_where|].
    intros H. by do 2 apply add_where_numbers.
  - by exists s.
Qed.

Lemma score_columns_rated l : ∀ s df d,
  score_columns l (overwrite "rating_score" s df) = Ok d →
  ∃ s', d = overwrite "rating_score" s' df
        ∧ length s' = length s
        ∧ (Forall is_number s → Forall is_number s').
Proof.
  induction l as [|col l IH]; intros s df d; simpl.
  - intros [= <-]. by exists s.
  - rewrite score_column_masks.
    destruct (signal_masks col _) as [m|e]; simpl; [|done].
    destruct (apply_masks_overwrite m s df) as (s1 & -> & Hlen & Hnum).
    intros (s2 & -> & Hlen2 & Hnum2)%IH. exists s2.
    split; [done|]. split; [congruence|auto].
Qed.

Lemma nrows_rename f df : nrows (rename f df) = nrows df.
Proof. by destruct df as [|[c s] df]. Qed.

Lemma nrows_fillna v df : nrows (fillna v df) = nrows df.
Proof. destruct df as [|[c s] df]; simpl; [done|]. apply length_map. Qed.

Lemma nrows_overwrite col s df :
  length s = nrows df → nrows (overwrite col s df) = nrows df.
Proof. destruct df as [|[c x] df]; simpl; [done|]. by case_decide. Qed.

Lemma nrows_setitem col s df :
  length s = nrows df → nrows (setitem col s df) = nrows df.
Proof.
  intros H. unfold setitem. destruct (has_column col df).
  - by apply nrows_overwrite.
  - by destruct df as [|[c x] df].
Qed.

Lemma nrows_scoring_base df : nrows (scoring_base df) = nrows df.
Proof.
  unfold scoring_base, setitem_scalar.
  rewrite nrows_setitem by apply repeat_length.
  by rewrite nrows_fillna, nrows_rename.
Qed.

Lemma scoring_base_rated df :
  scoring_base df =
  overwrite "rating_score" (repeat (CNum 3) (nrows df)) (scoring_base df).
Proof.
  unfold scoring_base, setitem_scalar.
  by rewrite overwrite_setitem, nrows_fillna, nrows_rename.
Qed.

Lemma has_rating_scoring_base df :
  has_column "rating_score" (scoring_base df) = true.
Proof. apply has_column_setitem. Qed.

(** The shape of a cleaned table: the scoring base with its rating
    column replaced by the clipped scores. *)
Lemma clean_lass_with_shape signals df d1 :
  clean_lass_with signals df = Ok d1 →
  ∃ s, score_columns signals (scoring_base df)
         = Ok (overwrite "rating_score" s (scoring_base df))
       ∧ d1 = overwrite "rating_score" (clip 1 5 s) (scoring_base df)
       ∧ length s = nrows df
       ∧ Forall is_number s.
Proof.
  unfold clean_lass_with. fold (scoring_base df).
  destruct (score_columns signals (scoring_base df)) as [d|e] eqn:Hd; simpl; [|done].
  pose proof Hd as Hd'. rewrite scoring_base_rated in Hd'.
  apply score_columns_rated in Hd' as (s & -> & Hlen & Hnum).
  rewrite getitem_overwrite_eq by apply has_rating_scoring_base. simpl.
  rewrite setitem_overwrite by apply has_rating_scoring_base.
  intros [= <-]. exists s.
  split; [done|]. split; [done|].
  split; [by rewrite Hlen, repeat_length|]. apply Hnum, repeat_numbers.
Qed.

Lemma fclip_range q : (1 <= fclip 1 5 q)%Q ∧ (fclip 1 5 q <= 5)%Q.
Proof.
  unfold fclip. split.
  - apply Q.min_glb; [apply Q.le_max_r|done].
  - apply Q.le_min_r.
Qed.

Lemma clip_in_range s : Forall is_number s → Forall in_range (clip 1 5 s).
Proof.
  unfold clip. rewrite Forall_map. intros H. eapply Forall_impl; [exact H|].
  intros c [q ->]. exists (fclip 1 5 q). split; [done|]. apply fclip_range.
Qed.

Lemma clip_numbers s : Forall is_number s → Forall is_number (clip 1 5 s).
Proof.
  intros H%clip_in_range. eapply Forall_impl; [exact H|].
  intros c (q & -> & _). by exists q.
Qed.

(** *** The second pass starts from the same frame *)

Lemma rename_fixed f df :
  Forall (fun c => f c = c) (columns df) → rename f df = df.
Proof.
  unfold columns, rename. rewrite Forall_map. intros H.
  rewrite <- (map_id df) at 2. apply map_ext_Forall.
  eapply Forall_impl; [exact H|]. intros [c s] Hc. simpl in *. by rewrite Hc.
Qed.

Lemma columns_rename f df : columns (rename f df) = map f (columns df).
Proof. unfold columns, rename. by rewrite !map_map. Qed.

Lemma columns_fillna v df : columns (fillna v df) = columns df.
Proof. unfold columns, fillna. by rewrite map_map. Qed.

Lemma columns_setitem_fixed f col s df :
  f col = col → Forall (fun c => f c = c) (columns df) →
  Forall (fun c => f c = c) (columns (setitem col s df)).
Proof.
  intros Hcol H. unfold setitem. destruct (has_column col df).
  - by rewrite columns_overwrite.
  - unfold columns. rewrite map_app. apply Forall_app. split; [done|].
    by constructor.
Qed.

Lemma columns_scoring_base_fixed df :
  Forall (fun c => Text.strip c = c) (columns (scoring_base df)).
Proof.
  apply columns_setitem_fixed; [done|].
  rewrite columns_fillna, columns_rename, Forall_map.
  apply Forall_forall. intros c _. apply TextFacts.strip_idem.
Qed.

Lemma fillna_no_na v df : no_na df → fillna v df = df.
Proof.
  unfold no_na, fillna. intros H. rewrite <- (map_id df) at 2.
  apply map_ext_Forall. eapply Forall_impl; [exact H|].
  intros [c s] Hs. simpl in *. f_equal.
  rewrite <- (map_id s) at 2. apply map_ext_Forall.
  eapply Forall_impl; [exact Hs|]. intros x Hx. unfold fillna_cell. by rewrite Hx.
Qed.

Lemma no_na_fillna v df : isna v = false → no_na (fillna v df).
Proof.
  intros Hv. unfold no_na, fillna. rewrite Forall_map. apply Forall_forall.
  intros [c s] _. simpl. rewrite Forall_map. apply Forall_forall.
  intros x _. unfold fillna_cell. by destruct (isna x) eqn:E.
Qed.

Lemma no_na_overwrite col s df :
  Forall (fun c => isna c = false) s → no_na df → no_na (overwrite col s df).
Proof.
  intros Hs. unfold no_na, overwrite. rewrite Forall_map.
  intros H. eapply Forall_impl; [exact H|].
  intros [c x] Hx. simpl. by case_decide.
Qed.

Lemma no_na_setitem col s df :
  Forall (fun c => isna c = false) s → no_na df → no_na (setitem col s df).
Proof.
  intros Hs H. unfold setitem. destruct (has_column col df).
  - by apply no_na_overwrite.
  - apply Forall_app. split; [done|]. by constructor.
Qed.

Lemma numbers_not_na s : Forall is_number s → Forall (fun c => isna c = false) s.
Proof. intros H. eapply Forall_impl; [exact H|]. by intros c [q ->]. Qed.

Lemma no_na_scoring_base df : no_na (scoring_base df).
Proof.
  apply no_na_setitem; [apply numbers_not_na, repeat_numbers|].
  by apply no_na_fillna.
Qed.

Lemma scoring_base_cleaned s df :
  length s = nrows df → Forall is_number s →
  scoring_base (overwrite "rating_score" s (scoring_base df)) = scoring_base df.
Proof.
  intros Hlen Hnum. unfold scoring_base at 1.
  rewrite rename_fixed
    by (rewrite columns_overwrite; apply columns_scoring_base_fixed).
  rewrite fillna_no_na
    by (apply no_na_overwrite; [by apply numbers_not_na|apply no_na_scoring_base]).
  unfold setitem_scalar, setitem.
  rewrite has_column_overwrite, has_rating_scoring_base, overwrite_overwrite.
  rewrite nrows_overwrite by (by rewrite nrows_scoring_base).
  rewrite nrows_scoring_base. symmetry. apply scoring_base_rated.
Qed.

Lemma clean_lass_with_idem signals df d1 :
  clean_lass_with signals df = Ok d1 → clean_lass_with signals d1 = Ok d1.
Proof.
  intros H. destruct (clean_lass_with_shape _ _ _ H) as (s & Hs & -> & Hlen & Hnum).
  unfold clean_lass_with at 1.
  fold (scoring_base (overwrite "rating_score" (clip 1 5 s) (scoring_base df))).
  rewrite scoring_base_cleaned
    by first [by apply clip_numbers | by (unfold clip; rewrite length_map)].
  rewrite Hs. simpl.
  rewrite getitem_overwrite_eq by apply has_rating_scoring_base. simpl.
  by rewrite setitem_overwrite by apply has_rating_scoring_base.
Qed.

End CleanFacts.

Section LepFacts.
Import Pd PdFacts CleanFacts.

Variable parse_number : string -> option Q.
Variable number_of_date : Z -> option Q.

(** The sentinel is not a number. *)
Hypothesis unknown_not_number : parse_number "Unknown" = None.

Local Abbreviation to_num := (to_numeric parse_number number_of_date).
Local Abbreviation to_num_cell := (to_numeric_cell parse_number number_of_date).

Lemma to_numeric_cell_refill c :
  to_num_cell (fillna_cell (CStr "Unknown") (to_num_cell c)) = to_num_cell c.
Proof using unknown_not_number.
  destruct c as [t|q|d| |]; simpl; try done.
  - destruct (parse_number t); simpl; [done|]. by rewrite unknown_not_number.
  - destruct (number_of_date d); simpl; [done|]. by rewrite unknown_not_number.
  - by rewrite unknown_not_number.
  - by rewrite unknown_not_number.
Qed.

Lemma to_numeric_refill s :
  to_num (map (fillna_cell (CStr "Unknown")) (to_num s)) = to_num s.
Proof using unknown_not_number.
  unfold to_numeric. rewrite !map_map. apply map_ext.
  apply to_numeric_cell_refill.
Qed.

Lemma fillna_overwrite v col s df :
  fillna v (overwrite col s df) = overwrite col (map (fillna_cell v) s) (fillna v df).
Proof.
  unfold fillna, overwrite. rewrite !map_map. apply map_ext.
  intros [c x]; simpl. by case_decide.
Qed.

Lemma clean_lep_frame_idem df d1 :
  clean_lep_frame parse_number number_of_date df = Ok d1 →
  clean_lep_frame parse_number number_of_date d1 = Ok d1.
Proof using unknown_not_number.
  unfold clean_lep_frame.
  set (base := fillna (CStr "Unknown") (rename Text.strip df)).
  assert (Hfix : Forall (fun c => Text.strip c = c) (columns base)).
  { unfold base. rewrite columns_fillna, columns_rename, Forall_map.
    apply Forall_forall. intros c _. apply TextFacts.strip_idem. }
  assert (Hna : no_na base) by by apply no_na_fillna.
  destruct (has_column "LEP Population (Estimate)" base) eqn:Hc.
  - destruct (has_column_getitem _ _ Hc) as [s Hs]. rewrite Hs. simpl.
    assert (Hset : ∀ x, setitem "LEP Population (Estimate)" x base
                        = overwrite "LEP Population (Estimate)" x base)
      by (intros x; unfold setitem; by rewrite Hc).
    intros [= <-]. rewrite !Hset.
    rewrite rename_fixed by by rewrite columns_overwrite.
    rewrite fillna_overwrite, (fillna_no_na _ base) by done.
    rewrite has_column_overwrite, Hc.
    rewrite getitem_overwrite_eq by done. simpl.
    rewrite setitem_overwrite by done. by rewrite to_numeric_refill.
  - intros [= <-]. rewrite rename_fixed, fillna_no_na by done. by rewrite Hc.
Qed.

End LepFacts.

(** ** Filtering *)

Module FilterFacts.
Import Pd PdFacts Filter.

Lemma select_map {A B} (f : A → B) m s : select m (map f s) = map f (select m s).
Proof.
  revert s. induction m as [|b m IH]; intros [|x s]; simpl; try done.
  destruct b; simpl; by rewrite IH.
Qed.

Lemma select_zip_with {A B C} (f : A → B → C) m a b :
  select m (zip_with f a b) = zip_with f (select m a) (select m b).
Proof.
  revert a b. induction m as [|x m IH]; intros a b; [done|].
  destruct a as [|u a], b as [|v b]; simpl; try done.
  - destruct x; simpl; [done|]. by destruct (select m a).
  - destruct x; simpl; by rewrite IH.
Qed.

Lemma select_map_self {A} (p : A → bool) l : select (map p l) l = List.filter p l.
Proof. induction l as [|x l IH]; simpl; [done|]. destruct (p x); by rewrite IH. Qed.

Lemma length_select {A B} m (a : list A) (b : list B) :
  length a = length b → length (select m a) = length (select m b).
Proof.
  revert a b. induction m as [|x m IH]; intros [|u a] [|v b]; simpl; try done.
  intros [= H]. destruct x; simpl; by rewrite (IH a b).
Qed.

Lemma rows_bool_index m df : rows (bool_index m df) = select m (rows df).
Proof.
  induction df as [|[c s] df IH]; [by destruct m|].
  destruct df as [|cs df]; [apply (eq_sym (select_map _ _ _))|].
  change (zip_with (fun x r => (c, x) :: r) (select m s) (rows (bool_index m (cs :: df)))
          = select m (zip_with (fun x r => (c, x) :: r) s (rows (cs :: df)))).
  by rewrite IH, select_zip_with.
Qed.

Lemma columns_bool_index m df : columns (bool_index m df) = columns df.
Proof. unfold columns, bool_index. by rewrite map_map. Qed.

Lemma map_zip_with_l {A B C D} (f : A → B → C) (g : C → D) (h : A → D) a b :
  (length a ≤ length b)%nat → (∀ x y, g (f x y) = h x) →
  map g (zip_with f a b) = map h a.
Proof.
  intros Hlen Hg. revert b Hlen.
  induction a as [|x a IH]; intros [|y b] Hlen; simpl in *; try done; try lia.
  rewrite Hg, IH; [done|lia].
Qed.

Lemma map_zip_with_r {A B C D} (f : A → B → C) (g : C → D) (h : B → D) a b :
  (length b ≤ length a)%nat → (∀ x y, g (f x y) = h y) →
  map g (zip_with f a b) = map h b.
Proof.
  intros Hlen Hg. revert b Hlen.
  induction a as [|x a IH]; intros [|y b] Hlen; simpl in *; try done; try lia.
  rewrite Hg, IH; [done|lia].
Qed.

Lemma length_rows n df :
  df ≠ [] → Forall (fun cs => length cs.2 = n) df → length (rows df) = n.
Proof.
  induction df as [|[c s] df IH]; [done|]. intros _ H.
  pose proof (Forall_inv H) as Hs. pose proof (Forall_inv_tail H) as H'.
  simpl in Hs. subst n.
  destruct df as [|cs df]; [simpl; by rewrite length_map|].
  change (length (zip_with (fun x r => (c, x) :: r) s (rows (cs :: df))) = length s).
  rewrite length_zip_with, IH by done. lia.
Qed.

(** On a rectangular frame the column [col] lists the [col] field of the
    records. *)
Lemma field_rows n col df s :
  Forall (fun cs => length cs.2 = n) df → getitem col df = Ok s →
  map (field col) (rows df) = map Some s.
Proof.
  induction df as [|[c x] df IH]; [done|]. intros H.
  pose proof (Forall_inv H) as Hx. pose proof (Forall_inv_tail H) as H'.
  simpl in Hx. subst n.
  destruct df as [|cs df].
  - simpl. case_decide; [|done]. intros [= <-]. rewrite map_map. apply map_ext.
    intros v. simpl. by rewrite decide_True.
  - change (rows ((c, x) :: cs :: df))
      with (zip_with (fun v r => (c, v) :: r) x (rows (cs :: df))).
    pose proof (length_rows (length x) (cs :: df)) as Hlen.
    simpl getitem. destruct (decide (c = col)) as [->|Hne].
    + intros [= <-]. apply map_zip_with_l; [rewrite Hlen by done; lia|].
      intros v r. simpl. by rewrite decide_True.
    + intros Hs. rewrite <- (IH H' Hs). apply map_zip_with_r.
      * rewrite Hlen by done. lia.
      * intros v r. simpl. by rewrite decide_False.
Qed.

(** The records of a frame without the column [col] have no [col] field. *)
Lemma field_absent col df :
  has_column col df = false → Forall (fun r => field col r = None) (rows df).
Proof.
  induction df as [|[c x] df IH]; [by constructor|]. intros H.
  assert (c ≠ col ∧ has_column col df = false) as [Hne Hdf].
  { split.
    - intros ->. apply eq_true_false_abs with (has_column col ((col, x) :: df)); [|done].
      apply has_column_true. simpl. apply elem_of_cons. by left.
    - destruct (has_column col df) eqn:E; [|done]. exfalso.
      apply eq_true_false_abs with (has_column col ((c, x) :: df)); [|done].
      apply has_column_true. simpl. apply elem_of_cons. right.
      by apply has_column_true. }
  specialize (IH Hdf). destruct df as [|cs df].
  - simpl. rewrite Forall_map. apply Forall_forall. intros v _. simpl.
    by rewrite decide_False.
  - change (rows ((c, x) :: cs :: df))
      with (zip_with (fun v r => (c, v) :: r) x (rows (cs :: df))).
    revert IH. generalize (rows (cs :: df)). clear -Hne.
    induction x as [|v x IHx]; intros [|r R] HR; simpl; try by constructor.
    inversion HR; subst. constructor; [|by apply IHx].
    simpl. by rewrite decide_False.
Qed.

End FilterFacts.

Module FilterSteps.
Import Pd PdFacts Filter FilterFacts.

Lemma filter_all {A} (l : list A) : List.filter (fun _ => true) l = l.
Proof. induction l as [|x l IH]; simpl; by rewrite ?IH. Qed.

Lemma filter_twice {A} (p q : A → bool) l :
  List.filter p (List.filter q l) = List.filter (fun x => q x && p x) l.
Proof.
  induction l as [|x l IH]; simpl; [done|].
  destruct (q x); simpl; [|done]. destruct (p x); by rewrite IH.
Qed.

Lemma filter_sublist {A} (p : A → bool) l : List.filter p l `sublist_of` l.
Proof.
  induction l as [|x l IH]; simpl; [constructor|].
  destruct (p x); by constructor.
Qed.

Lemma length_select_le {A} m (s : list A) : (length (select m s) ≤ length s)%nat.
Proof.
  revert s. induction m as [|b m IH]; intros [|x s]; simpl; try lia.
  specialize (IH s). destruct b; simpl; lia.
Qed.

Lemma rectangular_bool_index m df : rectangular df → rectangular (bool_index m df).
Proof.
  unfold rectangular. destruct df as [|[c x] df]; [done|]. simpl.
  intros H. apply Forall_cons in H as [_ H]. constructor; [done|].
  unfold bool_index. rewrite Forall_map. eapply Forall_impl; [exact H|].
  intros [c' y] Hy. simpl in *. by apply length_select.
Qed.

Lemma nrows_bool_index m df : (nrows (bool_index m df) ≤ nrows df)%nat.
Proof. destruct df as [|[c x] df]; simpl; [done|]. apply length_select_le. Qed.

(** A column with an empty accepted list is filtered by nothing. *)
Lemma passes_unrestricted col r : passes (restricting [(col, [])]) r = true.
Proof. done. Qed.

Lemma filter_step_present col sel df s :
  rectangular df → getitem col df = Ok s →
  ∃ d, filter_step col sel df = Ok d
       ∧ rectangular d ∧ columns d = columns df ∧ (nrows d ≤ nrows df)%nat
       ∧ rows d = List.filter (passes (restricting [(col, sel)])) (rows df)
       ∧ (sel = [] → d = df).
Proof.
  intros Hrect Hs. unfold filter_step. destruct sel as [|v sel]; simpl.
  - exists df. by rewrite filter_all.
  - rewrite Hs. simpl. eexists. split; [done|].
    split; [by apply rectangular_bool_index|].
    split; [apply columns_bool_index|]. split; [apply nrows_bool_index|].
    split; [|done]. rewrite rows_bool_index, <- select_map_self. f_equal.
    unfold isin, passes. simpl.
    rewrite <- (map_map (field col)
      (fun o => match o with
                | Some c => bool_decide (c ∈ v :: sel)
                | None => true
                end && true)).
    rewrite (field_rows _ _ _ _ Hrect Hs), map_map. apply map_ext.
    intros c. by rewrite andb_true_r.
Qed.

Lemma filter_step_absent col sel df :
  has_column col df = false →
  filter_step col [] df = Ok df
  ∧ List.filter (passes (restricting [(col, sel)])) (rows df) = rows df.
Proof.
  intros H. split; [done|]. apply field_absent in H.
  rewrite <- (filter_all (rows df)) at 2. apply filter_ext_in.
  intros r Hr%list_elem_of_In. rewrite Forall_forall in H.
  unfold passes, restricting. simpl. destruct (truthy sel); simpl; [|done].
  by rewrite (H r Hr).
Qed.

Lemma getitem_no_column col df :
  has_column col df = false → getitem col df = Raise KeyError.
Proof.
  unfold has_column. intros H%bool_decide_eq_false.
  induction df as [|[c s] df IH]; simpl; [done|].
  rewrite decide_False.
  - apply IH. intros Hin. apply H. simpl. by right.
  - intros ->. apply H. simpl. by left.
Qed.

(** A sidebar widget hands over its selection when its options can be
    sorted, and stops the script with [TypeError] when they cannot. *)
Lemma sidebar_selection_outcome lass col picked :
  sidebar_selection (Some lass) col picked
  = if sortable col lass
    then Ok (if has_column col lass then picked else [])
    else Raise TypeError.
Proof.
  unfold sidebar_selection, sortable, options.
  destruct (has_column col lass) eqn:Hc.
  - destruct (has_column_getitem _ _ Hc) as [s ->]. simpl.
    unfold Py.sorted. by destruct (Py.comparable (unique s)).
  - by rewrite (getitem_no_column _ _ Hc).
Qed.

Lemma dashboard_filter_cases d agencies boroughs languages :
  dashboard_filter (Some d) agencies boroughs languages
  = if sortable_columns d
    then filtered_lass (Some d)
           (if has_column "Agency" d then agencies else [])
           (if has_column "Borough" d then boroughs else [])
           (if has_column "Secret Shopper Language" d then languages else [])
    else Raise TypeError.
Proof.
  unfold dashboard_filter, sortable_columns.
  rewrite !sidebar_selection_outcome. simpl.
  destruct (sortable "Agency" d); [|done].
  destruct (sortable "Borough" d); [|done].
  by destruct (sortable "Secret Shopper Language" d).
Qed.

(** One sidebar filter, on the frame [f] filtered so far. *)
Lemma sidebar_step lass col picked f :
  rectangular f → columns f = columns lass →
  ∃ d, filter_step col (if has_column col lass then picked else []) f = Ok d
       ∧ rectangular d ∧ columns d = columns lass ∧ (nrows d ≤ nrows f)%nat
       ∧ rows d = List.filter (passes (restricting [(col, picked)])) (rows f)
       ∧ (picked = [] → d = f).
Proof.
  intros Hrect Hcols.
  assert (has_column col lass = has_column col f) as ->
    by (unfold has_column; by rewrite Hcols).
  destruct (has_column col f) eqn:Hc.
  - destruct (has_column_getitem _ _ Hc) as [s Hs].
    destruct (filter_step_present col picked f s Hrect Hs)
      as (d & ? & ? & ? & ? & ? & ?).
    exists d. repeat split; try done. congruence.
  - destruct (filter_step_absent col picked f Hc) as [-> Hrows].
    exists f. by rewrite Hrows.
Qed.

Lemma passes_three e1 e2 e3 r :
  passes (restricting [e1]) r && passes (restricting [e2]) r
    && passes (restricting [e3]) r
  = passes (restricting [e1; e2; e3]) r.
Proof.
  unfold passes, restricting. simpl.
  destruct (truthy e1.2), (truthy e2.2), (truthy e3.2); simpl;
    rewrite ?andb_true_r; try done.
  by rewrite andb_assoc.
Qed.

End FilterSteps.

(** ** Tables in the store *)

Module StoreFacts.

Lemma update_run l f (h : Store.heap) d :
  h !! l = Some d → Store.update l f h = Ok (tt, <[l := f d]> h).
Proof.
  intros H. unfold Store.update, Store.read, Store.write, mbind, Store.M_bind.
  by rewrite H.
Qed.

Lemma getitem_run l col (h : Store.heap) d :
  h !! l = Some d →
  Store.getitem l col h = match Pd.getitem col d with
                          | Ok s => Ok (s, h)
                          | Raise e => Raise e
                          end.
Proof.
  intros H. unfold Store.getitem, Store.read, Store.lift, mbind, Store.M_bind.
  by rewrite H.
Qed.

Lemma has_column_run l col (h : Store.heap) d :
  h !! l = Some d → Store.has_column l col h = Ok (Pd.has_column col d, h).
Proof.
  intros H. unfold Store.has_column, Store.read, mbind, Store.M_bind.
  by rewrite H.
Qed.

Lemma lookup_written l (h : Store.heap) d d' :
  h !! l = Some d → <[l := d']> h !! l = Some d'.
Proof. intros H. apply list_lookup_insert_eq. by eapply lookup_lt_Some. Qed.

Lemma bind_run {A B} (m : Store.M A) (k : A → Store.M B) (h : Store.heap) :
  (m ≫= k) h = match m h with
               | Ok (a, h') => k a h'
               | Raise e => Raise e
               end.
Proof. done. Qed.

Lemma lift_run {A} (r : result A) (h : Store.heap) :
  Store.lift r h = match r with Ok a => Ok (a, h) | Raise e => Raise e end.
Proof. done. Qed.

(** One iteration of the scoring loop writes the frame it is run on with
    what the pure iteration computes. *)
Lemma score_column_run l col (h : Store.heap) d :
  h !! l = Some d →
  Store.score_column l col h = match score_column col d with
                               | Ok d' => Ok (tt, <[l := d']> h)
                               | Raise e => Raise e
                               end.
Proof.
  intros H. unfold Store.score_column, score_column.
  rewrite bind_run, (has_column_run _ _ _ _ H).
  destruct (Pd.has_column col d).
  - rewrite bind_run, (getitem_run _ _ _ _ H).
    destruct (Pd.getitem col d) as [s|e]; [|done].
    rewrite bind_run, lift_run.
    change (Ok s ≫= ?k) with (k s). cbv beta.
    destruct (Pd.str_contains _ false false s) as [pos|e]; [|done].
    change (Ok pos ≫= ?k) with (k pos). cbv beta.
    rewrite bind_run. unfold Store.loc_add at 1. rewrite (update_run _ _ _ _ H).
    pose proof (lookup_written l h d
      (Pd.loc_add pos "rating_score" (1 # 2) d) H) as H1.
    rewrite bind_run, (getitem_run _ _ _ _ H1).
    destruct (Pd.getitem col _) as [s'|e]; [|done].
    change (Ok s' ≫= ?k) with (k s'). cbv beta.
    rewrite bind_run, lift_run.
    destruct (Pd.str_contains _ false false s') as [neg|e]; [|done].
    change (Ok neg ≫= ?k) with (k neg). cbv beta.
    unfold Store.loc_add. rewrite (update_run _ _ _ _ H1).
    by rewrite list_insert_insert_eq.
  - unfold mret, Store.M_ret. by rewrite list_insert_id.
Qed.

Lemma for_each_score_run l cols : ∀ (h : Store.heap) d,
  h !! l = Some d →
  Store.for_each cols (Store.score_column l) h =
  match score_columns cols d with
  | Ok d' => Ok (tt, <[l := d']> h)
  | Raise e => Raise e
  end.
Proof.
  induction cols as [|col cols IH]; intros h d H; simpl.
  - unfold mret, Store.M_ret. by rewrite list_insert_id.
  - rewrite bind_run, (score_column_run _ _ _ _ H).
    destruct (score_column col d) as [d1|e]; [|done].
    change (Ok d1 ≫= ?k) with (k d1). cbv beta.
    rewrite (IH _ d1) by by eapply lookup_written.
    destruct (score_columns cols d1); [|done]. by rewrite list_insert_insert_eq.
Qed.

Lemma lookup_last1 {A} (h : list A) a : (h ++ [a]) !! length h = Some a.
Proof. induction h; simpl; auto. Qed.

Lemma insert_last1 {A} (h : list A) a c : <[length h := c]> (h ++ [a]) = h ++ [c].
Proof. induction h; simpl; [done|]. by f_equal. Qed.

Lemma lookup_last2 {A} (h : list A) a b : (h ++ [a; b]) !! S (length h) = Some b.
Proof. induction h; simpl; auto. Qed.

Lemma insert_last2 {A} (h : list A) a b c :
  <[S (length h) := c]> (h ++ [a; b]) = h ++ [a; c].
Proof. induction h; simpl; [done|]. by f_equal. Qed.

Lemma copy_run l (h : Store.heap) d :
  h !! l = Some d → Store.copy l h = Ok (length h, h ++ [d]).
Proof.
  intros H. unfold Store.copy, Store.read, Store.alloc, mbind, Store.M_bind.
  by rewrite H.
Qed.

Lemma fillna_run l v (h : Store.heap) d :
  h !! l = Some d → Store.fillna l v h = Ok (length h, h ++ [Pd.fillna v d]).
Proof.
  intros H. unfold Store.fillna, Store.read, Store.alloc, mbind, Store.M_bind.
  by rewrite H.
Qed.

(** The frames of the store after the first two steps of a cleaning
    function: the copy with trimmed labels, then the filled frame. *)
Lemma clean_prefix_run {A} l (h : Store.heap) d (k : Store.loc → Store.M A) :
  h !! l = Some d →
  (df ← Store.copy l; Store.set_columns df Text.strip;;
   df ← Store.fillna df (CStr "Unknown"); k df) h
  = k (S (length h))
      (h ++ [Pd.rename Text.strip d;
             Pd.fillna (CStr "Unknown") (Pd.rename Text.strip d)]).
Proof.
  intros H. rewrite bind_run, (copy_run _ _ _ H).
  rewrite bind_run. unfold Store.set_columns.
  rewrite (update_run _ _ _ _ (lookup_last1 h d)), insert_last1.
  rewrite bind_run, (fillna_run _ _ _ _ (lookup_last1 h _)).
  by rewrite length_app, Nat.add_1_r, <- app_assoc.
Qed.

Lemma clean_lass_data_run l (h : Store.heap) d :
  h !! l = Some d →
  Store.clean_lass_data (Some l) h =
  match clean_lass_with service_columns d with
  | Ok d' => Ok (Some (S (length h)), h ++ [Pd.rename Text.strip d; d'])
  | Raise e => Raise e
  end.
Proof.
  intros H. unfold Store.clean_lass_data. rewrite (clean_prefix_run _ _ _ _ H).
  rewrite bind_run. unfold Store.setitem_scalar.
  rewrite (update_run _ _ _ _ (lookup_last2 h _ _)), insert_last2.
  fold (scoring_base d).
  rewrite bind_run, (for_each_score_run _ _ _ _ (lookup_last2 h _ _)).
  unfold clean_lass_with. fold (scoring_base d).
  destruct (score_columns service_columns (scoring_base d)) as [d4|e]; [|done].
  change (Ok d4 ≫= ?k) with (k d4). cbv beta.
  rewrite insert_last2.
  rewrite bind_run, (getitem_run _ _ _ _ (lookup_last2 h _ _)).
  destruct (Pd.getitem "rating_score" d4) as [s|e]; [|done].
  change (Ok s ≫= ?k) with (k s). cbv beta.
  rewrite bind_run. unfold Store.setitem.
  rewrite (update_run _ _ _ _ (lookup_last2 h _ _)).
  by rewrite insert_last2.
Qed.

Lemma clean_lep_data_run pn nd l (h : Store.heap) d :
  h !! l = Some d →
  Store.clean_lep_data pn nd (Some l) h =
  match clean_lep_frame pn nd d with
  | Ok d' => Ok (Some (S (length h)), h ++ [Pd.rename Text.strip d; d'])
  | Raise e => Raise e
  end.
Proof.
  intros H. unfold Store.clean_lep_data. rewrite (clean_prefix_run _ _ _ _ H).
  unfold clean_lep_frame.
  set (base := Pd.fillna (CStr "Unknown") (Pd.rename Text.strip d)).
  rewrite bind_run, (has_column_run _ _ _ _ (lookup_last2 h _ _)).
  destruct (Pd.has_column "LEP Population (Estimate)" base).
  - rewrite !bind_run, (getitem_run _ _ _ _ (lookup_last2 h _ _)).
    destruct (Pd.getitem "LEP Population (Estimate)" base) as [s|e]; [|done].
    change (Ok s ≫= ?k) with (k s). cbv beta.
    unfold Store.setitem. rewrite (update_run _ _ _ _ (lookup_last2 h _ _)).
    by rewrite insert_last2.
  - done.
Qed.

(** X19. [clean_lass_data] leaves every frame of the store as it was and
    returns a reference that did not exist before the call; the frame at
    that reference is the cleaned table. *)
Lemma clean_lass_data_frame l (h : Store.heap) d r h' :
  h !! l = Some d → Store.clean_lass_data (Some l) h = Ok (r, h') →
  (∀ k x, h !! k = Some x → h' !! k = Some x)
  ∧ ∃ l' d', r = Some l' ∧ h !! l' = None ∧ h' !! l' = Some d'
             ∧ clean_lass_data (Some d) = Ok (Some d').
Proof.
  intros H. rewrite (clean_lass_data_run _ _ _ H). unfold clean_lass_data.
  destruct (clean_lass_with service_columns d) as [d'|e]; [|done].
  intros [= <- <-]. split.
  - intros k x Hk. by apply lookup_app_l_Some.
  - exists (S (length h)), d'. split; [done|]. split; [|split; [|done]].
    + apply lookup_ge_None. lia.
    + apply lookup_last2.
Qed.

(** X20. [clean_lep_data] leaves every frame of the store as it was and
    returns a reference that did not exist before the call; the frame at
    that reference is the cleaned table. *)
Lemma clean_lep_data_frame pn nd l (h : Store.heap) d r h' :
  h !! l = Some d → Store.clean_lep_data pn nd (Some l) h = Ok (r, h') →
  (∀ k x, h !! k = Some x → h' !! k = Some x)
  ∧ ∃ l' d', r = Some l' ∧ h !! l' = None ∧ h' !! l' = Some d'
             ∧ clean_lep_data pn nd (Some d) = Ok (Some d').
Proof.
  intros H. rewrite (clean_lep_data_run _ _ _ _ _ H). unfold clean_lep_data.
  destruct (clean_lep_frame pn nd d) as [d'|e]; [|done].
  intros [= <- <-]. split.
  - intros k x Hk. by apply lookup_app_l_Some.
  - exists (S (length h)), d'. split; [done|]. split; [|split; [|done]].
    + apply lookup_ge_None. lia.
    + apply lookup_last2.
Qed.

End StoreFacts.

(** ** Aggregation *)

Module AggregateFacts.
Import Pd Aggregate.

Lemma elem_of_unique x s : x ∈ unique s ↔ x ∈ s.
Proof. unfold unique. by rewrite elem_of_reverse, elem_of_remove_dups, elem_of_reverse. Qed.

Lemma NoDup_unique s : NoDup (unique s).
Proof. unfold unique. rewrite reverse_Permutation. apply NoDup_remove_dups. Qed.

Lemma elem_of_dropna x s : x ∈ dropna s ↔ x ∈ s ∧ isna x = false.
Proof.
  unfold dropna. rewrite list_elem_of_In, filter_In, <- list_elem_of_In.
  by rewrite negb_true_iff.
Qed.

Lemma elem_of_group_keys k ks : k ∈ group_keys ks ↔ k ∈ ks ∧ isna k = false.
Proof.
  unfold group_keys.
  by rewrite SortFacts.elem_of_sort_by, elem_of_unique, elem_of_dropna.
Qed.

Lemma NoDup_group_keys ks : NoDup (group_keys ks).
Proof.
  unfold group_keys. rewrite SortFacts.sort_by_Permutation. apply NoDup_unique.
Qed.

Lemma numbers_present vs :
  numbers (List.filter (fun c => negb (isna c)) vs) = numbers vs.
Proof.
  unfold numbers. induction vs as [|c vs IH]; [done|].
  destruct c; csimpl; by rewrite ?IH.
Qed.

Lemma nansum_present vs : nansum (List.filter (fun c => negb (isna c)) vs) = nansum vs.
Proof. unfold nansum. by rewrite numbers_present. Qed.

Lemma nanmean_present vs : nanmean (List.filter (fun c => negb (isna c)) vs) = nanmean vs.
Proof. unfold nanmean. by rewrite numbers_present. Qed.

Lemma groupby_lookup agg key metric df ks vs k :
  getitem key df = Ok ks → getitem metric df = Ok vs →
  k ∈ ks → isna k = false →
  ∃ r, groupby agg key metric df = Ok r
       ∧ (k, agg (group_values k ks vs)) ∈ r
       ∧ map fst r = group_keys ks.
Proof.
  intros Hk Hv Hin Hna. unfold groupby. rewrite Hk, Hv. simpl.
  eexists. split; [done|]. split.
  - apply list_elem_of_In, in_map_iff. exists k. split; [done|].
    apply list_elem_of_In, elem_of_group_keys. done.
  - rewrite map_map. simpl. apply map_id.
Qed.

Lemma elem_of_sort_values_desc x r : x ∈ sort_values_desc r ↔ x ∈ r.
Proof. unfold sort_values_desc. apply SortFacts.elem_of_sort_by. Qed.

Lemma Qle_bool_total x y : Qle_bool x y = true ∨ Qle_bool y x = true.
Proof.
  destruct (Qlt_le_dec x y) as [H|H].
  - left. by apply Qle_bool_iff, Qlt_le_weak.
  - right. by apply Qle_bool_iff.
Qed.

Global Instance cell_le_total : Total Py.le.
Proof.
  intros a b. unfold Py.le.
  destruct a as [s|x|d| |], b as [t|y|e| |]; simpl; auto.
  - apply String.leb_total.
  - apply Qle_bool_total.
  - destruct (Z.leb_spec d e); [by left|right]. apply Z.leb_le. lia.
Qed.

Global Instance value_ge_total : Total value_ge.
Proof.
  intros [k1 v1] [k2 v2]. unfold value_ge, value_geb. simpl.
  destruct v1, v2; auto. apply Qle_bool_total.
Qed.

Global Instance value_ge_trans : Transitive value_ge.
Proof.
  intros [k1 v1] [k2 v2] [k3 v3]. unfold value_ge, value_geb. simpl.
  destruct v1, v2, v3; try done.
  rewrite !Qle_bool_iff. intros H1 H2. eapply Qle_trans; eauto.
Qed.

(** In a ranking the entries with a value come first, those without
    after them. *)
Lemma ranking_split (l : list (cell * cell)) :
  StronglySorted value_ge l →
  l = List.filter has_value l ++ List.filter (fun e => negb (has_value e)) l.
Proof.
  induction 1 as [|x l _ IH Hx]; [done|]. simpl.
  destruct (has_value x) eqn:Ex; simpl; [by rewrite <- IH|].
  assert (Hnone : List.filter has_value l = []).
  { clear IH. induction l as [|y l IHl]; [done|]. simpl.
    apply Forall_cons in Hx as [Hxy Hx].
    destruct (has_value y) eqn:Ey; [|by apply IHl].
    exfalso. revert Hxy Ex Ey. unfold value_ge, value_geb, has_value.
    by destruct x.2, y.2. }
  rewrite Hnone in IH |- *. simpl in *. by rewrite <- IH.
Qed.

Lemma length_filter_Permutation {A} (p : A → bool) (l k : list A) :
  l ≡ₚ k → length (List.filter p l) = length (List.filter p k).
Proof.
  induction 1 as [|x l k _ IH|x y l|l k m _ IH1 _ IH2]; simpl.
  - done.
  - destruct (p x); simpl; by rewrite IH.
  - by destruct (p x), (p y).
  - by rewrite IH1.
Qed.

(** What a ranking cut after its first [n] entries shows. *)
Lemma ranking_head n (r : list (cell * cell)) :
  let ranked := sort_values_desc r in
  let found := List.filter has_value ranked in
  let lost := List.filter (fun e => negb (has_value e)) ranked in
  ranked = found ++ lost
  ∧ length found = length (List.filter has_value r)
  ∧ ((length r ≤ n)%nat → head n ranked = ranked)
  ∧ ((n ≤ length (List.filter has_value r))%nat →
     Forall (fun e => has_value e = true) (head n ranked)).
Proof.
  intros ranked found lost.
  assert (Hsplit : ranked = found ++ lost).
  { apply ranking_split. apply SortFacts.StronglySorted_sort_by; apply _. }
  assert (Hlen : length found = length (List.filter has_value r))
    by apply length_filter_Permutation, SortFacts.sort_by_Permutation.
  split; [done|]. split; [done|]. split.
  - intros Hle. unfold head. apply take_ge.
    unfold ranked, sort_values_desc. by rewrite SortFacts.length_sort_by.
  - intros Hge. unfold head. rewrite Hsplit, take_app_le by lia.
    apply Forall_take, Forall_forall. intros e He%list_elem_of_In.
    by apply filter_In in He as [_ ?].
Qed.

Example mean_of_three : nanmean [CNum 10; CNaN; CNum 20] = CNum 15.
Proof. reflexivity. Qed.

End AggregateFacts.

(** ** Loading *)

Module SheetFacts.
Import Loader.

Lemma read_sheets_outcome sheets :
  (∃ d, read_sheets sheets = inr d
        ∧ map (fun nd => (nd.1, Parsed nd.2)) d = sheets)
  ∨ (∃ e name, read_sheets sheets = inl e ∧ (name, Failed e) ∈ sheets).
Proof.
  induction sheets as [|[name [df|e]] sheets IH]; simpl.
  - left. by exists [].
  - destruct IH as [(d & -> & Hd)|(e & n & -> & Hin)].
    + left. exists ((name, df) :: d). simpl. by rewrite Hd.
    + right. exists e, n. split; [done|]. by right.
  - right. exists e, name. split; [done|]. by left.
Qed.

Lemma read_sheets_parsed sheets :
  (∃ d, read_sheets sheets = inr d)
  ↔ Forall (fun ns => ∃ df, ns.2 = Parsed df) sheets.
Proof.
  destruct (read_sheets_outcome sheets) as [(d & Hd & <-)|(e & name & He & Hin)].
  - split; [|by exists d]. intros _. rewrite Forall_map. apply Forall_forall.
    intros [n df] _. by exists df.
  - split; [intros [d Hd]; congruence|]. intros Hall.
    rewrite Forall_forall in Hall. by destruct (Hall _ Hin) as [df [=]].
Qed.

(** An entry is filled exactly when the file was read. *)
Lemma load_entry_was_read key f : load_entry key f ≠ None ↔ was_read key f.
Proof.
  unfold load_entry, try_load, was_read. destruct f as [|e|sheets]; [done|done|].
  case_decide.
  - rewrite <- read_sheets_parsed. destruct (read_sheets sheets) as [e|d].
    + split; [done|]. by intros [d [=]].
    + split; [by exists d|done].
  - destruct sheets as [|[name [df|e]] rest].
    + split; [done|]. by intros (? & ? & ? & [=]).
    + split; [by exists name, df, rest|done].
    + split; [done|]. by intros (? & ? & ? & [=]).
Qed.

End SheetFacts.

Module TotalFacts.
Import Pd PdFacts ScoreFacts CleanFacts.

Lemma score_columns_total l : ∀ d X,
  (∀ col, signal_masks col d = signal_masks col X) →
  (∀ col, col ∈ l → ∃ m, signal_masks col X = Ok m) →
  ∃ d', score_columns l d = Ok d'.
Proof.
  induction l as [|c l IH]; intros d X Hsame Hok; simpl; [by eexists|].
  rewrite score_column_masks, Hsame.
  destruct (Hok c) as [m ->]; [by left|]. simpl.
  apply (IH _ X).
  - intros col. by rewrite signal_masks_apply.
  - intros col Hcol. apply Hok. by right.
Qed.

(** X18. Cleaning a table whose trimmed labels are distinct returns a table
    whenever each signal column that the table has holds text (is an object
    column) after trimming and filling. *)
Lemma clean_lass_with_total signals df :
  unique_labels (rename Text.strip df) →
  (∀ col s, col ∈ signals → getitem col (scoring_base df) = Ok s →
            object_dtype s = true) →
  ∃ d, clean_lass_with signals df = Ok d.
Proof.
  intros _ Hobj. unfold clean_lass_with. fold (scoring_base df).
  destruct (score_columns_total signals (scoring_base df) (scoring_base df))
    as [d Hd]; [done| |].
  - intros col Hcol. unfold signal_masks.
    destruct (has_column col (scoring_base df)) eqn:Hc; [|by eexists].
    destruct (has_column_getitem _ _ Hc) as [s Hs]. rewrite Hs. simpl.
    unfold str_contains. rewrite (Hobj col s Hcol Hs). simpl. by eexists.
  - rewrite Hd. simpl. pose proof Hd as Hd'.
    rewrite scoring_base_rated in Hd'.
    apply score_columns_rated in Hd' as (s & -> & _).
    rewrite getitem_overwrite_eq by apply has_rating_scoring_base.
    by eexists.
Qed.

End TotalFacts.

Module BothFacts.
Import Pd PdFacts ScoreFacts.

Lemma lookup_add_where m delta s : ∀ i q,
  s !! i = Some (CNum q) → m !! i = Some true →
  add_where m delta s !! i = Some (CNum (fadd q delta)).
Proof.
  revert m. induction s as [|c s IH]; intros m i q Hs Hm; [done|].
  destruct m as [|b m]; [done|]. destruct i as [|i]; simpl in *.
  - by injection Hs as ->; injection Hm as ->.
  - by apply IH.
Qed.

Lemma object_dtype_text s i t : s !! i = Some (CStr t) → object_dtype s = true.
Proof.
  intros H. apply list_elem_of_lookup_2, list_elem_of_In in H.
  destruct s as [|c s]; [done|].
  change (negb (forallb is_numeric (c :: s)) && negb (forallb is_datelike (c :: s)) = true).
  destruct (forallb is_numeric (c :: s)) eqn:E1.
  { rewrite forallb_forall in E1. by specialize (E1 _ H). }
  destruct (forallb is_datelike (c :: s)) eqn:E2; [|done].
  rewrite forallb_forall in E2. by specialize (E2 _ H).
Qed.

Lemma lookup_str_contains alts s i t mask :
  str_contains alts false false s = Ok mask → s !! i = Some (CStr t) →
  mask !! i = Some (Text.search alts false t).
Proof.
  unfold str_contains. destruct (object_dtype s); [|done]. intros [= <-] H.
  change (map ?f s) with (f <$> s). by rewrite list_lookup_fmap, H.
Qed.

Lemma getitem_has_column col df s : getitem col df = Ok s → has_column col df = true.
Proof.
  intros H. apply has_column_true. induction df as [|[c x] df IH]; [done|].
  simpl in *. apply elem_of_cons. case_decide; [by left|right; auto].
Qed.

(** A text cell that matches a positive and a negative token moves the
    score of its row up by 0.5 and down by 0.5. *)
Lemma score_column_both col d s r i t q :
  getitem col d = Ok s → getitem "rating_score" d = Ok r → col ≠ "rating_score" →
  s !! i = Some (CStr t) → r !! i = Some (CNum q) →
  Text.search ["Yes"; "Good"; "Excellent"] false t = true →
  Text.search ["No"; "Poor"; "Bad"] false t = true →
  ∃ d' r', score_column col d = Ok d' ∧ getitem "rating_score" d' = Ok r'
           ∧ r' !! i = Some (CNum (fadd (fadd q (1 # 2)) (- (1 # 2)))).
Proof.
  intros Hs Hr Hne Hsi Hri Hpos Hneg.
  rewrite score_column_masks. unfold signal_masks.
  rewrite (getitem_has_column _ _ _ Hs), Hs. simpl.
  pose proof (object_dtype_text _ _ _ Hsi) as Hobj.
  destruct (str_contains ["Yes"; "Good"; "Excellent"] false false s) as [pos|e] eqn:Ep;
    [|unfold str_contains in Ep; by rewrite Hobj in Ep].
  destruct (str_contains ["No"; "Poor"; "Bad"] false false s) as [neg|e] eqn:En;
    [|unfold str_contains in En; by rewrite Hobj in En].
  simpl. eexists _, _. split; [done|].
  rewrite !getitem_loc_add, Hr. simpl.
  split; [done|].
  apply lookup_add_where.
  - apply lookup_add_where; [done|].
    by rewrite (lookup_str_contains _ _ _ _ _ Ep Hsi), Hpos.
  - by rewrite (lookup_str_contains _ _ _ _ _ En Hsi), Hneg.
Qed.

Lemma fadd_up_down q : (fadd (fadd q (1 # 2)) (- (1 # 2)) == q)%Q.
Proof. unfold fadd. rewrite !Qred_correct. ring. Qed.

End BothFacts.

(** * The claims of the specification *)

(** C1. Scoring the table whose column "Interaction with Security Guards"
    holds "Yes", "No" and "Unknown" gives the scores 3.5, 2.5 and 2.5: the
    "Yes" row gains 0.5 and the "No" row loses 0.5, but the "Unknown" row
    loses 0.5 as well, because "Unknown" contains "no" and the match ignores
    case.  The claim expects 3.0 for that row. *)
Theorem unknown_cell_scores_below_neutral :
  clean_lass_data (Some Sample.guards_table) =
  Ok (Some [ ("Interaction with Security Guards", [CStr "Yes"; CStr "No"; CStr "Unknown"]);
             ("rating_score", [CNum (7 # 2); CNum (5 # 2); CNum (5 # 2)]) ])
  ∧ Text.search ["No"; "Poor"; "Bad"] false "Unknown" = true.
Proof. split; vm_compute; reflexivity. Qed.

(** C10. Given no table, each cleaning function returns no table: both
    [clean_lass_data(None)] and [clean_lep_data(None)] are [None], without
    raising and without touching the store. *)
Theorem clean_none_is_none :
  clean_lass_data None = Ok None
  ∧ (∀ pn nd, clean_lep_data pn nd None = Ok None)
  ∧ (∀ h, Store.clean_lass_data None h = Ok (None, h))
  ∧ (∀ pn nd h, Store.clean_lep_data pn nd None h = Ok (None, h)).
Proof. repeat split. Qed.

(** C7. For every table and every list of signal columns, each rating score
    of the cleaned table is a number of the closed interval from 1 to 5, one
    per row, however many of the signal columns the table has. *)
Theorem rating_score_clamped signals df df' :
  clean_lass_with signals df = Ok df' →
  ∃ s, Pd.getitem "rating_score" df' = Ok s
       ∧ length s = Pd.nrows df
       ∧ Forall in_range s.
Proof.
  intros H. apply CleanFacts.clean_lass_with_shape in H as (s & _ & -> & Hlen & Hnum).
  exists (Pd.clip 1 5 s).
  rewrite PdFacts.getitem_overwrite_eq by apply CleanFacts.has_rating_scoring_base.
  split; [done|]. split.
  - unfold Pd.clip. by rewrite length_map.
  - by apply CleanFacts.clip_in_range.
Qed.

Lemma rating_score_clamped_witness :
  ∃ df', clean_lass_with service_columns Sample.lass_table = Ok df'
         ∧ ∃ s, Pd.getitem "rating_score" df' = Ok s
                ∧ length s = 3%nat
                ∧ Forall in_range s.
Proof.
  eexists. split; [vm_compute; reflexivity|].
  apply (rating_score_clamped service_columns Sample.lass_table).
  vm_compute. reflexivity.
Defined.

(** C9. The rating score is a function of the table and the signal-column
    list; it is the same for every permutation of the list; and a text cell
    that matches both a positive and a negative token receives both
    adjustments, +0.5 and -0.5, which cancel. *)
Theorem rating_score_additive signals signals' df col d s r i t q :
  signals ≡ₚ signals' →
  Pd.getitem col d = Ok s → Pd.getitem "rating_score" d = Ok r →
  col ≠ "rating_score" →
  s !! i = Some (CStr t) → r !! i = Some (CNum q) →
  Text.search ["Yes"; "Good"; "Excellent"] false t = true →
  Text.search ["No"; "Poor"; "Bad"] false t = true →
  clean_lass_with signals df = clean_lass_with signals' df
  ∧ ∃ d' r', score_column col d = Ok d'
             ∧ Pd.getitem "rating_score" d' = Ok r'
             ∧ r' !! i = Some (CNum (fadd (fadd q (1 # 2)) (- (1 # 2))))
             ∧ (fadd (fadd q (1 # 2)) (- (1 # 2)) == q)%Q.
Proof.
  intros Hperm Hs Hr Hne Hsi Hri Hpos Hneg. split.
  - unfold clean_lass_with. by rewrite (ScoreFacts.score_columns_perm _ _ Hperm).
  - destruct (BothFacts.score_column_both col d s r i t q) as (d' & r' & ? & ? & ?);
      try done.
    exists d', r'. repeat split; try done. apply BothFacts.fadd_up_down.
Qed.

Lemma rating_score_additive_witness :
  clean_lass_with service_columns Sample.lass_table
  = clean_lass_with (rev service_columns) Sample.lass_table
  ∧ ∃ d' r', score_column "Interaction with Reception Staff" Sample.mixed_table = Ok d'
             ∧ Pd.getitem "rating_score" d' = Ok r'
             ∧ r' !! 0%nat = Some (CNum (fadd (fadd 3 (1 # 2)) (- (1 # 2))))
             ∧ (fadd (fadd 3 (1 # 2)) (- (1 # 2)) == 3)%Q.
Proof.
  apply (rating_score_additive service_columns (rev service_columns)
           Sample.lass_table "Interaction with Reception Staff" Sample.mixed_table
           [CStr "Not good"] [CNum 3] 0%nat "Not good" 3).
  - apply Permutation_rev.
  - reflexivity.
  - reflexivity.
  - discriminate.
  - reflexivity.
  - reflexivity.
  - reflexivity.
  - reflexivity.
Defined.

(** C5. Cleaning is idempotent: cleaning a cleaned table gives the cleaned
    table again, for the LASS pipeline (trimmed labels, "Unknown" for absent
    cells, rating score) and for the LEP pipeline (trimmed labels, "Unknown",
    numeric population column), the sentinel "Unknown" not being a number. *)
Theorem normalization_idempotent pn nd (lass lep : option DataFrame) :
  pn "Unknown" = None →
  (clean_lass_data lass ≫= clean_lass_data) = clean_lass_data lass
  ∧ (clean_lep_data pn nd lep ≫= clean_lep_data pn nd) = clean_lep_data pn nd lep.
Proof.
  intros Hpn. split.
  - destruct lass as [d|]; [|done]. simpl.
    destruct (clean_lass_with service_columns d) as [d1|e] eqn:E; simpl; [|done].
    by rewrite (CleanFacts.clean_lass_with_idem _ _ _ E).
  - destruct lep as [d|]; [|done]. simpl.
    destruct (clean_lep_frame pn nd d) as [d1|e] eqn:E; simpl; [|done].
    by rewrite (clean_lep_frame_idem pn nd Hpn _ _ E).
Qed.

Lemma normalization_idempotent_witness :
  Sample.read_integer "Unknown" = None
  ∧ (clean_lass_data (Some Sample.lass_table) ≫= clean_lass_data)
    = clean_lass_data (Some Sample.lass_table)
  ∧ (clean_lep_data Sample.read_integer Sample.no_number_of_date (Some Sample.lep_table)
       ≫= clean_lep_data Sample.read_integer Sample.no_number_of_date)
    = clean_lep_data Sample.read_integer Sample.no_number_of_date (Some Sample.lep_table).
Proof.
  split; [reflexivity|].
  apply (normalization_idempotent Sample.read_integer Sample.no_number_of_date
           (Some Sample.lass_table) (Some Sample.lep_table)).
  reflexivity.
Defined.

Example lep_table_cleaned :
  clean_lep_data Sample.read_integer Sample.no_number_of_date (Some Sample.lep_table)
  = Ok (Some [ ("Borough", [CStr "Queens"; CStr "Bronx"; CStr "Unknown"]);
               ("LEP Population (Estimate)", [CNum 1200; CNaN; CNaN]) ]).
Proof. vm_compute. reflexivity. Qed.

Example lass_table_cleaned :
  clean_lass_data (Some Sample.lass_table)
  = Ok (Some [ ("Agency", [CStr "DOE"; CStr "HRA"; CStr "Unknown"]);
               ("Interaction with Reception Staff",
                [CStr "Not good"; CStr "excellent"; CStr "Unknown"]);
               ("Interaction with Security Guards", [CStr "yes"; CStr "Poor"; CStr "Yes"]);
               ("rating_score", [CNum (7 # 2); CNum 3; CNum 3]) ]).
Proof. vm_compute. reflexivity. Qed.

(** C6 (as stated, refuted). With the accepted set of "Agency" empty, the
    records the claim selects are none, while the dashboard keeps both
    records of the table. *)
Lemma filter_empty_accepted_set_counterexample :
  Filter.rows <$> Filter.dashboard_filter (Some Sample.agencies_table) [] [] []
  ≠ Ok (Filter.filter_by_spec [("Agency", [])] Sample.agencies_table).
Proof. vm_compute. discriminate. Qed.

(** C6 (amended). For every table as read from a file (rectangular, with
    distinct labels) whose sidebar options can be sorted, and every
    selection, the filtered table consists of exactly the records whose
    value, for each of the three filter columns that has a non-empty
    selection and is a column of the table, is among the selected values;
    the records keep their order, the result is never longer than the
    table, and with all selections empty the result is the table itself. *)
Theorem filter_keeps_restricted_records d agencies boroughs languages :
  Filter.rectangular d → Pd.unique_labels d → Filter.sortable_columns d = true →
  ∃ f, Filter.dashboard_filter (Some d) agencies boroughs languages = Ok f
       ∧ Filter.rows f
         = Filter.filter_by_spec
             (Filter.restricting [ ("Agency", agencies); ("Borough", boroughs);
                                   ("Secret Shopper Language", languages) ]) d
       ∧ Filter.rows f `sublist_of` Filter.rows d
       ∧ (length (Filter.rows f) ≤ length (Filter.rows d))%nat
       ∧ (Pd.nrows f ≤ Pd.nrows d)%nat
       ∧ (agencies = [] → boroughs = [] → languages = [] → f = d).
Proof.
  intros Hrect _ Hsort.
  rewrite FilterSteps.dashboard_filter_cases, Hsort.
  unfold Filter.filtered_lass.
  destruct (FilterSteps.sidebar_step d "Agency" agencies d Hrect eq_refl)
    as (f1 & -> & Hr1 & Hc1 & Hn1 & Hrows1 & Hid1).
  destruct (FilterSteps.sidebar_step d "Borough" boroughs f1 Hr1 Hc1)
    as (f2 & H2 & Hr2 & Hc2 & Hn2 & Hrows2 & Hid2).
  destruct (FilterSteps.sidebar_step d "Secret Shopper Language" languages f2 Hr2 Hc2)
    as (f3 & H3 & Hr3 & Hc3 & Hn3 & Hrows3 & Hid3).
  exists f3. change (Ok f1 ≫= ?k) with (k f1). cbv beta.
  rewrite H2. change (Ok f2 ≫= ?k) with (k f2). cbv beta.
  split; [exact H3|].
  assert (Filter.rows f3
          = Filter.filter_by_spec
              (Filter.restricting [ ("Agency", agencies); ("Borough", boroughs);
                                    ("Secret Shopper Language", languages) ]) d) as Hrows.
  { rewrite Hrows3, Hrows2, Hrows1, !FilterSteps.filter_twice.
    unfold Filter.filter_by_spec. apply filter_ext. intros r.
    rewrite andb_assoc. apply FilterSteps.passes_three. }
  split; [exact Hrows|]. rewrite Hrows. unfold Filter.filter_by_spec.
  split; [apply FilterSteps.filter_sublist|].
  split; [apply filter_length_le|].
  split; [lia|].
  intros Ha Hb Hl. by rewrite Hid3, Hid2, Hid1.
Qed.

Lemma filter_keeps_restricted_records_witness :
  Filter.rectangular Sample.boroughs_table
  ∧ Pd.unique_labels Sample.boroughs_table
  ∧ Filter.sortable_columns Sample.boroughs_table = true
  ∧ ∃ f, Filter.dashboard_filter (Some Sample.boroughs_table)
           [] [CStr "Queens"; CStr "Bronx"] [CStr "Spanish"] = Ok f
         ∧ Filter.rows f
           = Filter.filter_by_spec
               (Filter.restricting [ ("Agency", []);
                                     ("Borough", [CStr "Queens"; CStr "Bronx"]);
                                     ("Secret Shopper Language", [CStr "Spanish"]) ])
               Sample.boroughs_table
         ∧ Filter.rows f `sublist_of` Filter.rows Sample.boroughs_table
         ∧ (length (Filter.rows f) ≤ length (Filter.rows Sample.boroughs_table))%nat
         ∧ (Pd.nrows f ≤ Pd.nrows Sample.boroughs_table)%nat
         ∧ (@nil cell = [] → [CStr "Queens"; CStr "Bronx"] = [] → [CStr "Spanish"] = []
            → f = Sample.boroughs_table).
Proof.
  assert (Hrect : Filter.rectangular Sample.boroughs_table)
    by (repeat constructor).
  assert (Hlabels : Pd.unique_labels Sample.boroughs_table)
    by (apply (bool_decide_unpack _); vm_compute; exact I).
  split; [exact Hrect|]. split; [exact Hlabels|]. split; [reflexivity|].
  exact (filter_keeps_restricted_records Sample.boroughs_table
           [] [CStr "Queens"; CStr "Bronx"] [CStr "Spanish"] Hrect Hlabels eq_refl).
Defined.

Example boroughs_filtered :
  Filter.dashboard_filter (Some Sample.boroughs_table)
    [] [CStr "Queens"; CStr "Bronx"] [CStr "Spanish"]
  = Ok [ ("Agency", [CStr "DOE"; CStr "DOE"; CStr "NYPD"]);
         ("Borough", [CStr "Queens"; CStr "Bronx"; CStr "Queens"]) ].
Proof. vm_compute. reflexivity. Qed.

(** C2 (as stated, refuted). Filtering a four-record table with "Borough"
    mapped to the empty accepted set returns the four records, not none. *)
Lemma empty_selection_counterexample :
  Filter.dashboard_filter (Some Sample.boroughs_table) [] [] [] = Ok Sample.boroughs_table
  ∧ length (Filter.rows Sample.boroughs_table) = 4%nat
  ∧ Filter.filter_by_spec [("Borough", [])] Sample.boroughs_table = [].
Proof. repeat split; vm_compute; reflexivity. Qed.

(** C2 (amended). For every table, a column whose accepted set is empty is
    not restricted: its filter step is skipped and keeps every record, so
    that with all three selections empty the filter returns the table
    itself.  The sidebar hands the filter an empty selection both when the
    user picked nothing and when the table lacks the column; on a table with
    distinct labels, sidebar and filter together return the table itself
    when nothing is picked, unless the options of a widget cannot be sorted,
    which stops the script with [TypeError] before the filter. *)
Theorem empty_selection_is_unrestricted (d : DataFrame) (col : string) :
  Filter.filter_step col [] d = Ok d
  ∧ Filter.filtered_lass (Some d) [] [] [] = Ok d
  ∧ (∀ r, Filter.passes (Filter.restricting [(col, [])]) r = true)
  ∧ (∀ picked, Pd.has_column col d = false →
               Filter.sidebar_selection (Some d) col picked = Ok [])
  ∧ (Pd.unique_labels d →
     Filter.sidebar_selection (Some d) col []
     = (if Filter.sortable col d then Ok [] else Raise TypeError)
     ∧ Filter.dashboard_filter (Some d) [] [] []
       = (if Filter.sortable_columns d then Ok d else Raise TypeError)).
Proof.
  split; [done|]. split; [done|]. split; [done|]. split.
  - intros picked H. unfold Filter.sidebar_selection. by rewrite H.
  - intros _. split.
    + rewrite FilterSteps.sidebar_selection_outcome.
      by destruct (Pd.has_column col d).
    + rewrite FilterSteps.dashboard_filter_cases.
      by destruct (Pd.has_column "Agency" d), (Pd.has_column "Borough" d),
                 (Pd.has_column "Secret Shopper Language" d).
Qed.

(** C3. The date coercion of sosi_app.py writes the table it is given: on a
    staging table whose "Hearing Date" column holds text, the coercion of the
    Data Analysis tab, and likewise the one of the Trends tab, leaves the
    store with a different frame at the reference of the input table,
    whatever the date reader makes of the text.  The cleaning functions of
    app.py copy first and leave their input as it was
    ([StoreFacts.clean_lass_data_frame], [StoreFacts.clean_lep_data_frame]). *)
Theorem date_coercion_writes_input (pd : string → option Z) (dn : Q → option Z) :
  let coerced :=
    Pd.setitem "Hearing Date"
      (to_datetime pd dn [CStr "pending"; CStr "pending"; CStr "pending"; CStr "pending"])
      Sample.staging_table in
  Store.coerce_staging_dates pd dn 0%nat [Sample.staging_table] = Ok (tt, [coerced])
  ∧ Store.coerce_hist_dates pd dn 0%nat [Sample.staging_table] = Ok (tt, [coerced])
  ∧ coerced ≠ Sample.staging_table.
Proof.
  split; [vm_compute; reflexivity|]. split; [vm_compute; reflexivity|].
  vm_compute. destruct (pd "pending"); discriminate.
Qed.

(** C4 (as stated, refuted). The spreadsheet loader does not carry the
    cause of a failure: two working directories whose files fail for
    different reasons load to the same result. *)
Lemma excel_loader_drops_cause : ¬ Loader.reports_cause.
Proof.
  intros [cause H].
  assert (Hin : ("staging", "tblStaging_Raw.xlsx") ∈ Loader.files)
    by (apply list_elem_of_In; simpl; auto).
  pose proof (H (Sample.broken_files "bad zip file") _ _ "bad zip file" Hin eq_refl) as H1.
  pose proof (H (Sample.broken_files "permission denied") _ _ "permission denied"
                Hin eq_refl) as H2.
  vm_compute in H1, H2. rewrite H1 in H2. discriminate.
Qed.

(** C4 (amended). A remote CSV load that fails returns no table and the
    message "Error loading LASS data: " (or "LEP") followed by the text of
    the exception, and one that succeeds returns the table and no message.
    The spreadsheet loader always returns its three entries and raises
    nothing.  An entry is filled exactly when its file was read: the file
    exists, opens, and every sheet asked of it parses (all sheets of the
    historical workbook, the first sheet of the others).  The entry of a
    file that is absent, cannot be opened, or has a sheet that fails to
    parse is null, with no cause attached. *)
Theorem loaders_report_failure :
  (∀ e, Loader.load_lass_data (Loader.Failed e)
        = (None, Some ("Error loading LASS data: " +:+ e)))
  ∧ (∀ e, Loader.load_lep_data (Loader.Failed e)
          = (None, Some ("Error loading LEP data: " +:+ e)))
  ∧ (∀ df, Loader.load_lass_data (Loader.Parsed df) = (Some df, None))
  ∧ (∀ df, Loader.load_lep_data (Loader.Parsed df) = (Some df, None))
  ∧ (∀ r, (Loader.load_lass_data r).1 = None ↔ (Loader.load_lass_data r).2 ≠ None)
  ∧ (∀ r, (Loader.load_lep_data r).1 = None ↔ (Loader.load_lep_data r).2 ≠ None)
  ∧ (∀ fs, Loader.load_local_excel_files fs
           = [ ("historical",
                Loader.load_entry "historical" (fs "AllDataAnalysis_20250908_194306.xlsx"));
               ("linguists",
                Loader.load_entry "linguists" (fs "SOSiApprovedLinguists (1).xlsx"));
               ("staging", Loader.load_entry "staging" (fs "tblStaging_Raw.xlsx")) ])
  ∧ (∀ key f, Loader.load_entry key f ≠ None ↔ Loader.was_read key f)
  ∧ (∀ fs key name, (key, name) ∈ Loader.files →
       ∃ v, (key, v) ∈ Loader.load_local_excel_files fs
            ∧ (∀ v', (key, v') ∈ Loader.load_local_excel_files fs → v' = v)
            ∧ (v ≠ None ↔ Loader.was_read key (fs name)))
  ∧ (∀ key, Loader.load_entry key Loader.Absent = None)
  ∧ (∀ key e, Loader.load_entry key (Loader.Unreadable e) = None)
  ∧ (∀ key name e rest,
       key ≠ "historical" →
       Loader.load_entry key (Loader.Workbook ((name, Loader.Failed e) :: rest)) = None)
  ∧ (∀ name e before after,
       Loader.load_entry "historical"
         (Loader.Workbook (before ++ (name, Loader.Failed e) :: after)) = None)
  ∧ (∀ key name df rest,
       key ≠ "historical" →
       Loader.load_entry key (Loader.Workbook ((name, Loader.Parsed df) :: rest))
       = Some (Loader.Frame df))
  ∧ (∀ d, Loader.load_entry "historical"
            (Loader.Workbook (map (fun nd => (nd.1, Loader.Parsed nd.2)) d))
          = Some (Loader.Sheets d)).
Proof.
  assert (Hnull : ∀ key f, ¬ Loader.was_read key f → Loader.load_entry key f = None).
  { intros key f Hnot. destruct (Loader.load_entry key f) eqn:E; [|done].
    exfalso. apply Hnot, SheetFacts.load_entry_was_read. by rewrite E. }
  split; [done|]. split; [done|]. split; [done|]. split; [done|].
  split; [by intros []|]. split; [by intros []|]. split; [done|].
  split; [apply SheetFacts.load_entry_was_read|].
  split; [|split; [done|]; split; [done|]; split; [|split; [|split]]].
  - intros fs key name Hin.
    change (Loader.load_local_excel_files fs)
      with [ ("historical",
              Loader.load_entry "historical" (fs "AllDataAnalysis_20250908_194306.xlsx"));
             ("linguists",
              Loader.load_entry "linguists" (fs "SOSiApprovedLinguists (1).xlsx"));
             ("staging", Loader.load_entry "staging" (fs "tblStaging_Raw.xlsx")) ].
    assert (Hkey : (key, name) = ("historical", "AllDataAnalysis_20250908_194306.xlsx")
                   ∨ (key, name) = ("linguists", "SOSiApprovedLinguists (1).xlsx")
                   ∨ (key, name) = ("staging", "tblStaging_Raw.xlsx")).
    { unfold Loader.files in Hin.
      repeat (apply elem_of_cons in Hin as [Hin|Hin]; [auto|]).
      by apply elem_of_nil in Hin. }
    destruct Hkey as [[= -> ->]|[[= -> ->]|[= -> ->]]];
      (eexists; split; [apply list_elem_of_In; simpl; auto|];
       split; [|apply SheetFacts.load_entry_was_read];
       intros v' Hv';
       repeat (apply elem_of_cons in Hv' as [Hv'|Hv'];
               [try discriminate Hv'; by injection Hv' as ->|]);
       by apply elem_of_nil in Hv').
  - intros key name e rest Hne. apply Hnull. unfold Loader.was_read.
    rewrite decide_False by done. by intros (? & ? & ? & [=]).
  - intros name e before after. apply Hnull. unfold Loader.was_read.
    rewrite decide_True by done. rewrite Forall_app, Forall_cons.
    by intros [_ [[df [=]] _]].
  - intros key name df rest Hne. unfold Loader.load_entry, Loader.try_load.
    by rewrite decide_False.
  - intros d. unfold Loader.load_entry, Loader.try_load.
    rewrite decide_True by done.
    destruct (SheetFacts.read_sheets_outcome
                (map (fun nd => (nd.1, Loader.Parsed nd.2)) d))
      as [(d' & -> & Hd)|(e & n & _ & Hin)].
    + f_equal. f_equal. revert d' Hd.
      induction d as [|[n x] d IH]; intros [|[n' x'] d']; simpl; try done.
      intros [= -> -> Hd]. f_equal. by apply IH.
    + apply list_elem_of_In, in_map_iff in Hin as (? & [=] & _).
Qed.

(** C8 (as stated, refuted). In the average service duration by language,
    the group "Urdu", whose only billable time is missing, is part of the
    result, with a NaN mean; it is not left out. *)
Lemma mean_keeps_empty_group :
  Aggregate.avg_time_by_lang Sample.read_integer Sample.no_number_of_date
    Sample.staging_table
  = Ok (Some [ (CStr "Spanish", CNum 15); (CStr "Urdu", CNaN) ])
  ∧ Aggregate.numbers
      (Aggregate.group_values (CStr "Urdu")
         [CStr "Spanish"; CStr "Spanish"; CStr "Urdu"; CStr "Spanish"]
         [CNum 10; CNaN; CNaN; CNum 20]) = [].
Proof. split; vm_compute; reflexivity. Qed.

(** C8 (amended). For every grouped sum or mean, the records whose metric
    value is missing take no part in the computation (the values 10,
    missing, 20 have mean 15); a group with no contributing value has sum 0,
    and its mean is NaN: the group stays in the grouped result, with an
    undefined mean, neither dropped nor reported as zero.  Sorting by value
    puts the groups without a mean after all groups that have one.  The
    chart of the average duration by language shows the first ten entries
    of that ranking: a group without a mean is shown when there are at most
    ten groups, and left out when ten or more groups have a mean. *)
Theorem grouped_sum_mean_skip_missing key metric df ks vs k :
  Pd.getitem key df = Ok ks → Pd.getitem metric df = Ok vs →
  k ∈ ks → Pd.isna k = false →
  let g := Aggregate.group_values k ks vs in
  (∃ r, Aggregate.groupby Aggregate.nansum key metric df = Ok r
        ∧ (k, Aggregate.nansum g) ∈ r)
  ∧ (∃ r, Aggregate.groupby Aggregate.nanmean key metric df = Ok r
          ∧ (k, Aggregate.nanmean g) ∈ r
          ∧ (k, Aggregate.nanmean g) ∈ Aggregate.sort_values_desc r
          ∧ (let ranked := Aggregate.sort_values_desc r in
             ranked = List.filter Aggregate.has_value ranked
                      ++ List.filter (fun e => negb (Aggregate.has_value e)) ranked)
          ∧ (Aggregate.numbers g = [] →
             ((length r ≤ 10)%nat →
              (k, CNaN) ∈ Aggregate.head 10 (Aggregate.sort_values_desc r))
             ∧ ((10 ≤ length (List.filter Aggregate.has_value r))%nat →
                (k, CNaN) ∉ Aggregate.head 10 (Aggregate.sort_values_desc r))))
  ∧ Aggregate.nansum g
    = Aggregate.nansum (List.filter (fun c => negb (Pd.isna c)) g)
  ∧ Aggregate.nanmean g
    = Aggregate.nanmean (List.filter (fun c => negb (Pd.isna c)) g)
  ∧ (Aggregate.numbers g = [] →
     Aggregate.nansum g = CNum 0 ∧ Aggregate.nanmean g = CNaN)
  ∧ Aggregate.nanmean [CNum 10; CNaN; CNum 20] = CNum 15
  ∧ (∀ pn nd staging_df top,
       Aggregate.avg_time_by_lang pn nd staging_df = Ok (Some top) →
       ∃ s r, Pd.getitem "Billable time" staging_df = Ok s
              ∧ Aggregate.groupby Aggregate.nanmean "Language" "Billable time (numeric)"
                  (Pd.setitem "Billable time (numeric)" (to_numeric pn nd s) staging_df)
                = Ok r
              ∧ top = Aggregate.head 10 (Aggregate.sort_values_desc r)).
Proof.
  intros Hk Hv Hin Hna g. subst g.
  set (g := Aggregate.group_values k ks vs).
  split; [|split; [|split; [|split; [|split; [|split]]]]].
  - destruct (AggregateFacts.groupby_lookup Aggregate.nansum _ _ _ _ _ _ Hk Hv Hin Hna)
      as (r & ? & ? & _). by exists r.
  - destruct (AggregateFacts.groupby_lookup Aggregate.nanmean _ _ _ _ _ _ Hk Hv Hin Hna)
      as (r & Hr & Hkr & _). exists r. fold g in Hkr.
    destruct (AggregateFacts.ranking_head 10 r) as (Hsplit & _ & Hshort & Hlong).
    split; [done|]. split; [done|].
    split; [by apply AggregateFacts.elem_of_sort_values_desc|].
    split; [exact Hsplit|]. intros Hnone.
    assert (Hnan : Aggregate.nanmean g = CNaN)
      by (unfold Aggregate.nanmean; by rewrite Hnone).
    rewrite Hnan in Hkr. split.
    + intros Hle. rewrite (Hshort Hle).
      by apply AggregateFacts.elem_of_sort_values_desc.
    + intros Hge Hshown. specialize (Hlong Hge).
      rewrite Forall_forall in Hlong. by specialize (Hlong _ Hshown).
  - by rewrite AggregateFacts.nansum_present.
  - by rewrite AggregateFacts.nanmean_present.
  - intros Hnone. unfold Aggregate.nansum, Aggregate.nanmean. by rewrite Hnone.
  - reflexivity.
  - intros pn nd staging_df top. unfold Aggregate.avg_time_by_lang.
    destruct (Pd.has_column "Billable time" staging_df); [|done].
    destruct (Pd.getitem "Billable time" staging_df) as [s|e]; [|done].
    change (Ok s ≫= ?f) with (f s). cbv beta zeta.
    destruct (Pd.getitem "Billable time (numeric)" _) as [s'|e]; [|done].
    change (Ok s' ≫= ?f) with (f s'). cbv beta.
    destruct (negb _); [|done]. destruct (Pd.has_column "Language" _); [|done].
    destruct (Aggregate.groupby _ _ _ _) as [r|e] eqn:Hr; [|done].
    change (Ok r ≫= ?f) with (f r). cbv beta. intros H.
    exists s, r. split; [done|]. split; [exact Hr|]. congruence.
Qed.

Lemma grouped_sum_mean_skip_missing_witness :
  let g := Aggregate.group_values (CStr "Urdu")
             [CStr "Spanish"; CStr "Spanish"; CStr "Urdu"; CStr "Spanish"]
             [CNum 10; CNaN; CNaN; CNum 20] in
  (∃ r, Aggregate.groupby Aggregate.nansum "Language" "Billable time (numeric)"
          Sample.billable_table = Ok r
        ∧ (CStr "Urdu", Aggregate.nansum g) ∈ r)
  ∧ (∃ r, Aggregate.groupby Aggregate.nanmean "Language" "Billable time (numeric)"
            Sample.billable_table = Ok r
          ∧ (CStr "Urdu", Aggregate.nanmean g) ∈ r
          ∧ (CStr "Urdu", Aggregate.nanmean g) ∈ Aggregate.sort_values_desc r
          ∧ (let ranked := Aggregate.sort_values_desc r in
             ranked = List.filter Aggregate.has_value ranked
                      ++ List.filter (fun e => negb (Aggregate.has_value e)) ranked)
          ∧ (Aggregate.numbers g = [] →
             ((length r ≤ 10)%nat →
              (CStr "Urdu", CNaN) ∈ Aggregate.head 10 (Aggregate.sort_values_desc r))
             ∧ ((10 ≤ length (List.filter Aggregate.has_value r))%nat →
                (CStr "Urdu", CNaN) ∉ Aggregate.head 10 (Aggregate.sort_values_desc r))))
  ∧ Aggregate.nansum g
    = Aggregate.nansum (List.filter (fun c => negb (Pd.isna c)) g)
  ∧ Aggregate.nanmean g
    = Aggregate.nanmean (List.filter (fun c => negb (Pd.isna c)) g)
  ∧ (Aggregate.numbers g = [] →
     Aggregate.nansum g = CNum 0 ∧ Aggregate.nanmean g = CNaN)
  ∧ Aggregate.nanmean [CNum 10; CNaN; CNum 20] = CNum 15
  ∧ (∀ pn nd staging_df top,
       Aggregate.avg_time_by_lang pn nd staging_df = Ok (Some top) →
       ∃ s r, Pd.getitem "Billable time" staging_df = Ok s
              ∧ Aggregate.groupby Aggregate.nanmean "Language" "Billable time (numeric)"
                  (Pd.setitem "Billable time (numeric)" (to_numeric pn nd s) staging_df)
                = Ok r
              ∧ top = Aggregate.head 10 (Aggregate.sort_values_desc r)).
Proof.
  apply (grouped_sum_mean_skip_missing "Language" "Billable time (numeric)"
           Sample.billable_table
           [CStr "Spanish"; CStr "Spanish"; CStr "Urdu"; CStr "Spanish"]
           [CNum 10; CNaN; CNaN; CNum 20] (CStr "Urdu")).
  - reflexivity.
  - reflexivity.
  - apply list_elem_of_In. simpl. auto.
  - reflexivity.
Defined.

(** Eleven languages, ten of them with a billable time: the chart shows the
    ten, and "Urdu", whose only time is missing, is not among them. *)
Example eleventh_group_left_out :
  Aggregate.avg_time_by_lang Sample.read_integer Sample.no_number_of_date
    Sample.eleven_table
  = Ok (Some [ (CStr "Spanish", CNum 60); (CStr "Russian", CNum 55);
               (CStr "Polish", CNum 50); (CStr "Korean", CNum 45);
               (CStr "Italian", CNum 40); (CStr "Hindi", CNum 35);
               (CStr "French", CNum 30); (CStr "Chinese", CNum 25);
               (CStr "Bengali", CNum 20); (CStr "Arabic", CNum 15) ]).
Proof. vm_compute. reflexivity. Qed.

Example borough_sums :
  Aggregate.lep_borough
    [ ("Borough", [CStr "Queens"; CStr "Bronx"; CStr "Queens"; CStr "Unknown"]);
      ("LEP Population (Estimate)", [CNum 1200; CNum 300; CNaN; CNaN]) ]
  = Ok (Some [ (CStr "Bronx", CNum 300); (CStr "Queens", CNum 1200);
               (CStr "Unknown", CNum 0) ]).
Proof. vm_compute. reflexivity. Qed.

(** * Further properties of the code *)

(** ** The rating score, row by row *)

Module RowFacts.
Import Pd PdFacts ScoreFacts CleanFacts.

Lemma getitem_absent col df : has_column col df = false → getitem col df = Raise KeyError.
Proof.
  intros H. destruct (getitem col df) as [s|e] eqn:E.
  - apply BothFacts.getitem_has_column in E. congruence.
  - clear H. induction df as [|[c x] df IH]; simpl in E; [congruence|].
    case_decide; [done|auto].
Qed.

Lemma lookup_add_where_gen m delta s : ∀ i,
  add_where m delta s !! i =
  (fun c => match c with
            | CNum q => if default false (m !! i) then CNum (fadd q delta) else c
            | _ => c
            end) <$> s !! i.
Proof.
  revert m. induction s as [|c s IH]; intros m i; [done|].
  destruct i as [|i]; simpl.
  - by destruct m.
  - rewrite IH. by destruct m.
Qed.

Lemma lookup_mask_gen alts s mask i :
  str_contains alts false false s = Ok mask →
  default false (mask !! i) = match s !! i with
                              | Some (CStr t) => Text.search alts false t
                              | _ => false
                              end.
Proof.
  unfold str_contains. destruct (object_dtype s); [|done]. intros [= <-].
  change (map ?f s) with (f <$> s). rewrite list_lookup_fmap.
  by destruct (s !! i) as [[]|].
Qed.

Lemma lookup_repeat {A} (x : A) n i : (i < n)%nat → repeat x n !! i = Some x.
Proof.
  revert i. induction n as [|n IH]; intros i Hi; [lia|].
  destruct i as [|i]; simpl; [done|]. apply IH. lia.
Qed.

(** One iteration of the loop adjusts each row by its own signal cell. *)
Lemma score_column_row col X s d' :
  col ≠ "rating_score" →
  score_column col (overwrite "rating_score" s X) = Ok d' →
  ∃ s', d' = overwrite "rating_score" s' X
        ∧ length s' = length s
        ∧ ∀ i q, s !! i = Some (CNum q) →
                 s' !! i = Some (CNum (match Score.signal_cell col X i with
                                       | Some c => Score.adjust c q
                                       | None => q
                                       end)).
Proof.
  intros Hne. rewrite score_column_masks. unfold signal_masks.
  rewrite has_column_overwrite, getitem_overwrite_ne by done.
  unfold Score.signal_cell.
  destruct (has_column col X) eqn:Hc.
  - destruct (has_column_getitem _ _ Hc) as [sc Hsc]. rewrite Hsc. simpl.
    destruct (str_contains ["Yes"; "Good"; "Excellent"] false false sc)
      as [pos|e] eqn:Ep; simpl; [|done].
    destruct (str_contains ["No"; "Poor"; "Bad"] false false sc)
      as [neg|e] eqn:En; simpl; [|done].
    intros [= <-]. rewrite !loc_add_overwrite. eexists. split; [done|].
    split; [by rewrite !length_add_where|].
    intros i q Hq. rewrite !lookup_add_where_gen, Hq. simpl.
    rewrite (lookup_mask_gen _ _ _ i Ep), (lookup_mask_gen _ _ _ i En).
    unfold Score.adjust, Score.positive, Score.negative.
    destruct (sc !! i) as [[t| | | |]|]; try done.
    generalize (Text.search ["Yes"; "Good"; "Excellent"] false t).
    generalize (Text.search ["No"; "Poor"; "Bad"] false t).
    by intros [] [].
  - simpl. intros [= <-]. exists s. split; [done|]. split; [done|].
    intros i q Hq. by rewrite (getitem_absent _ _ Hc).
Qed.

Lemma score_columns_row signals X : ∀ s d',
  "rating_score" ∉ signals →
  score_columns signals (overwrite "rating_score" s X) = Ok d' →
  ∃ s', d' = overwrite "rating_score" s' X
        ∧ length s' = length s
        ∧ ∀ i q, s !! i = Some (CNum q) →
                 s' !! i = Some (CNum (foldl (fun q col =>
                                         match Score.signal_cell col X i with
                                         | Some c => Score.adjust c q
                                         | None => q
                                         end) q signals)).
Proof.
  induction signals as [|col signals IH]; intros s d' Hnot; simpl.
  - intros [= <-]. by exists s.
  - apply not_elem_of_cons in Hnot as [Hne Hnot].
    destruct (score_column col _) as [d1|e] eqn:E; simpl; [|done].
    apply score_column_row in E as (s1 & -> & Hlen1 & Hrow1); [|done].
    intros (s2 & -> & Hlen2 & Hrow2)%IH; [|done].
    exists s2. split; [done|]. split; [congruence|].
    intros i q Hq. apply Hrow2, Hrow1, Hq.
Qed.

Lemma signal_cell_overwrite col s X i :
  col ≠ "rating_score" →
  Score.signal_cell col (overwrite "rating_score" s X) i = Score.signal_cell col X i.
Proof. intros H. unfold Score.signal_cell. by rewrite getitem_overwrite_ne. Qed.

Lemma row_total_overwrite signals s X i :
  "rating_score" ∉ signals →
  Score.row_total signals (overwrite "rating_score" s X) i = Score.row_total signals X i.
Proof.
  unfold Score.row_total. generalize 3%Q.
  induction signals as [|col signals IH]; intros q Hnot; simpl; [done|].
  apply not_elem_of_cons in Hnot as [Hne Hnot].
  rewrite signal_cell_overwrite by done. by apply IH.
Qed.

End RowFacts.

(** X1. In a cleaned table the rating of every row is the score of that
    row's own cells: 3, plus 0.5 for each signal column whose cell holds a
    positive token, minus 0.5 for each whose cell holds a negative token,
    clipped to the scale from 1 to 5.  The rating column is not itself a
    signal column. *)
Theorem rating_is_row_score signals df df' :
  "rating_score" ∉ signals →
  clean_lass_with signals df = Ok df' →
  ∃ s, Pd.getitem "rating_score" df' = Ok s
       ∧ length s = Pd.nrows df
       ∧ ∀ i, (i < Pd.nrows df)%nat →
              s !! i = Some (CNum (Score.row_score signals df' i)).
Proof.
  intros Hnot H.
  unfold clean_lass_with in H. fold (scoring_base df) in H.
  destruct (score_columns signals (scoring_base df)) as [d|e] eqn:Hd; [|done].
  rewrite CleanFacts.scoring_base_rated in Hd.
  apply RowFacts.score_columns_row in Hd as (s & -> & Hlen & Hrow); [|done].
  simpl in H.
  rewrite PdFacts.getitem_overwrite_eq in H by apply CleanFacts.has_rating_scoring_base.
  simpl in H.
  rewrite PdFacts.setitem_overwrite in H by apply CleanFacts.has_rating_scoring_base.
  injection H as <-. exists (Pd.clip 1 5 s).
  rewrite PdFacts.getitem_overwrite_eq by apply CleanFacts.has_rating_scoring_base.
  rewrite repeat_length in Hlen.
  split; [done|]. split; [unfold Pd.clip; by rewrite length_map|].
  intros i Hi. unfold Pd.clip. change (map ?f s) with (f <$> s).
  rewrite list_lookup_fmap, (Hrow i 3%Q) by (by apply RowFacts.lookup_repeat).
  simpl. unfold Score.row_score.
  by rewrite RowFacts.row_total_overwrite.
Qed.

Lemma rating_is_row_score_witness :
  ∃ df', clean_lass_with service_columns Sample.lass_table = Ok df'
         ∧ ∃ s, Pd.getitem "rating_score" df' = Ok s
                ∧ length s = 3%nat
                ∧ ∀ i, (i < 3)%nat →
                       s !! i = Some (CNum (Score.row_score service_columns df' i)).
Proof.
  eexists. split; [vm_compute; reflexivity|].
  apply (rating_is_row_score service_columns Sample.lass_table).
  - vm_compute. intros H. repeat (apply elem_of_cons in H as [H|H]; [discriminate|]).
    by apply elem_of_nil in H.
  - vm_compute. reflexivity.
Defined.

Module OutcomeFacts.
Import Pd PdFacts ScoreFacts CleanFacts.

Lemma elem_of_columns_setitem c col s df :
  c ∈ columns (setitem col s df) ↔ c ∈ columns df ∨ c = col.
Proof.
  unfold setitem. destruct (has_column col df) eqn:E.
  - rewrite columns_overwrite. apply has_column_true in E. split; [auto|].
    intros [?| ->]; done.
  - unfold columns. rewrite map_app, elem_of_app. simpl.
    by rewrite list_elem_of_singleton.
Qed.

Lemma has_column_scoring_base col df :
  col ≠ "rating_score" → col ∉ map Text.strip (columns df) →
  has_column col (scoring_base df) = false.
Proof.
  intros Hne Hnot. destruct (has_column col (scoring_base df)) eqn:E; [|done].
  apply has_column_true, elem_of_columns_setitem in E as [E|E]; [|done].
  by rewrite columns_fillna, columns_rename in E.
Qed.

Lemma score_columns_absent signals : ∀ d,
  (∀ col, col ∈ signals → has_column col d = false) →
  score_columns signals d = Ok d.
Proof.
  induction signals as [|col signals IH]; intros d H; simpl; [done|].
  unfold score_column. rewrite (H col) by by left. simpl.
  apply IH. intros c Hc. apply H. by right.
Qed.

Lemma clip_repeat_three n : clip 1 5 (repeat (CNum 3) n) = repeat (CNum 3) n.
Proof. induction n as [|n IH]; simpl; [done|]. by rewrite IH. Qed.

Lemma score_columns_raise signals : ∀ d X,
  (∀ col, signal_masks col d = signal_masks col X) →
  (∃ col, col ∈ signals ∧ signal_masks col X = Raise AttributeError) →
  score_columns signals d = Raise AttributeError.
Proof.
  induction signals as [|c signals IH]; intros d X Hsame (col & Hin & Hbad).
  - by apply elem_of_nil in Hin.
  - simpl. rewrite score_column_masks, Hsame.
    destruct (signal_masks c X) as [m|e] eqn:Hm; simpl.
    + apply (IH _ X).
      * intros c'. by rewrite signal_masks_apply.
      * exists col. split; [|done].
        apply elem_of_cons in Hin as [->|Hin]; [congruence|done].
    + by rewrite (signal_masks_raise _ _ _ Hm).
Qed.

End OutcomeFacts.

(** X2. When a table whose trimmed labels are distinct has none of the
    signal columns (no trimmed label is a signal column), cleaning returns a
    table whose rating is exactly 3 in every row. *)
Theorem no_signal_column_scores_three signals df :
  Pd.unique_labels (Pd.rename Text.strip df) →
  (∀ col, col ∈ signals →
          col ≠ "rating_score" ∧ col ∉ map Text.strip (Pd.columns df)) →
  ∃ df', clean_lass_with signals df = Ok df'
         ∧ Pd.getitem "rating_score" df' = Ok (repeat (CNum 3) (Pd.nrows df)).
Proof.
  intros _ H. unfold clean_lass_with. fold (scoring_base df).
  rewrite OutcomeFacts.score_columns_absent.
  2:{ intros col Hcol. destruct (H col Hcol).
      by apply OutcomeFacts.has_column_scoring_base. }
  change (Ok (scoring_base df) ≫= ?k) with (k (scoring_base df)). cbv beta.
  pose proof (PdFacts.getitem_overwrite_eq "rating_score"
                (repeat (CNum 3) (Pd.nrows df)) (scoring_base df)
                (CleanFacts.has_rating_scoring_base df)) as Hget.
  rewrite <- CleanFacts.scoring_base_rated in Hget. rewrite Hget.
  change (Ok ?s ≫= ?k) with (k s). cbv beta.
  eexists. split; [done|].
  rewrite OutcomeFacts.clip_repeat_three. unfold Pd.setitem.
  rewrite CleanFacts.has_rating_scoring_base.
  by rewrite PdFacts.getitem_overwrite_eq by apply CleanFacts.has_rating_scoring_base.
Qed.

Lemma no_signal_column_scores_three_witness :
  Pd.unique_labels (Pd.rename Text.strip Sample2.plain_table)
  ∧ ∃ df', clean_lass_with service_columns Sample2.plain_table = Ok df'
           ∧ Pd.getitem "rating_score" df' = Ok (repeat (CNum 3) 2).
Proof.
  assert (Hlabels : Pd.unique_labels (Pd.rename Text.strip Sample2.plain_table))
    by (apply (bool_decide_unpack _); vm_compute; exact I).
  split; [exact Hlabels|].
  apply (no_signal_column_scores_three service_columns Sample2.plain_table Hlabels).
  intros col Hcol. vm_compute in Hcol.
  repeat (apply elem_of_cons in Hcol as [->|Hcol];
          [split; [discriminate|];
           vm_compute; intros H;
           repeat (apply elem_of_cons in H as [H|H]; [discriminate|]);
           by apply elem_of_nil in H|]).
  by apply elem_of_nil in Hcol.
Defined.

(** X3. Cleaning stops with [AttributeError] when a signal column of the
    table holds, after trimming and filling, numbers only (or dates only):
    such a column has no [.str] accessor. *)
Theorem numeric_signal_column_raises signals df col s :
  col ∈ signals →
  Pd.getitem col (scoring_base df) = Ok s →
  Pd.object_dtype s = false →
  clean_lass_with signals df = Raise AttributeError.
Proof.
  intros Hin Hs Hobj. unfold clean_lass_with. fold (scoring_base df).
  rewrite (OutcomeFacts.score_columns_raise signals _ (scoring_base df)); [done|done|].
  exists col. split; [done|]. unfold signal_masks.
  rewrite (BothFacts.getitem_has_column _ _ _ Hs), Hs. simpl.
  unfold Pd.str_contains. by rewrite Hobj.
Qed.

Lemma numeric_signal_column_raises_witness :
  clean_lass_with service_columns Sample2.numeric_guards_table = Raise AttributeError.
Proof.
  apply (numeric_signal_column_raises service_columns Sample2.numeric_guards_table
           "Interaction with Security Guards" [CNum 1; CNum 0]).
  - apply list_elem_of_In. simpl. auto.
  - reflexivity.
  - reflexivity.
Defined.

(** The witness of [TotalFacts.clean_lass_with_total]: a table whose signal
    columns hold text. *)
Lemma clean_lass_with_total_witness :
  Pd.unique_labels (Pd.rename Text.strip Sample.lass_table)
  ∧ ∃ d, clean_lass_with service_columns Sample.lass_table = Ok d.
Proof.
  assert (Hlabels : Pd.unique_labels (Pd.rename Text.strip Sample.lass_table))
    by (apply (bool_decide_unpack _); vm_compute; exact I).
  split; [exact Hlabels|].
  apply (TotalFacts.clean_lass_with_total service_columns Sample.lass_table Hlabels).
  intros col s Hcol. vm_compute in Hcol.
  repeat (apply elem_of_cons in Hcol as [->|Hcol];
          [vm_compute; intros [= <-] || intros [=]; reflexivity|]).
  by apply elem_of_nil in Hcol.
Defined.

Module ShapeFacts.
Import Pd PdFacts CleanFacts.

Lemma getitem_app_ne c col s df :
  c ≠ col → getitem c (df ++ [(col, s)]) = getitem c df.
Proof.
  intros Hne. induction df as [|[c' x] df IH]; simpl.
  - by rewrite decide_False.
  - by case_decide.
Qed.

Lemma getitem_setitem_ne c col s df :
  c ≠ col → getitem c (setitem col s df) = getitem c df.
Proof.
  intros Hne. unfold setitem. destruct (has_column col df).
  - by apply getitem_overwrite_ne.
  - by apply getitem_app_ne.
Qed.

Lemma nrows_overwrite_same col s s' df :
  getitem col df = Ok s → length s' = length s →
  nrows (overwrite col s' df) = nrows df.
Proof.
  destruct df as [|[c x] df]; simpl; [done|].
  case_decide; [|done]. by intros [= ->] ->.
Qed.

Lemma getitem_Forall (P : Series → Prop) col s df :
  Forall (fun cs => P cs.2) df → getitem col df = Ok s → P s.
Proof.
  induction 1 as [|[c x] df Hx _ IH]; simpl; [done|].
  case_decide; [by intros [= <-]|done].
Qed.

Lemma to_numeric_numeric pn nd s :
  Forall (fun c => is_numeric c = true) (to_numeric pn nd s).
Proof.
  unfold to_numeric. rewrite Forall_map. apply Forall_forall. intros c _.
  destruct c as [t| |d| |]; simpl; try done.
  - by destruct (pn t).
  - by destruct (nd d).
Qed.

End ShapeFacts.

(** X4. A cleaned LASS table has the trimmed labels of the input, followed
    by "rating_score" unless one of them is "rating_score" already; it has
    as many rows as the input and no missing cell, and each column other
    than the rating holds the input cells with "Unknown" in place of the
    missing ones. *)
Theorem lass_cleaned_shape signals df df' :
  clean_lass_with signals df = Ok df' →
  Pd.columns df'
  = (let labels := map Text.strip (Pd.columns df) in
     if bool_decide ("rating_score" ∈ labels) then labels
     else labels ++ ["rating_score"])
  ∧ Pd.nrows df' = Pd.nrows df
  ∧ Pd.no_na df'
  ∧ ∀ col, col ≠ "rating_score" →
           Pd.getitem col df'
           = Pd.getitem col (Pd.fillna (CStr "Unknown") (Pd.rename Text.strip df)).
Proof.
  intros H. apply CleanFacts.clean_lass_with_shape in H as (s & _ & -> & Hlen & Hnum).
  split; [|split; [|split]].
  - rewrite PdFacts.columns_overwrite. unfold scoring_base, Pd.setitem_scalar, Pd.setitem.
    unfold Pd.has_column at 1.
    rewrite CleanFacts.columns_fillna, CleanFacts.columns_rename. simpl.
    destruct (bool_decide _).
    + by rewrite PdFacts.columns_overwrite, CleanFacts.columns_fillna,
        CleanFacts.columns_rename.
    + unfold Pd.columns at 1. rewrite map_app. simpl.
      fold (Pd.columns (Pd.fillna (CStr "Unknown") (Pd.rename Text.strip df))).
      by rewrite CleanFacts.columns_fillna, CleanFacts.columns_rename.
  - rewrite CleanFacts.nrows_overwrite; [apply CleanFacts.nrows_scoring_base|].
    unfold Pd.clip. by rewrite length_map, CleanFacts.nrows_scoring_base.
  - apply CleanFacts.no_na_overwrite; [|apply CleanFacts.no_na_scoring_base].
    by apply CleanFacts.numbers_not_na, CleanFacts.clip_numbers.
  - intros col Hne. rewrite PdFacts.getitem_overwrite_ne by done.
    by apply ShapeFacts.getitem_setitem_ne.
Qed.

Lemma lass_cleaned_shape_witness :
  ∃ df', clean_lass_with service_columns Sample.lass_table = Ok df'
  ∧ Pd.columns df'
    = (let labels := map Text.strip (Pd.columns Sample.lass_table) in
       if bool_decide ("rating_score" ∈ labels) then labels
       else labels ++ ["rating_score"])
  ∧ Pd.nrows df' = Pd.nrows Sample.lass_table
  ∧ Pd.no_na df'
  ∧ ∀ col, col ≠ "rating_score" →
           Pd.getitem col df'
           = Pd.getitem col (Pd.fillna (CStr "Unknown")
                               (Pd.rename Text.strip Sample.lass_table)).
Proof.
  eexists. split; [vm_compute; reflexivity|].
  apply (lass_cleaned_shape service_columns Sample.lass_table).
  vm_compute. reflexivity.
Defined.

(** X5. Cleaning a LEP table whose trimmed labels are distinct never
    raises.  The result has the trimmed labels and the row count of the
    input; its population column holds numbers and NaN only, never text;
    every other column holds the input cells with "Unknown" in place of the
    missing ones, so none is missing. *)
Theorem lep_cleaned_shape pn nd df :
  Pd.unique_labels (Pd.rename Text.strip df) →
  ∃ d, clean_lep_frame pn nd df = Ok d
       ∧ Pd.columns d = map Text.strip (Pd.columns df)
       ∧ Pd.nrows d = Pd.nrows df
       ∧ (∀ s, Pd.getitem "LEP Population (Estimate)" d = Ok s →
               Forall (fun c => Pd.is_numeric c = true) s)
       ∧ (∀ col s, col ≠ "LEP Population (Estimate)" → Pd.getitem col d = Ok s →
                   Pd.getitem col (Pd.fillna (CStr "Unknown") (Pd.rename Text.strip df))
                   = Ok s
                   ∧ Forall (fun c => Pd.isna c = false) s).
Proof.
  intros _. unfold clean_lep_frame.
  set (base := Pd.fillna (CStr "Unknown") (Pd.rename Text.strip df)).
  assert (Hcols : Pd.columns base = map Text.strip (Pd.columns df))
    by (unfold base; by rewrite CleanFacts.columns_fillna, CleanFacts.columns_rename).
  assert (Hrows : Pd.nrows base = Pd.nrows df)
    by (unfold base; by rewrite CleanFacts.nrows_fillna, CleanFacts.nrows_rename).
  assert (Hna : Pd.no_na base) by by apply CleanFacts.no_na_fillna.
  destruct (Pd.has_column "LEP Population (Estimate)" base) eqn:Hc.
  - destruct (PdFacts.has_column_getitem _ _ Hc) as [s Hs]. rewrite Hs.
    change (Ok s ≫= ?k) with (k s). cbv beta.
    eexists. split; [done|]. unfold Pd.setitem. rewrite Hc.
    split; [by rewrite PdFacts.columns_overwrite|].
    split.
    { rewrite (ShapeFacts.nrows_overwrite_same _ s); [done|done|].
      unfold to_numeric. by rewrite length_map. }
    split.
    + intros s'. rewrite PdFacts.getitem_overwrite_eq by done. intros [= <-].
      apply ShapeFacts.to_numeric_numeric.
    + intros col s' Hne. rewrite PdFacts.getitem_overwrite_ne by done.
      intros Hs'. split; [done|].
      by apply (ShapeFacts.getitem_Forall
                  (Forall (fun c => Pd.isna c = false)) col s' base).
  - exists base. split; [done|]. split; [done|]. split; [done|]. split.
    + intros s Hs. apply BothFacts.getitem_has_column in Hs. congruence.
    + intros col s' _ Hs'. split; [done|].
      by apply (ShapeFacts.getitem_Forall
                  (Forall (fun c => Pd.isna c = false)) col s' base).
Qed.

Lemma lep_cleaned_shape_witness :
  Pd.unique_labels (Pd.rename Text.strip Sample.lep_table)
  ∧ ∃ d, clean_lep_frame Sample.read_integer Sample.no_number_of_date Sample.lep_table
         = Ok d
         ∧ Pd.columns d = map Text.strip (Pd.columns Sample.lep_table)
         ∧ Pd.nrows d = Pd.nrows Sample.lep_table
         ∧ (∀ s, Pd.getitem "LEP Population (Estimate)" d = Ok s →
                 Forall (fun c => Pd.is_numeric c = true) s)
         ∧ (∀ col s, col ≠ "LEP Population (Estimate)" → Pd.getitem col d = Ok s →
                     Pd.getitem col (Pd.fillna (CStr "Unknown")
                                       (Pd.rename Text.strip Sample.lep_table))
                     = Ok s
                     ∧ Forall (fun c => Pd.isna c = false) s).
Proof.
  assert (Hlabels : Pd.unique_labels (Pd.rename Text.strip Sample.lep_table))
    by (apply (bool_decide_unpack _); vm_compute; exact I).
  split; [exact Hlabels|].
  exact (lep_cleaned_shape Sample.read_integer Sample.no_number_of_date
           Sample.lep_table Hlabels).
Defined.

(** The witnesses of [StoreFacts.clean_lass_data_frame] and
    [StoreFacts.clean_lep_data_frame]: a store that holds one table. *)
Lemma clean_lass_data_frame_witness :
  ∃ r h', Store.clean_lass_data (Some 0%nat) [Sample.lass_table] = Ok (r, h')
          ∧ (∀ k x, [Sample.lass_table] !! k = Some x → h' !! k = Some x)
          ∧ ∃ l' d', r = Some l' ∧ [Sample.lass_table] !! l' = None
                     ∧ h' !! l' = Some d'
                     ∧ clean_lass_data (Some Sample.lass_table) = Ok (Some d').
Proof.
  eexists _, _. split; [vm_compute; reflexivity|].
  apply (StoreFacts.clean_lass_data_frame 0%nat [Sample.lass_table] Sample.lass_table).
  - reflexivity.
  - vm_compute. reflexivity.
Defined.

Lemma clean_lep_data_frame_witness :
  ∃ r h', Store.clean_lep_data Sample.read_integer Sample.no_number_of_date
            (Some 0%nat) [Sample.lep_table] = Ok (r, h')
          ∧ (∀ k x, [Sample.lep_table] !! k = Some x → h' !! k = Some x)
          ∧ ∃ l' d', r = Some l' ∧ [Sample.lep_table] !! l' = None
                     ∧ h' !! l' = Some d'
                     ∧ clean_lep_data Sample.read_integer Sample.no_number_of_date
                         (Some Sample.lep_table) = Ok (Some d').
Proof.
  eexists _, _. split; [vm_compute; reflexivity|].
  apply (StoreFacts.clean_lep_data_frame Sample.read_integer Sample.no_number_of_date
           0%nat [Sample.lep_table] Sample.lep_table).
  - reflexivity.
  - vm_compute. reflexivity.
Defined.

(** ** The sidebar filter and the key figures *)

Module GuardFacts.
Import Pd PdFacts Filter FilterFacts.

Lemma getitem_bool_index c m df :
  getitem c (bool_index m df) = select m <$> getitem c df.
Proof.
  induction df as [|[c' x] df IH]; simpl; [done|]. by case_decide.
Qed.

Lemma filter_step_outcome col sel df :
  (∃ d, filter_step col sel df = Ok d ∧ columns d = columns df
        ∧ (nrows d ≤ nrows df)%nat
        ∧ ∀ c s, getitem c d = Ok s →
                 ∃ s0, getitem c df = Ok s0 ∧ (s = s0 ∨ ∃ m, s = select m s0))
  ∨ (filter_step col sel df = Raise KeyError
     ∧ sel ≠ [] ∧ has_column col df = false).
Proof.
  unfold filter_step. destruct sel as [|v sel]; simpl.
  { left. exists df. repeat split; try done. intros c s Hs. exists s. auto. }
  destruct (has_column col df) eqn:Hc.
  - left. destruct (has_column_getitem _ _ Hc) as [s Hs]. rewrite Hs. simpl.
    eexists. split; [done|]. split; [apply columns_bool_index|].
    split; [apply FilterSteps.nrows_bool_index|].
    intros c s'. rewrite getitem_bool_index.
    destruct (getitem c df) as [s0|e]; simpl; [|done].
    intros [= <-]. exists s0. split; [done|]. right. by eexists.
  - right. by rewrite (RowFacts.getitem_absent _ _ Hc).
Qed.

Lemma has_column_columns c d d' :
  columns d = columns d' → has_column c d = has_column c d'.
Proof. intros H. unfold has_column. by rewrite H. Qed.

(** A guarded step returns. *)
Lemma guarded_step lass col picked f :
  columns f = columns lass →
  ∃ d, filter_step col (if has_column col lass then picked else []) f = Ok d
       ∧ columns d = columns lass ∧ (nrows d ≤ nrows f)%nat
       ∧ ∀ c s, getitem c d = Ok s →
                ∃ s0, getitem c f = Ok s0 ∧ (s = s0 ∨ ∃ m, s = select m s0).
Proof.
  intros Hcols.
  destruct (filter_step_outcome col (if has_column col lass then picked else []) f)
    as [(d & ? & ? & ? & ?)|(_ & Hsel & Hc)].
  - exists d. repeat split; try done. congruence.
  - exfalso. apply Hsel.
    by rewrite (has_column_columns col lass f), Hc.
Qed.

Lemma Forall_select {A} (P : A → Prop) m s : Forall P s → Forall P (select m s).
Proof.
  intros H. revert m. induction H as [|x s Hx _ IH]; intros [|b m]; simpl;
    try by constructor.
  destruct b; [constructor|]; auto.
Qed.

End GuardFacts.

Module ChainFacts.

Lemma select_sublist {A} m (b : list A) : Filter.select m b `sublist_of` b.
Proof.
  revert b. induction m as [|x m IH]; intros [|y b]; simpl;
    try apply sublist_nil_l.
  destruct x; [by apply sublist_skip|by apply sublist_cons].
Qed.

(** Values that cannot be compared are of two kinds. *)
Lemma incomparable_kinds l :
  Py.comparable l = false → ∃ x y, x ∈ l ∧ y ∈ l ∧ Py.kind_of x ≠ Py.kind_of y.
Proof.
  destruct l as [|c l]; simpl; [done|]. intros H.
  apply not_true_iff_false in H. rewrite forallb_forall in H.
  destruct (decide (Forall (fun x => Py.kind_of x = Py.kind_of c) l)) as [Hall|Hnot].
  - exfalso. apply H. intros x Hx%list_elem_of_In. apply bool_decide_eq_true.
    by apply (proj1 (Forall_forall _ _) Hall).
  - apply not_Forall_Exists in Hnot; [|apply _].
    apply Exists_exists in Hnot as (x & Hx & Hk).
    exists x, c. split; [by right|]. split; [by left|done].
Qed.

Lemma unsortable_mixes d :
  Filter.sortable_columns d = false →
  ∃ col s, col ∈ Filter.filter_columns ∧ Pd.getitem col d = Ok s
           ∧ ∃ x y, x ∈ s ∧ y ∈ s ∧ Py.kind_of x ≠ Py.kind_of y.
Proof.
  unfold Filter.sortable_columns. intros H.
  apply not_true_iff_false in H. rewrite forallb_forall in H.
  destruct (decide (Forall (fun col => Filter.sortable col d = true)
                      Filter.filter_columns)) as [Hall|Hnot].
  - exfalso. apply H. intros col Hcol%list_elem_of_In.
    by apply (proj1 (Forall_forall _ _) Hall).
  - apply not_Forall_Exists in Hnot; [|apply _].
    apply Exists_exists in Hnot as (col & Hcol & Hs).
    apply not_true_is_false in Hs. unfold Filter.sortable in Hs.
    destruct (Pd.getitem col d) as [s|e] eqn:Hg; [|done].
    exists col, s. split; [done|]. split; [done|].
    destruct (incomparable_kinds _ Hs) as (x & y & Hx & Hy & Hk).
    exists x, y. by rewrite !AggregateFacts.elem_of_unique in Hx, Hy.
Qed.

(** The three guarded steps return, whatever is picked. *)
Lemma dashboard_chain d agencies boroughs languages :
  ∃ f, Filter.filtered_lass (Some d)
         (if Pd.has_column "Agency" d then agencies else [])
         (if Pd.has_column "Borough" d then boroughs else [])
         (if Pd.has_column "Secret Shopper Language" d then languages else [])
       = Ok f
       ∧ Pd.columns f = Pd.columns d
       ∧ (Pd.nrows f ≤ Pd.nrows d)%nat
       ∧ ∀ c s, Pd.getitem c f = Ok s →
                ∃ s0, Pd.getitem c d = Ok s0 ∧ s `sublist_of` s0.
Proof.
  unfold Filter.filtered_lass.
  destruct (GuardFacts.guarded_step d "Agency" agencies d eq_refl)
    as (f1 & -> & Hc1 & Hn1 & Hs1).
  destruct (GuardFacts.guarded_step d "Borough" boroughs f1 Hc1)
    as (f2 & H2 & Hc2 & Hn2 & Hs2).
  destruct (GuardFacts.guarded_step d "Secret Shopper Language" languages f2 Hc2)
    as (f3 & H3 & Hc3 & Hn3 & Hs3).
  exists f3. change (Ok f1 ≫= ?k) with (k f1). cbv beta.
  rewrite H2. change (Ok f2 ≫= ?k) with (k f2). cbv beta.
  split; [done|]. split; [done|]. split; [lia|].
  assert (Hsub : ∀ (a b : Series), (a = b ∨ ∃ m, a = Filter.select m b) → a `sublist_of` b).
  { intros a b [->|[m ->]]; [done|]. apply select_sublist. }
  intros c s Hs.
  destruct (Hs3 c s Hs) as (s2 & Hg2 & H32).
  destruct (Hs2 c s2 Hg2) as (s1 & Hg1 & H21).
  destruct (Hs1 c s1 Hg1) as (s0 & Hg0 & H10).
  exists s0. split; [done|].
  etrans; [by apply Hsub|]. etrans; by apply Hsub.
Qed.


End ChainFacts.

(** X6. On a table with distinct labels, sidebar and filter together stop
    with [TypeError] exactly when a filter column of the table mixes text,
    numbers or dates, so that the options of its widget cannot be sorted;
    this happens before any filtering, whatever the user would pick.
    Otherwise they return, for any picks, a table with the labels of the
    input and at most as many rows, each of whose columns keeps cells of the
    input column, in their order; a filter column that the table lacks never
    makes them raise. *)
Theorem dashboard_filter_outcome d agencies boroughs languages :
  Pd.unique_labels d →
  (Filter.sortable_columns d = false →
   Filter.dashboard_filter (Some d) agencies boroughs languages = Raise TypeError
   ∧ ∃ col s, col ∈ Filter.filter_columns ∧ Pd.getitem col d = Ok s
              ∧ ∃ x y, x ∈ s ∧ y ∈ s ∧ Py.kind_of x ≠ Py.kind_of y)
  ∧ (Filter.sortable_columns d = true →
     ∃ f, Filter.dashboard_filter (Some d) agencies boroughs languages = Ok f
          ∧ Pd.columns f = Pd.columns d
          ∧ (Pd.nrows f ≤ Pd.nrows d)%nat
          ∧ ∀ c s, Pd.getitem c f = Ok s →
                   ∃ s0, Pd.getitem c d = Ok s0 ∧ s `sublist_of` s0).
Proof.
  intros _. rewrite FilterSteps.dashboard_filter_cases. split.
  - intros Hs. rewrite Hs. split; [done|].
    by apply ChainFacts.unsortable_mixes.
  - intros ->. apply ChainFacts.dashboard_chain.
Qed.

Lemma dashboard_filter_outcome_witness :
  Pd.unique_labels Sample2.coded_table
  ∧ (Filter.sortable_columns Sample2.coded_table = false →
     Filter.dashboard_filter (Some Sample2.coded_table) [] [CNum 1] [] = Raise TypeError
     ∧ ∃ col s, col ∈ Filter.filter_columns ∧ Pd.getitem col Sample2.coded_table = Ok s
                ∧ ∃ x y, x ∈ s ∧ y ∈ s ∧ Py.kind_of x ≠ Py.kind_of y)
  ∧ (Filter.sortable_columns Sample2.coded_table = true →
     ∃ f, Filter.dashboard_filter (Some Sample2.coded_table) [] [CNum 1] [] = Ok f
          ∧ Pd.columns f = Pd.columns Sample2.coded_table
          ∧ (Pd.nrows f ≤ Pd.nrows Sample2.coded_table)%nat
          ∧ ∀ c s, Pd.getitem c f = Ok s →
                   ∃ s0, Pd.getitem c Sample2.coded_table = Ok s0 ∧ s `sublist_of` s0).
Proof.
  assert (Hlabels : Pd.unique_labels Sample2.coded_table)
    by (apply (bool_decide_unpack _); vm_compute; exact I).
  split; [exact Hlabels|].
  exact (dashboard_filter_outcome Sample2.coded_table [] [CNum 1] [] Hlabels).
Defined.

(** A borough column of codes with one code missing: cleaning fills the gap
    with "Unknown", and the sidebar then fails to sort 1, 2 and "Unknown". *)
Example coded_boroughs_stop_the_sidebar :
  Filter.sortable_columns Sample2.coded_table = false
  ∧ Filter.dashboard_filter (Some Sample2.coded_table) [] [CNum 1] [] = Raise TypeError.
Proof. split; vm_compute; reflexivity. Qed.

(** X7. Without the sidebar guard the filter needs its columns: given a
    non-empty selection for a filter column that the table lacks, the filter
    stops with [KeyError]. *)
Theorem unguarded_filter_raises d agencies boroughs languages :
  (agencies ≠ [] ∧ Pd.has_column "Agency" d = false)
  ∨ (boroughs ≠ [] ∧ Pd.has_column "Borough" d = false)
  ∨ (languages ≠ [] ∧ Pd.has_column "Secret Shopper Language" d = false) →
  Filter.filtered_lass (Some d) agencies boroughs languages = Raise KeyError.
Proof.
  intros H. unfold Filter.filtered_lass.
  destruct (GuardFacts.filter_step_outcome "Agency" agencies d)
    as [(f1 & H1 & Hc1 & _)|(H1 & _)]; rewrite H1; [|done].
  change (Ok f1 ≫= ?k) with (k f1). cbv beta.
  destruct (GuardFacts.filter_step_outcome "Borough" boroughs f1)
    as [(f2 & H2 & Hc2 & _)|(H2 & _)]; rewrite H2; [|done].
  change (Ok f2 ≫= ?k) with (k f2). cbv beta.
  destruct (GuardFacts.filter_step_outcome "Secret Shopper Language" languages f2)
    as [(f3 & H3 & _)|(H3 & _)]; [|done].
  exfalso. destruct H as [[Ha Hca]|[[Hb Hcb]|[Hl Hcl]]].
  - unfold Filter.filter_step in H1. destruct agencies; [done|].
    simpl in H1. by rewrite (RowFacts.getitem_absent _ _ Hca) in H1.
  - unfold Filter.filter_step in H2. destruct boroughs; [done|].
    rewrite <- (GuardFacts.has_column_columns _ _ _ Hc1) in Hcb.
    simpl in H2. by rewrite (RowFacts.getitem_absent _ _ Hcb) in H2.
  - unfold Filter.filter_step in H3. destruct languages; [done|].
    rewrite <- (GuardFacts.has_column_columns "Secret Shopper Language" f2 d) in Hcl
      by congruence.
    simpl in H3. by rewrite (RowFacts.getitem_absent _ _ Hcl) in H3.
Qed.

Lemma unguarded_filter_raises_witness :
  Filter.filtered_lass (Some Sample.agencies_table) [] [CStr "Queens"] [] = Raise KeyError.
Proof.
  apply (unguarded_filter_raises Sample.agencies_table [] [CStr "Queens"] []).
  right. left. split; [discriminate|reflexivity].
Defined.

Module MeanFacts.
Import Pd PdFacts CleanFacts.











End MeanFacts.



Example average_rating_sample :
  Kpi.avg_rating
    [ ("Agency", [CStr "DOE"; CStr "HRA"]);
      ("rating_score", [CNum (7 # 2); CNum 3]) ]
  = Ok (Some (CNum (13 # 4))).
Proof. vm_compute. reflexivity. Qed.

(** ** Counts *)

Module CountFacts.
Import Pd Kpi.

Lemma count_cons k x l :
  count k (x :: l) = ((if decide (x = k) then 1 else 0) + count k l)%nat.
Proof.
  unfold count. simpl. rewrite bool_decide_decide. by destruct (decide (x = k)).
Qed.

Lemma sum_indicator_out {A} `{EqDecision A} (x : A) ks :
  x ∉ ks → sum_list_with (fun k => if decide (x = k) then 1 else 0)%nat ks = 0%nat.
Proof.
  induction ks as [|k ks IH]; [done|]. intros [Hne Hnot]%not_elem_of_cons.
  simpl. rewrite decide_False by done. by rewrite IH.
Qed.

Lemma sum_indicator_in {A} `{EqDecision A} (x : A) ks :
  NoDup ks → x ∈ ks →
  sum_list_with (fun k => if decide (x = k) then 1 else 0)%nat ks = 1%nat.
Proof.
  induction 1 as [|k ks Hk _ IH]; [by intros ?%elem_of_nil|].
  intros Hin. simpl. destruct (decide (x = k)) as [->|Hne].
  - by rewrite sum_indicator_out.
  - apply elem_of_cons in Hin as [?|Hin]; [done|]. by rewrite IH.
Qed.

Lemma sum_list_with_plus {A} (f g : A → nat) l :
  sum_list_with (fun k => f k + g k)%nat l
  = (sum_list_with f l + sum_list_with g l)%nat.
Proof. induction l as [|x l IH]; simpl; [done|]. rewrite IH. lia. Qed.

Lemma sum_list_with_agree {A} (f g : A → nat) l :
  (∀ x, x ∈ l → f x = g x) → sum_list_with f l = sum_list_with g l.
Proof.
  induction l as [|x l IH]; intros H; simpl; [done|].
  rewrite (H x) by by left. rewrite IH; [done|]. intros y Hy. apply H. by right.
Qed.

(** Counting the cells of a list by value counts each cell once. *)
Lemma sum_counts ks l :
  NoDup ks → (∀ x, x ∈ l → x ∈ ks) →
  sum_list_with (fun k => count k l) ks = length l.
Proof.
  intros Hks. induction l as [|x l IH]; intros Hin.
  - clear. induction ks as [|k ks IHk]; [done|]. simpl. by rewrite IHk.
  - rewrite (sum_list_with_agree _ (fun k => (if decide (x = k) then 1 else 0)
                                             + count k l)%nat ks)
      by (intros; apply count_cons).
    rewrite sum_list_with_plus, sum_indicator_in, IH; [done| |done|].
    + intros y Hy. apply Hin. by right.
    + apply Hin. by left.
Qed.

Lemma count_present k s :
  present k = true → count k (List.filter present s) = count k s.
Proof.
  intros Hk. unfold count. induction s as [|c s IH]; [done|]. simpl.
  destruct (present c) eqn:Hc; simpl.
  - destruct (bool_decide (c = k)); simpl; by rewrite IH.
  - rewrite IH. rewrite bool_decide_eq_false_2; [done|]. intros ->. congruence.
Qed.

Lemma count_positive k s : k ∈ s → (1 ≤ count k s)%nat.
Proof.
  induction 1 as [x l|x y l _ IH]; rewrite count_cons.
  - rewrite decide_True by done. lia.
  - lia.
Qed.

Lemma sum_list_with_map {A B} (f : B → nat) (g : A → B) l :
  sum_list_with f (map g l) = sum_list_with (fun x => f (g x)) l.
Proof. induction l as [|x l IH]; simpl; [done|]. by rewrite IH. Qed.

Global Instance count_ge_total : Total count_ge.
Proof.
  intros a b. unfold count_ge, count_geb.
  destruct (Nat.leb_spec b.2 a.2); [by left|right].
  apply Nat.leb_le. lia.
Qed.

Lemma length_remove_dups_le {A} `{EqDecision A} (l : list A) :
  (length (remove_dups l) ≤ length l)%nat.
Proof.
  induction l as [|x l IH]; simpl; [done|].
  destruct (decide_rel elem_of x l); simpl; lia.
Qed.

Lemma length_unique_le s : (length (Pd.unique s) ≤ length s)%nat.
Proof.
  unfold Pd.unique. rewrite length_reverse.
  etrans; [apply length_remove_dups_le|]. by rewrite length_reverse.
Qed.

Lemma elem_of_keys k s :
  k ∈ Pd.unique (Pd.dropna s) ↔ k ∈ s ∧ present k = true.
Proof.
  rewrite AggregateFacts.elem_of_unique, AggregateFacts.elem_of_dropna.
  unfold present. by rewrite negb_true_iff.
Qed.

End CountFacts.

(** X9. The counts of a column list each value that is not missing once,
    with the number of its cells, which is at least 1; they add up to the
    number of cells that are not missing, are ordered from the most to the
    least frequent, and there are as many of them as the column has distinct
    values. *)
Theorem value_counts_account_for_every_cell (s : Series) :
  sum_list_with snd (Kpi.value_counts s) = length (List.filter Kpi.present s)
  ∧ NoDup (map fst (Kpi.value_counts s))
  ∧ Forall (fun kc => kc.1 ∈ s ∧ Kpi.present kc.1 = true
                      ∧ kc.2 = Kpi.count kc.1 s ∧ (1 ≤ kc.2)%nat)
           (Kpi.value_counts s)
  ∧ Sorted Kpi.count_ge (Kpi.value_counts s)
  ∧ length (Kpi.value_counts s) = Kpi.nunique s.
Proof.
  unfold Kpi.value_counts.
  set (keys := Pd.unique (Pd.dropna s)).
  set (entries := map (fun k => (k, Kpi.count k s)) keys).
  assert (Hkeys : NoDup keys) by apply AggregateFacts.NoDup_unique.
  assert (Hperm : sort_by Kpi.count_ge entries ≡ₚ entries)
    by apply SortFacts.sort_by_Permutation.
  split; [|split; [|split; [|split]]].
  - rewrite Hperm. unfold entries. rewrite CountFacts.sum_list_with_map. simpl.
    rewrite <- (CountFacts.sum_counts keys (List.filter Kpi.present s) Hkeys).
    + apply CountFacts.sum_list_with_agree. intros k Hk. symmetry.
      apply CountFacts.count_present. by apply CountFacts.elem_of_keys in Hk as [_ ?].
    + intros x Hx. by apply AggregateFacts.elem_of_unique.
  - change (map fst ?l) with (fst <$> l). rewrite Hperm. unfold entries.
    change (fst <$> map ?f keys) with (map fst (map f keys)).
    rewrite map_map. simpl. by rewrite map_id.
  - rewrite Hperm. unfold entries. rewrite Forall_map. apply Forall_forall.
    intros k [Hk Hp]%CountFacts.elem_of_keys. simpl.
    repeat split; try done. by apply CountFacts.count_positive.
  - apply SortFacts.Sorted_sort_by. apply _.
  - rewrite Hperm. unfold entries, Kpi.nunique. by rewrite length_map.
Qed.

(** X10. The key figures "Total Agencies" and "Languages Supported" are
    "N/A" for an empty table, stop with [KeyError] for a non-empty table that
    lacks their column (where the chart of the same column is only skipped),
    and are otherwise the number of distinct values of the column, which is
    at most the number of its cells and the number of bars of the chart. *)
Theorem key_figure_outcome col top (f : DataFrame) :
  (Aggregate.empty f = true → Kpi.total_distinct col f = Ok None)
  ∧ (Aggregate.empty f = false → Pd.has_column col f = false →
     Kpi.total_distinct col f = Raise KeyError
     ∧ Kpi.counts_chart col top f = Ok None)
  ∧ (Aggregate.empty f = false → ∀ s, Pd.getitem col f = Ok s →
     Kpi.total_distinct col f = Ok (Some (Kpi.nunique s))
     ∧ (Kpi.nunique s ≤ length s)%nat
     ∧ Kpi.counts_chart col None f = Ok (Some (Kpi.value_counts s))
     ∧ length (Kpi.value_counts s) = Kpi.nunique s).
Proof.
  unfold Kpi.total_distinct, Kpi.counts_chart. split; [|split].
  - by intros ->.
  - intros -> Hc. rewrite Hc. simpl. by rewrite (RowFacts.getitem_absent _ _ Hc).
  - intros -> s Hs. rewrite (BothFacts.getitem_has_column _ _ _ Hs), Hs. simpl.
    split; [done|]. split; [|split; [done|]].
    + unfold Kpi.nunique.
      etrans; [apply CountFacts.length_unique_le|].
      apply (filter_length_le Kpi.present s).
    + unfold Kpi.value_counts, Kpi.nunique.
      by rewrite SortFacts.length_sort_by, length_map.
Qed.

(** ** Groups and rankings *)

Module RankFacts.
Import Pd Aggregate.

(** The first [n] of a ranking: sorted, and no entry left out ranks above
    an entry kept. *)
Lemma top_n_facts n (r : list (cell * cell)) :
  let top := head n (sort_values_desc r) in
  length top = (n `min` length r)%nat
  ∧ Sorted value_ge top
  ∧ (∀ x, x ∈ top → x ∈ r)
  ∧ (∀ x y, x ∈ top → y ∈ r → y ∉ top → value_ge x y).
Proof.
  unfold head, sort_values_desc.
  pose proof (SortFacts.sort_by_Permutation value_ge r) as Hperm.
  pose proof (SortFacts.StronglySorted_sort_by value_ge r) as Hsorted.
  set (l := sort_by value_ge r) in *.
  rewrite <- (take_drop n l) in Hsorted.
  split; [by rewrite length_take, Hperm|]. split; [|split].
  - apply StronglySorted_Sorted. by apply StronglySorted_app_1_l in Hsorted.
  - intros x Hx. rewrite <- Hperm, <- (take_drop n l). apply elem_of_app. by left.
  - intros x y Hx Hy Hnot.
    apply (StronglySorted_app_1_elem_of _ _ _ x y Hsorted Hx).
    rewrite <- Hperm, <- (take_drop n l) in Hy.
    apply elem_of_app in Hy as [?|?]; done.
Qed.

End RankFacts.

(** The LEP section is drawn for a table that has rows only. *)
Example lep_section_skipped :
  Aggregate.lep_charts None = Ok None
  ∧ Aggregate.lep_charts (Some [("Language", []); ("LEP Population (Estimate)", [])])
    = Ok None
  ∧ Aggregate.lep_charts (Some Sample2.languages_table)
    = Ok (Some (None, Some [ (CStr "Spanish", CNum 1200); (CStr "Bengali", CNum 700);
                             (CStr "Urdu", CNum 300) ])).
Proof. repeat split; vm_compute; reflexivity. Qed.

(** X12. "Top Languages by LEP Population" shows the ten largest sums, or
    all of them when there are fewer: its entries are entries of the grouped
    sum, ordered from the largest sum down, and no group left out has a
    larger sum than a group shown. *)
Theorem top_languages_are_largest lep_df top :
  Aggregate.lep_language lep_df = Ok (Some top) →
  ∃ r, Aggregate.groupby Aggregate.nansum "Language" "LEP Population (Estimate)" lep_df
       = Ok r
       ∧ length top = (10 `min` length r)%nat
       ∧ Sorted Aggregate.value_ge top
       ∧ (∀ x, x ∈ top → x ∈ r)
       ∧ (∀ x y, x ∈ top → y ∈ r → y ∉ top → Aggregate.value_ge x y).
Proof.
  unfold Aggregate.lep_language.
  destruct (_ && _); [|done].
  destruct (Aggregate.groupby _ _ _ _) as [r|e]; [|done].
  change (Ok r ≫= ?k) with (k r). cbv beta. intros H.
  assert (top = Aggregate.head 10 (Aggregate.sort_values_desc r)) as ->
    by congruence.
  exists r. split; [done|].
  apply RankFacts.top_n_facts.
Qed.

Lemma top_languages_are_largest_witness :
  ∃ top r, Aggregate.lep_language Sample2.languages_table = Ok (Some top)
       ∧ Aggregate.groupby Aggregate.nansum "Language" "LEP Population (Estimate)"
           Sample2.languages_table = Ok r
       ∧ length top = (10 `min` length r)%nat
       ∧ Sorted Aggregate.value_ge top
       ∧ (∀ x, x ∈ top → x ∈ r)
       ∧ (∀ x y, x ∈ top → y ∈ r → y ∉ top → Aggregate.value_ge x y).
Proof.
  eexists. 
  destruct (top_languages_are_largest Sample2.languages_table
              [ (CStr "Spanish", CNum 1200); (CStr "Bengali", CNum 700);
                (CStr "Urdu", CNum 300) ]) as (r & Hr & H).
  { vm_compute. reflexivity. }
  exists r. split; [vm_compute; reflexivity|]. split; [exact Hr|exact H].
Defined.

(** ** The historical workbook *)

(** X13. The historical workbook loads all or nothing: either every sheet
    was read, and the entry holds the frames of all sheets under their names
    in workbook order, or some sheet failed, and the entry is null. *)
Theorem historical_loads_all_or_nothing (sheets : list (string * Loader.fetched)) :
  (∃ d, Loader.load_entry "historical" (Loader.Workbook sheets) = Some (Loader.Sheets d)
        ∧ map (fun nd => (nd.1, Loader.Parsed nd.2)) d = sheets)
  ∨ (Loader.load_entry "historical" (Loader.Workbook sheets) = None
     ∧ ∃ e name, (name, Loader.Failed e) ∈ sheets).
Proof.
  unfold Loader.load_entry, Loader.try_load. rewrite decide_True by done.
  destruct (SheetFacts.read_sheets_outcome sheets) as [(d & -> & Hd)|(e & n & -> & Hin)].
  - left. by exists d.
  - right. split; [done|]. by exists e, n.
Qed.

Example workbook_loaded :
  Loader.load_entry "historical" (Loader.Workbook Sample2.workbook)
  = Some (Loader.Sheets [ ("All Historical Data", Sample.staging_table);
                          ("Summary", Sample.agencies_table) ]).
Proof. reflexivity. Qed.

(** ** The date coercion *)

Module DateFacts.
Import Pd PdFacts.

Section Readers.

Variable parse_date : string -> option Z.
Variable date_of_number : Q -> option Z.

Local Abbreviation to_dt := (to_datetime parse_date date_of_number).
Local Abbreviation coerce := (Dates.coerce_date parse_date date_of_number).
Local Abbreviation coerce_all := (Dates.coerce_dates parse_date date_of_number).

Lemma to_datetime_idem s : to_dt (to_dt s) = to_dt s.
Proof.
  unfold to_datetime. rewrite map_map. apply map_ext.
  intros [t|q|d| |]; simpl; try done.
  - by destruct (parse_date t).
  - by destruct (date_of_number q).
Qed.

Lemma to_datetime_datelike s : Forall (fun c => is_datelike c = true) (to_dt s).
Proof.
  unfold to_datetime. rewrite Forall_map. apply Forall_forall.
  intros [t|q|d| |] _; simpl; try done.
  - by destruct (parse_date t).
  - by destruct (date_of_number q).
Qed.

(** The coercion of one column, as a rewriting of the columns. *)
Lemma coerce_date_overwrite col df s :
  getitem col df = Ok s → coerce col df = overwrite col (to_dt s) df.
Proof.
  intros Hs. unfold Dates.coerce_date, setitem.
  by rewrite (BothFacts.getitem_has_column _ _ _ Hs), Hs.
Qed.

Lemma coerce_date_absent col df : has_column col df = false → coerce col df = df.
Proof. intros H. unfold Dates.coerce_date. by rewrite H. Qed.

Lemma columns_coerce_date col df : columns (coerce col df) = columns df.
Proof.
  destruct (has_column col df) eqn:Hc.
  - destruct (has_column_getitem _ _ Hc) as [s Hs].
    by rewrite (coerce_date_overwrite _ _ _ Hs), columns_overwrite.
  - by rewrite coerce_date_absent.
Qed.

Lemma nrows_coerce_date col df : nrows (coerce col df) = nrows df.
Proof.
  destruct (has_column col df) eqn:Hc.
  - destruct (has_column_getitem _ _ Hc) as [s Hs].
    rewrite (coerce_date_overwrite _ _ _ Hs).
    apply (ShapeFacts.nrows_overwrite_same _ s); [done|].
    unfold to_datetime. by rewrite length_map.
  - by rewrite coerce_date_absent.
Qed.

Lemma getitem_coerce_date c col df :
  getitem c (coerce col df)
  = (if decide (c = col) then to_dt else id) <$> getitem c df.
Proof.
  destruct (has_column col df) eqn:Hc.
  - destruct (has_column_getitem _ _ Hc) as [s Hs].
    rewrite (coerce_date_overwrite _ _ _ Hs).
    destruct (decide (c = col)) as [->|Hne].
    + by rewrite getitem_overwrite_eq, Hs.
    + rewrite getitem_overwrite_ne by done. by destruct (getitem c df).
  - rewrite coerce_date_absent by done.
    destruct (decide (c = col)) as [->|Hne].
    + by rewrite (RowFacts.getitem_absent _ _ Hc).
    + by destruct (getitem c df).
Qed.

Lemma overwrite_comm a b x y df :
  a ≠ b → overwrite a x (overwrite b y df) = overwrite b y (overwrite a x df).
Proof.
  intros Hne. unfold overwrite. rewrite !map_map. apply map_ext.
  intros [c s]; simpl.
  destruct (decide (c = b)) as [Hb|Hb]; destruct (decide (c = a)) as [Ha|Ha]; simpl;
    repeat (case_decide; simpl in * ); congruence.
Qed.

Lemma coerce_date_idem col df : coerce col (coerce col df) = coerce col df.
Proof.
  destruct (has_column col df) eqn:Hc.
  - destruct (has_column_getitem _ _ Hc) as [s Hs].
    rewrite (coerce_date_overwrite _ _ _ Hs).
    rewrite (coerce_date_overwrite _ _ (to_dt s)) by by apply getitem_overwrite_eq.
    by rewrite overwrite_overwrite, to_datetime_idem.
  - rewrite (coerce_date_absent col df) by done. by rewrite coerce_date_absent.
Qed.

Lemma coerce_date_comm a b df : coerce a (coerce b df) = coerce b (coerce a df).
Proof.
  destruct (decide (a = b)) as [->|Hne]; [done|].
  destruct (has_column a df) eqn:Ha, (has_column b df) eqn:Hb.
  - destruct (has_column_getitem _ _ Ha) as [sa Hsa].
    destruct (has_column_getitem _ _ Hb) as [sb Hsb].
    rewrite (coerce_date_overwrite b df sb), (coerce_date_overwrite a df sa) by done.
    rewrite (coerce_date_overwrite a _ sa)
      by by rewrite getitem_overwrite_ne.
    rewrite (coerce_date_overwrite b _ sb)
      by by rewrite getitem_overwrite_ne.
    by apply overwrite_comm.
  - rewrite (coerce_date_absent b df) by done.
    rewrite (coerce_date_absent b); [done|].
    by rewrite (GuardFacts.has_column_columns _ _ df (columns_coerce_date a df)).
  - rewrite (coerce_date_absent a df) by done.
    rewrite (coerce_date_absent a); [done|].
    by rewrite (GuardFacts.has_column_columns _ _ df (columns_coerce_date b df)).
  - rewrite (coerce_date_absent b df), (coerce_date_absent a df) by done.
    by rewrite (coerce_date_absent b df).
Qed.

Lemma coerce_dates_cons col cols df :
  coerce_all (col :: cols) df = coerce_all cols (coerce col df).
Proof. done. Qed.

Lemma coerce_dates_push col cols : ∀ df,
  coerce_all cols (coerce col df) = coerce col (coerce_all cols df).
Proof.
  induction cols as [|c cols IH]; intros df; [done|].
  by rewrite !coerce_dates_cons, coerce_date_comm, IH.
Qed.

Lemma coerce_dates_idem cols : ∀ df, coerce_all cols (coerce_all cols df) = coerce_all cols df.
Proof.
  induction cols as [|c cols IH]; intros df; [done|].
  rewrite !coerce_dates_cons.
  by rewrite <- (coerce_dates_push c cols (coerce c df)), coerce_date_idem, IH.
Qed.

Lemma columns_coerce_dates cols : ∀ df, columns (coerce_all cols df) = columns df.
Proof.
  induction cols as [|c cols IH]; intros df; [done|].
  by rewrite coerce_dates_cons, IH, columns_coerce_date.
Qed.

Lemma nrows_coerce_dates cols : ∀ df, nrows (coerce_all cols df) = nrows df.
Proof.
  induction cols as [|c cols IH]; intros df; [done|].
  by rewrite coerce_dates_cons, IH, nrows_coerce_date.
Qed.

Lemma getitem_coerce_dates c cols : ∀ df,
  getitem c (coerce_all cols df)
  = (if decide (c ∈ cols) then to_dt else id) <$> getitem c df.
Proof.
  induction cols as [|col cols IH]; intros df.
  - change (coerce_all [] df) with df.
    destruct (decide (c ∈ [])) as [H%elem_of_nil|_]; [done|].
    by destruct (getitem c df).
  - rewrite coerce_dates_cons, IH, getitem_coerce_date.
    destruct (getitem c df) as [s|e]; simpl; [|done]. f_equal.
    destruct (decide (c = col)) as [->|Hne].
    + rewrite (decide_True (P := col ∈ col :: cols)) by by left.
      destruct (decide (col ∈ cols)); [apply to_datetime_idem|done].
    + destruct (decide (c ∈ cols)) as [Hin|Hnot].
      * by rewrite decide_True by by right.
      * rewrite decide_False; [done|]. by intros [?|?]%elem_of_cons.
Qed.

(** In the store, the loop writes the frame it is given. *)
Lemma coerce_date_run l col (h : Store.heap) d :
  h !! l = Some d →
  Store.coerce_date parse_date date_of_number l col h
  = Ok (tt, <[l := coerce col d]> h).
Proof.
  intros H. unfold Store.coerce_date, Dates.coerce_date.
  rewrite StoreFacts.bind_run, (StoreFacts.has_column_run _ _ _ _ H).
  destruct (has_column col d) eqn:Hc.
  - destruct (has_column_getitem _ _ Hc) as [s Hs].
    rewrite StoreFacts.bind_run, (StoreFacts.getitem_run _ _ _ _ H), Hs.
    unfold Store.setitem. by rewrite (StoreFacts.update_run _ _ _ _ H).
  - unfold mret, Store.M_ret. by rewrite list_insert_id.
Qed.

Lemma coerce_dates_run l cols : ∀ (h : Store.heap) d,
  h !! l = Some d →
  Store.for_each cols (Store.coerce_date parse_date date_of_number l) h
  = Ok (tt, <[l := coerce_all cols d]> h).
Proof.
  induction cols as [|col cols IH]; intros h d H.
  - simpl. unfold mret, Store.M_ret. by rewrite list_insert_id.
  - change (Store.for_each (col :: cols) ?f)
      with (f col ≫= fun _ => Store.for_each cols f).
    rewrite StoreFacts.bind_run, (coerce_date_run _ _ _ _ H).
    rewrite (IH _ (coerce col d)) by by eapply StoreFacts.lookup_written.
    by rewrite list_insert_insert_eq, coerce_dates_cons.
Qed.

End Readers.

End DateFacts.

(** X14. The date coercion of sosi_app.py, run on a table of the store,
    never raises and writes that table in place.  The labels and the number
    of rows stay; each date column of the list that the table has then holds
    dates and NaT only, a cell being a date exactly as the date reader reads
    it; every other column and every other table of the store is untouched;
    and running the coercion again changes nothing. *)
Theorem date_coercion_in_place pd dn (cols : list string) l (h : list DataFrame) d :
  h !! l = Some d →
  let d' := Dates.coerce_dates pd dn cols d in
  Store.for_each cols (Store.coerce_date pd dn l) h = Ok (tt, <[l := d']> h)
  ∧ Store.for_each cols (Store.coerce_date pd dn l) (<[l := d']> h)
    = Ok (tt, <[l := d']> h)
  ∧ (∀ k, k ≠ l → <[l := d']> h !! k = h !! k)
  ∧ Pd.columns d' = Pd.columns d
  ∧ Pd.nrows d' = Pd.nrows d
  ∧ (∀ c s, c ∈ cols → Pd.getitem c d = Ok s →
            Pd.getitem c d' = Ok (to_datetime pd dn s)
            ∧ Forall (fun x => Pd.is_datelike x = true) (to_datetime pd dn s))
  ∧ (∀ c, c ∉ cols → Pd.getitem c d' = Pd.getitem c d).
Proof.
  intros H d'. split; [by apply DateFacts.coerce_dates_run|].
  split.
  { rewrite (DateFacts.coerce_dates_run pd dn l cols _ d')
      by by eapply StoreFacts.lookup_written.
    unfold d'. by rewrite DateFacts.coerce_dates_idem, list_insert_insert_eq. }
  split; [intros k Hk; by apply list_lookup_insert_ne|].
  split; [apply DateFacts.columns_coerce_dates|].
  split; [apply DateFacts.nrows_coerce_dates|].
  split.
  - intros c s Hc Hs. unfold d'.
    rewrite DateFacts.getitem_coerce_dates, Hs, decide_True by done.
    split; [done|]. apply DateFacts.to_datetime_datelike.
  - intros c Hc. unfold d'.
    rewrite DateFacts.getitem_coerce_dates, decide_False by done.
    by destruct (Pd.getitem c d).
Qed.

Lemma date_coercion_in_place_witness :
  let d' := Dates.coerce_dates Sample.no_date Sample.no_date_of_number
              Store.staging_date_cols Sample.staging_table in
  Store.coerce_staging_dates Sample.no_date Sample.no_date_of_number 0%nat
    [Sample.staging_table] = Ok (tt, <[0%nat := d']> [Sample.staging_table])
  ∧ Store.coerce_staging_dates Sample.no_date Sample.no_date_of_number 0%nat
      (<[0%nat := d']> [Sample.staging_table])
    = Ok (tt, <[0%nat := d']> [Sample.staging_table])
  ∧ (∀ k, k ≠ 0%nat → <[0%nat := d']> [Sample.staging_table] !! k
                       = [Sample.staging_table] !! k)
  ∧ Pd.columns d' = Pd.columns Sample.staging_table
  ∧ Pd.nrows d' = Pd.nrows Sample.staging_table
  ∧ (∀ c s, c ∈ Store.staging_date_cols → Pd.getitem c Sample.staging_table = Ok s →
            Pd.getitem c d' = Ok (to_datetime Sample.no_date Sample.no_date_of_number s)
            ∧ Forall (fun x => Pd.is_datelike x = true)
                (to_datetime Sample.no_date Sample.no_date_of_number s))
  ∧ (∀ c, c ∉ Store.staging_date_cols → Pd.getitem c d' = Pd.getitem c Sample.staging_table).
Proof.
  apply (date_coercion_in_place Sample.no_date Sample.no_date_of_number
           Store.staging_date_cols 0%nat [Sample.staging_table] Sample.staging_table).
  reflexivity.
Defined.

(** ** The linguist directory *)

Module LinguistFacts.
Import Pd PdFacts Filter FilterFacts Linguists.

(** One select-box filter on a rectangular frame that has the column. *)
Lemma eq_step_rows col v (rest : DataFrame → outcome DataFrame) f :
  rectangular f → has_column col f = true →
  ∃ f', eq_step col (Some v) rest f = rest f'
        ∧ rectangular f' ∧ columns f' = columns f
        ∧ rows f' = List.filter (agrees col v) (rows f)
        ∧ (v = CStr "All" → f' = f).
Proof.
  intros Hrect Hc. unfold eq_step, agrees.
  destruct (bool_decide (v ≠ CStr "All")) eqn:Hv.
  - destruct (has_column_getitem _ _ Hc) as [s Hs]. rewrite Hs.
    eexists. split; [done|]. split; [by apply FilterSteps.rectangular_bool_index|].
    split; [apply columns_bool_index|]. split.
    + rewrite rows_bool_index, <- select_map_self. f_equal. unfold eq_mask.
      rewrite <- (map_map (field col)
        (fun o => match o with
                  | Some c => negb (isna c) && bool_decide (c = v)
                  | None => true
                  end)).
      by rewrite (field_rows _ _ _ _ Hrect Hs), map_map.
    + intros ->. by apply bool_decide_eq_true in Hv.
  - exists f. split; [done|]. split; [done|]. split; [done|].
    split; [|done]. symmetry. apply FilterSteps.filter_all.
Qed.

Lemma eq_step_unbound col (rest : DataFrame → outcome DataFrame) f :
  eq_step col None rest f = NameError.
Proof. done. Qed.

(** Whatever a bound select box holds, a step whose continuation stops
    with [NameError] stops with [NameError]. *)
Lemma eq_step_name_error col v (rest : DataFrame → outcome DataFrame) f :
  has_column col f = true →
  (∀ x, columns x = columns f → rest x = NameError) →
  eq_step col (Some v) rest f = NameError.
Proof.
  intros Hc Hrest. unfold eq_step. destruct (bool_decide _); [|by apply Hrest].
  destruct (has_column_getitem _ _ Hc) as [s ->].
  apply Hrest, columns_bool_index.
Qed.

(** A select box binds its variable when its options can be sorted, and
    stops the script with [TypeError] when they cannot. *)
Lemma selectbox_outcome df col picked :
  selectbox df col picked
  = if Linguists.sortable col df
    then Ok (if has_column col df then Some picked else None)
    else Raise TypeError.
Proof.
  unfold selectbox, Linguists.sortable, Linguists.options.
  destruct (has_column col df) eqn:Hc.
  - destruct (has_column_getitem _ _ Hc) as [s ->]. simpl.
    unfold Py.sorted. by destruct (Py.comparable (unique (dropna s))).
  - by rewrite (FilterSteps.getitem_no_column _ _ Hc).
Qed.

Lemma getitems_present cols f :
  Forall (fun c => has_column c f = true) cols →
  ∃ t, getitems cols f = Ok t ∧ columns t = cols
       ∧ ∀ c, c ∈ cols → getitem c t = getitem c f.
Proof.
  induction 1 as [|col cols Hc _ (t & Ht & Hcols & Hget)]; simpl.
  - exists []. repeat split; try done. by intros c ?%elem_of_nil.
  - destruct (has_column_getitem _ _ Hc) as [s Hs]. rewrite Hs, Ht. simpl.
    eexists. split; [done|]. split; [simpl; by rewrite Hcols|].
    intros c Hin. simpl. destruct (decide (col = c)) as [<-|Hne]; [done|].
    apply Hget. by apply elem_of_cons in Hin as [?|?].
Qed.

Lemma getitems_absent cols f c :
  c ∈ cols → has_column c f = false → getitems cols f = Raise KeyError.
Proof.
  intros Hin Hc. induction cols as [|col cols IH]; [by apply elem_of_nil in Hin|].
  simpl. apply elem_of_cons in Hin as [<-|Hin].
  - by rewrite (RowFacts.getitem_absent _ _ Hc).
  - destruct (getitem col f) as [s|e] eqn:Hs; simpl.
    + by rewrite IH.
    + destruct (has_column col f) eqn:Hcol.
      * destruct (has_column_getitem _ _ Hcol) as [s' Hs']. congruence.
      * rewrite (RowFacts.getitem_absent _ _ Hcol) in Hs. congruence.
Qed.

End LinguistFacts.

(** X15. With the three filter columns in a directory as read from a file
    (rectangular, with distinct labels), each holding values of one kind
    beside the missing ones, so that the options of its select box can be
    sorted, the linguist filter returns exactly the records whose language,
    state and proficiency each equal the selection or have "All" selected,
    in their order; a record whose cell is missing matches no selection but
    "All"; with "All" selected three times the directory is returned as it
    is. *)
Theorem linguist_filter_selects df language state proficiency :
  Filter.rectangular df → Pd.unique_labels df →
  Pd.has_column "Languages" df = true →
  Pd.has_column "State" df = true →
  Pd.has_column "Proficiency" df = true →
  Linguists.sortable "Languages" df = true →
  Linguists.sortable "State" df = true →
  Linguists.sortable "Proficiency" df = true →
  ∃ f, Linguists.filtered_linguists df language state proficiency = Linguists.Done f
       ∧ Pd.columns f = Pd.columns df
       ∧ Filter.rows f
         = List.filter (fun r => Linguists.agrees "Languages" language r
                                 && Linguists.agrees "State" state r
                                 && Linguists.agrees "Proficiency" proficiency r)
             (Filter.rows df)
       ∧ (language = CStr "All" → state = CStr "All" → proficiency = CStr "All" →
          f = df).
Proof.
  intros Hrect _ Hl Hs Hp Hsl Hss Hsp. unfold Linguists.filtered_linguists.
  rewrite !LinguistFacts.selectbox_outcome, Hl, Hs, Hp, Hsl, Hss, Hsp.
  unfold Linguists.run.
  destruct (LinguistFacts.eq_step_rows "Languages" language
              (Linguists.eq_step "State" (Some state)
                 (Linguists.eq_step "Proficiency" (Some proficiency) Linguists.Done))
              df Hrect Hl) as (f1 & -> & Hr1 & Hc1 & Hrows1 & Hid1).
  destruct (LinguistFacts.eq_step_rows "State" state
              (Linguists.eq_step "Proficiency" (Some proficiency) Linguists.Done)
              f1 Hr1) as (f2 & -> & Hr2 & Hc2 & Hrows2 & Hid2).
  { by rewrite (GuardFacts.has_column_columns _ _ _ Hc1). }
  destruct (LinguistFacts.eq_step_rows "Proficiency" proficiency Linguists.Done
              f2 Hr2) as (f3 & -> & Hr3 & Hc3 & Hrows3 & Hid3).
  { rewrite (GuardFacts.has_column_columns _ f2 df); [done|congruence]. }
  exists f3. split; [done|]. split; [congruence|]. split.
  - rewrite Hrows3, Hrows2, Hrows1, !FilterSteps.filter_twice.
    apply filter_ext. intros r. by rewrite andb_assoc.
  - intros Ha Hb Hc. by rewrite Hid3, Hid2, Hid1.
Qed.

Lemma linguist_filter_selects_witness :
  Filter.rectangular Sample2.linguists_table
  ∧ Pd.unique_labels Sample2.linguists_table
  ∧ ∃ f, Linguists.filtered_linguists Sample2.linguists_table
           (CStr "Spanish") (CStr "All") (CStr "Native") = Linguists.Done f
         ∧ Pd.columns f = Pd.columns Sample2.linguists_table
         ∧ Filter.rows f
           = List.filter (fun r => Linguists.agrees "Languages" (CStr "Spanish") r
                                   && Linguists.agrees "State" (CStr "All") r
                                   && Linguists.agrees "Proficiency" (CStr "Native") r)
               (Filter.rows Sample2.linguists_table)
         ∧ (CStr "Spanish" = CStr "All" → CStr "All" = CStr "All" →
            CStr "Native" = CStr "All" → f = Sample2.linguists_table).
Proof.
  assert (Hrect : Filter.rectangular Sample2.linguists_table) by (repeat constructor).
  assert (Hlabels : Pd.unique_labels Sample2.linguists_table)
    by (apply (bool_decide_unpack _); vm_compute; exact I).
  split; [exact Hrect|]. split; [exact Hlabels|].
  apply (linguist_filter_selects Sample2.linguists_table
           (CStr "Spanish") (CStr "All") (CStr "Native") Hrect Hlabels); reflexivity.
Defined.

Example linguists_filtered :
  Linguists.filtered_linguists Sample2.linguists_table
    (CStr "Spanish") (CStr "All") (CStr "Native")
  = Linguists.Done [ ("Languages", [CStr "Spanish"]); ("State", [CStr "NY"]);
                     ("Proficiency", [CStr "Native"]); ("Rate", [CNum 40]) ].
Proof. vm_compute. reflexivity. Qed.

(** X16. When a directory with distinct labels lacks one of the columns
    "Languages", "State" and "Proficiency", its select box is not drawn and
    its variable stays unbound.  The script then never returns a filtered
    directory: it stops with [TypeError] when the options of a select box
    that is drawn cannot be sorted, and otherwise with [NameError] at the
    filter, whatever is selected in the other boxes. *)
Theorem linguist_filter_needs_its_columns df language state proficiency :
  Pd.unique_labels df →
  Pd.has_column "Languages" df = false
  ∨ Pd.has_column "State" df = false
  ∨ Pd.has_column "Proficiency" df = false →
  Linguists.filtered_linguists df language state proficiency
  = if Linguists.sortable "Languages" df && Linguists.sortable "State" df
       && Linguists.sortable "Proficiency" df
    then Linguists.NameError
    else Linguists.PandasError TypeError.
Proof.
  intros _ H. unfold Linguists.filtered_linguists.
  rewrite !LinguistFacts.selectbox_outcome. unfold Linguists.run.
  destruct (Linguists.sortable "Languages" df); [|done].
  destruct (Linguists.sortable "State" df); [|done].
  destruct (Linguists.sortable "Proficiency" df); [|done]. simpl.
  destruct (Pd.has_column "Languages" df) eqn:Hl; [|done].
  apply LinguistFacts.eq_step_name_error; [done|]. intros x Hx.
  destruct (Pd.has_column "State" df) eqn:Hs; [|done].
  apply LinguistFacts.eq_step_name_error.
  { by rewrite (GuardFacts.has_column_columns _ _ _ Hx). }
  intros y Hy.
  destruct (Pd.has_column "Proficiency" df) eqn:Hp; [|done].
  by destruct H as [?|[?|?]].
Qed.

Lemma linguist_filter_needs_its_columns_witness :
  Pd.unique_labels Sample2.stateless_table
  ∧ Linguists.filtered_linguists Sample2.stateless_table
      (CStr "Spanish") (CStr "All") (CStr "All")
    = if Linguists.sortable "Languages" Sample2.stateless_table
         && Linguists.sortable "State" Sample2.stateless_table
         && Linguists.sortable "Proficiency" Sample2.stateless_table
      then Linguists.NameError
      else Linguists.PandasError TypeError.
Proof.
  assert (Hlabels : Pd.unique_labels Sample2.stateless_table)
    by (apply (bool_decide_unpack _); vm_compute; exact I).
  split; [exact Hlabels|].
  apply (linguist_filter_needs_its_columns Sample2.stateless_table _ _ _ Hlabels).
  right. left. reflexivity.
Defined.

Example stateless_directory_stops :
  Linguists.filtered_linguists Sample2.stateless_table
    (CStr "Spanish") (CStr "All") (CStr "All") = Linguists.NameError
  ∧ Linguists.filtered_linguists
      [ ("Languages", [CStr "Spanish"; CNum 7]); ("Proficiency", [CStr "Native"; CNaN]) ]
      (CStr "Spanish") (CStr "All") (CStr "All") = Linguists.PandasError TypeError.
Proof. split; vm_compute; reflexivity. Qed.

(** X17. The table of linguist details never raises: of the six display
    columns it shows those that the filtered directory has, in the order of
    the list, each with the cells it has in the directory.  Asking a frame
    for a list of labels one of which it lacks stops with [KeyError]. *)
Theorem linguist_details_never_raise (f : DataFrame) :
  (∃ t, Linguists.linguist_details f = Ok t
        ∧ Pd.columns t = Linguists.shown_columns f
        ∧ (∀ c, c ∈ Pd.columns t ↔ c ∈ Linguists.display_columns
                                    ∧ Pd.has_column c f = true)
        ∧ (∀ c, c ∈ Pd.columns t → Pd.getitem c t = Pd.getitem c f))
  ∧ (∀ cols c, c ∈ cols → Pd.has_column c f = false →
               Linguists.getitems cols f = Raise KeyError).
Proof.
  split; [|intros cols c; apply LinguistFacts.getitems_absent].
  unfold Linguists.linguist_details.
  destruct (LinguistFacts.getitems_present (Linguists.shown_columns f) f)
    as (t & Ht & Hcols & Hget).
  { unfold Linguists.shown_columns. apply Forall_forall.
    intros c Hc%list_elem_of_In. by apply filter_In in Hc as [_ ?]. }
  exists t. split; [done|]. split; [done|]. rewrite Hcols. split; [|done].
  intros c. unfold Linguists.shown_columns.
  by rewrite list_elem_of_In, filter_In, <- list_elem_of_In.
Qed.

Example linguist_details_sample :
  Linguists.linguist_details Sample2.linguists_table
  = Ok [ ("Languages", [CStr "Spanish"; CStr "Urdu"; CStr "Spanish"]);
         ("State", [CStr "NY"; CStr "NJ"; CStr "NJ"]);
         ("Proficiency", [CStr "Native"; CStr "Fluent"; CNaN]);
         ("Rate", [CNum 40; CNum 35; CNum 45]) ].
Proof. vm_compute. reflexivity. Qed.
